(** * go-clockpro: a CLOCK-Pro+ cache, embedded from the Go sources

    The development follows the repository file by file:

    - [Int]      Go's 64-bit [int] arithmetic on [Z], wrap-around written out;
    - [Float64]  the binary64 values [New] computes its initial cold target with;
    - [Run]      the state-and-failure monad the imperative code is written in;
    - [ring]     internal/ring: the circular list of page records;
    - [clockpro] error.go and clock.go: the cache and its hands.

    Go pointers to page records ([*page]) are positions in an arena of
    records; [nil] is [None].  A run of Go code ends in a value, in a panic
    (nil dereference, division by zero, failed debug assertion), or it is cut
    off when the loop budget [fuel] is used up. *)

From stdpp Require Import gmap list strings sorting.
From Stdlib Require Import ZArith Lia DecimalString.

Set Default Proof Using "Type".

(** ** Go's [int] on a 64-bit target *)

Module Int.
Local Open Scope Z_scope.

Definition min_int : Z := - 2 ^ 63.
Definition max_int : Z := 2 ^ 63 - 1.

Definition in_range (z : Z) : Prop := min_int <= z <= max_int.

(** Two's complement wrap-around of an exact result. *)
Definition wrap (z : Z) : Z := (z + 2 ^ 63) mod 2 ^ 64 - 2 ^ 63.

Definition add (a b : Z) : Z := wrap (a + b).
Definition sub (a b : Z) : Z := wrap (a - b).
Definition mul (a b : Z) : Z := wrap (a * b).
Definition neg (a : Z) : Z := wrap (- a).
(** [a / b] truncates toward zero; the caller handles [b = 0] (a panic). *)
Definition quo (a b : Z) : Z := wrap (a ÷ b).
End Int.

(** ** binary64 arithmetic, as far as [New] uses it

    [New] evaluates [max(float64(capacity)*0.01, 1)] and converts the result
    back with [int(...)].  All values involved are positive and far inside
    the normal range, so a value is a pair [mant * 2^expo] and every
    operation rounds its exact result to 53 significant bits, ties to even. *)

Module Float64.
Local Open Scope Z_scope.

Record t : Type := mk { mant : Z; expo : Z }.

(** Round the positive dyadic [m * 2^e] to nearest, ties to even. *)
Definition round (m e : Z) : t :=
    let s := Z.log2 m - 52 in
    if s <=? 0 then mk m e
    else
      let q := Z.shiftr m s in
      let r := m - Z.shiftl q s in
      let half := Z.shiftl 1 (s - 1) in
      let q' := if r <? half then q
                else if half <? r then q + 1
                else if Z.even q then q else q + 1 in
      mk q' (e + s).

(** [float64(n)] for an [int] [n]. *)
Definition of_int (n : Z) : t := round n 0.

Definition mul (x y : t) : t := round (mant x * mant y) (expo x + expo y).

(** [x < y], comparing the exact values. *)
Definition ltb (x y : t) : bool :=
    let e := Z.min (expo x) (expo y) in
    Z.shiftl (mant x) (expo x - e) <? Z.shiftl (mant y) (expo y - e).

(** The builtin [max] on two finite floats. *)
Definition max (x y : t) : t := if ltb x y then y else x.

(** [int(x)]: truncation toward zero (of a non-negative value). *)
Definition to_int (x : t) : Z :=
    if 0 <=? expo x then Z.shiftl (mant x) (expo x)
    else Z.shiftr (mant x) (- expo x).

Definition one : t := mk 1 0.

(** The double nearest to 0.01: 0x3F847AE147AE147B. *)
Definition cold_ratio : t := mk 5764607523034235 (-59).
End Float64.

(** ** Runs of imperative code *)

Module Run.
Inductive result (A : Type) : Type :=
  | Ok (a : A)
  | Panic
  | OutOfFuel.
Arguments Ok {A} a.
Arguments Panic {A}.
Arguments OutOfFuel {A}.

(** A computation over a mutable state [S]. *)
Definition M (S A : Type) : Type := S -> result (A * S).

Definition ret {S A} (a : A) : M S A := fun s => Ok (a, s).
Definition bind {S A B} (m : M S A) (k : A -> M S B) : M S B :=
    fun s => match m s with
             | Ok (a, s') => k a s'
             | Panic => Panic
             | OutOfFuel => OutOfFuel
             end.
Definition panic {S A} : M S A := fun _ => Panic.
Definition timeout {S A} : M S A := fun _ => OutOfFuel.
Definition get {S} : M S S := fun s => Ok (s, s).
Definition modify {S} (f : S -> S) : M S unit := fun s => Ok (tt, f s).

(** Run a computation on a component of the state. *)
Definition zoom {S T A} (proj : S -> T) (inj : T -> S -> S) (m : M T A)
    : M S A :=
    fun s => match m (proj s) with
             | Ok (a, t) => Ok (a, inj t s)
             | Panic => Panic
             | OutOfFuel => OutOfFuel
             end.

Definition when {S} (b : bool) (m : M S unit) : M S unit :=
    if b then m else ret tt.
End Run.

Import Run.

Declare Scope run_scope.
Delimit Scope run_scope with run.
Notation "x <- m ;; k" := (bind m (fun x => k))
  (at level 100, m at next level, right associativity) : run_scope.
Notation "m ;; k" := (bind m (fun _ => k))
  (at level 100, right associativity) : run_scope.

(** ** internal/ring *)

Module ring.
Section Ring.
Context {Key Value : Type}.
Local Open Scope run_scope.

(** A [*Ring]: [None] is [nil]. *)
Local Abbreviation ptr := (option nat).

Record Metadata : Type := mkMetadata {
    Name : Key;
    LIR : bool;
    Resident : bool;
    Demoted : bool;
    Referenced : bool;
    Stacked : bool
  }.

Record Ring : Type := mkRing {
    next : ptr;
    prev : ptr;
    Val : Value;
    meta : Metadata
  }.

Definition set_next (s : ptr) (x : Ring) : Ring :=
    mkRing s (prev x) (Val x) (meta x).
Definition set_prev (s : ptr) (x : Ring) : Ring :=
    mkRing (next x) s (Val x) (meta x).
Definition set_Val (v : Value) (x : Ring) : Ring :=
    mkRing (next x) (prev x) v (meta x).
Definition set_meta (f : Metadata -> Metadata) (x : Ring) : Ring :=
    mkRing (next x) (prev x) (Val x) (f (meta x)).

Definition with_LIR (b : bool) (m : Metadata) : Metadata :=
    mkMetadata (Name m) b (Resident m) (Demoted m) (Referenced m) (Stacked m).
Definition with_Resident (b : bool) (m : Metadata) : Metadata :=
    mkMetadata (Name m) (LIR m) b (Demoted m) (Referenced m) (Stacked m).
Definition with_Demoted (b : bool) (m : Metadata) : Metadata :=
    mkMetadata (Name m) (LIR m) (Resident m) b (Referenced m) (Stacked m).
Definition with_Referenced (b : bool) (m : Metadata) : Metadata :=
    mkMetadata (Name m) (LIR m) (Resident m) (Demoted m) b (Stacked m).
Definition with_Stacked (b : bool) (m : Metadata) : Metadata :=
    mkMetadata (Name m) (LIR m) (Resident m) (Demoted m) (Referenced m) b.

(** The page records allocated so far. *)
Local Abbreviation heap := (list Ring).

(** Reading through a pointer; [nil] panics. *)
Definition load (r : ptr) : M heap Ring :=
    fun h => match r with
             | Some i => match h !! i with
                         | Some x => Ok (x, h)
                         | None => Panic
                         end
             | None => Panic
             end.

(** Writing through a pointer; [nil] panics. *)
Definition store (r : ptr) (f : Ring -> Ring) : M heap unit :=
    fun h => match r with
             | Some i => match h !! i with
                         | Some _ => Ok (tt, alter f i h)
                         | None => Panic
                         end
             | None => Panic
             end.

(** [&Ring{...}] *)
Definition alloc (x : Ring) : M heap ptr :=
    fun h => Ok (Some (length h), h ++ [x]).

Definition init (r : ptr) : M heap ptr :=
    store r (set_next r) ;;
    store r (set_prev r) ;;
    ret r.

Definition Next (r : ptr) : M heap ptr :=
    x <- load r ;;
    match next x with
    | None => init r
    | Some _ => ret (next x)
    end.

Definition Prev (r : ptr) : M heap ptr :=
    x <- load r ;;
    match next x with
    | None => init r
    | Some _ => ret (prev x)
    end.

(** [for ; n > 0; n-- { r = r.next }], and the same along [prev]. *)
Fixpoint walk (field : Ring -> ptr) (n : nat) (r : ptr) : M heap ptr :=
    match n with
    | O => ret r
    | S k => x <- load r ;; walk field k (field x)
    end.

Definition Move (r : ptr) (n : Z) : M heap ptr :=
    x <- load r ;;
    match next x with
    | None => init r
    | Some _ =>
        if (n <? 0)%Z then walk prev (Z.to_nat (- n)) r
        else if (0 <? n)%Z then walk next (Z.to_nat n) r
        else ret r
    end.

Definition Link (r s : ptr) : M heap ptr :=
    n <- Next r ;;
    match s with
    | Some _ =>
        p <- Prev s ;;
        store r (set_next s) ;;
        store s (set_prev r) ;;
        store n (set_prev p) ;;
        store p (set_next n) ;;
        ret n
    | None => ret n
    end.

Definition Unlink (r : ptr) (n : Z) : M heap ptr :=
    if (n <=? 0)%Z then ret None
    else s <- Move r (Int.add n 1) ;; Link r s.
End Ring.
Arguments Metadata : clear implicits.
Arguments Ring : clear implicits.

Abbreviation ptr := (option nat).
Abbreviation heap Key Value := (list (Ring Key Value)).
End ring.

(** ** error.go and clock.go *)

Module clockpro.
Import ring.

(** *** error.go *)

Definition constError : Type := string.

Definition ErrInvalidCapacity : constError := "invalid capacity".

(** [fmt]'s [%d] verb. *)
Definition itoa (z : Z) : string := NilZero.string_of_int (Z.to_int z).

(** The error [fmt.Errorf] builds for a format with one [%w] verb: a
    message, and the operand of [%w], which [Unwrap] returns. *)
Record wrapError : Type := mkWrapError {
  Error : string;
  Unwrap : constError
}.

(** [errors.Is(err, target)] for an error built by [fmt.Errorf]. *)
Definition errors_Is (err : wrapError) (target : constError) : bool :=
  bool_decide (Unwrap err = target).

Definition MinimumCapacity : Z := 2.

Definition minCapacityError (capacity : Z) : wrapError :=
  mkWrapError
    (ErrInvalidCapacity +:+ ": must be >=" +:+ itoa MinimumCapacity
       +:+ " but " +:+ itoa capacity +:+ " was requested")
    ErrInvalidCapacity.

(** *** clock.go *)

Section Cache.
Context {Key : Type} `{Countable Key} {Value : Type}.
(** The zero value of [Value]. *)
Variable zero : Value.
(** The constant [debugging]: [true] in a build with the tag
      [clockpro_debug] (clock_debug.go), [false] otherwise. *)
Variable debugging : bool.

Local Open Scope run_scope.
Local Open Scope Z_scope.

Local Abbreviation page := (Ring Key Value).

Record Cache : Type := mkCache {
    index : gmap Key nat;
    hot : ptr;
    cold : ptr;
    test : ptr;
    lru : ptr;
    capacity : Z;
    coldTarget : Z;
    hotTarget : Z;
    coldCount : Z;
    hotCount : Z;
    testCount : Z;
    demotions : Z;
    (** the page records the cache points into *)
    pages : heap Key Value
  }.

Definition set_index f (c : Cache) : Cache :=
    mkCache (f (index c)) (hot c) (cold c) (test c) (lru c) (capacity c)
      (coldTarget c) (hotTarget c) (coldCount c) (hotCount c) (testCount c)
      (demotions c) (pages c).
Definition set_hot p (c : Cache) : Cache :=
    mkCache (index c) p (cold c) (test c) (lru c) (capacity c)
      (coldTarget c) (hotTarget c) (coldCount c) (hotCount c) (testCount c)
      (demotions c) (pages c).
Definition set_cold p (c : Cache) : Cache :=
    mkCache (index c) (hot c) p (test c) (lru c) (capacity c)
      (coldTarget c) (hotTarget c) (coldCount c) (hotCount c) (testCount c)
      (demotions c) (pages c).
Definition set_test p (c : Cache) : Cache :=
    mkCache (index c) (hot c) (cold c) p (lru c) (capacity c)
      (coldTarget c) (hotTarget c) (coldCount c) (hotCount c) (testCount c)
      (demotions c) (pages c).
Definition set_lru p (c : Cache) : Cache :=
    mkCache (index c) (hot c) (cold c) (test c) p (capacity c)
      (coldTarget c) (hotTarget c) (coldCount c) (hotCount c) (testCount c)
      (demotions c) (pages c).
Definition set_targets ct ht (c : Cache) : Cache :=
    mkCache (index c) (hot c) (cold c) (test c) (lru c) (capacity c)
      ct ht (coldCount c) (hotCount c) (testCount c)
      (demotions c) (pages c).
Definition set_coldCount n (c : Cache) : Cache :=
    mkCache (index c) (hot c) (cold c) (test c) (lru c) (capacity c)
      (coldTarget c) (hotTarget c) n (hotCount c) (testCount c)
      (demotions c) (pages c).
Definition set_hotCount n (c : Cache) : Cache :=
    mkCache (index c) (hot c) (cold c) (test c) (lru c) (capacity c)
      (coldTarget c) (hotTarget c) (coldCount c) n (testCount c)
      (demotions c) (pages c).
Definition set_testCount n (c : Cache) : Cache :=
    mkCache (index c) (hot c) (cold c) (test c) (lru c) (capacity c)
      (coldTarget c) (hotTarget c) (coldCount c) (hotCount c) n
      (demotions c) (pages c).
Definition set_demotions n (c : Cache) : Cache :=
    mkCache (index c) (hot c) (cold c) (test c) (lru c) (capacity c)
      (coldTarget c) (hotTarget c) (coldCount c) (hotCount c) (testCount c)
      n (pages c).
Definition set_pages h (c : Cache) : Cache :=
    mkCache (index c) (hot c) (cold c) (test c) (lru c) (capacity c)
      (coldTarget c) (hotTarget c) (coldCount c) (hotCount c) (testCount c)
      (demotions c) h.

(** Ring and page operations act on the records the cache points into. *)
Definition onPages {A} (m : M (heap Key Value) A) : M Cache A :=
    zoom pages set_pages m.

Definition read (r : ptr) : M Cache page := onPages (load r).
Definition setMeta (r : ptr) (f : Metadata Key -> Metadata Key)
    : M Cache unit := onPages (store r (set_meta f)).
Definition setValue (r : ptr) (v : Value) : M Cache unit :=
    onPages (store r (set_Val v)).

(** [x++], [x--] *)
Definition incr (x : Z) : Z := Int.add x 1.
Definition decr (x : Z) : Z := Int.sub x 1.

(** [assert] is called only under [if debugging]. *)
Definition assert (cond : bool) : M Cache unit :=
    if debugging && negb cond then panic else ret tt.

Definition New (capacity : Z) : Cache + wrapError :=
    if capacity <? MinimumCapacity then inr (minCapacityError capacity)
    else
      let coldInitial :=
        Float64.max
          (Float64.mul (Float64.of_int capacity) Float64.cold_ratio)
          Float64.one in
      let coldTarget := Z.min (Float64.to_int coldInitial) (capacity ÷ 2) in
      let hotTarget := Int.sub capacity coldTarget in
      inl (mkCache ∅ None None None None capacity coldTarget hotTarget
             0 0 0 0 []).

Definition Get (key : Key) : M Cache (Value * bool) :=
    c <- get ;;
    match index c !! key with
    | Some i =>
        p <- read (Some i) ;;
        if Resident (meta p) then
          setMeta (Some i) (with_Referenced true) ;;
          ret (Val p, true)
        else ret (zero, false)
    | None => ret (zero, false)
    end.

Definition atCapacity : M Cache bool :=
    c <- get ;;
    ret (Int.add (coldCount c) (hotCount c) =? capacity c).

Definition adjustColdTarget (delta : Z) : M Cache unit :=
    c <- get ;;
    let size := capacity c in
    let diff := Z.max (Int.add (coldTarget c) delta) 1 in
    let coldTarget := Z.min diff (size ÷ 2) in
    modify (set_targets coldTarget (Int.sub size coldTarget)).

Definition increaseColdTarget : M Cache unit :=
    c <- get ;;
    if testCount c =? 0 then panic
    else adjustColdTarget (Z.max (Int.quo (demotions c) (testCount c)) 1).

Definition decreaseColdTarget : M Cache unit :=
    c <- get ;;
    if demotions c =? 0 then panic
    else
      adjustColdTarget
        (Int.neg (Z.max (Int.quo (testCount c) (demotions c)) 1)).

Fixpoint sweepTest_loop (fuel : nat) (hand : ptr) : M Cache ptr :=
    match fuel with
    | O => timeout
    | S fuel =>
        p <- read hand ;;
        if LIR (meta p) || Resident (meta p) then
          hand <- onPages (Next hand) ;;
          sweepTest_loop fuel hand
        else ret hand
    end.

Definition sweepTest (fuel : nat) : M Cache unit :=
    c <- get ;;
    if testCount c =? 0 then modify (set_test None)
    else
      hand <- sweepTest_loop fuel (test c) ;;
      modify (set_test hand).

Definition removeTest (fuel : nat) (test_ : ptr) : M Cache unit :=
    c <- get ;;
    (if bool_decide (test_ = test c) then
       n <- onPages (Next test_) ;;
       modify (set_test n)
     else ret tt) ;;
    p <- read test_ ;;
    modify (set_index (delete (Name (meta p)))) ;;
    q <- onPages (Prev test_) ;;
    onPages (Unlink q 1) ;;
    modify (fun c => set_testCount (decr (testCount c)) c) ;;
    sweepTest fuel.

Definition handleHotLIR (page_ : ptr) : M Cache unit :=
    setMeta page_ (with_Referenced false) ;;
    modify (set_lru page_).

Definition handleHotHIR (fuel : nat) (page_ next_ : ptr) : M Cache unit :=
    p <- read page_ ;;
    if Resident (meta p) then
      if Referenced (meta p) then
        setMeta page_ (with_Referenced false) ;;
        (if Demoted (meta p) then
           decreaseColdTarget ;;
           setMeta page_ (with_Demoted false) ;;
           modify (fun c => set_demotions (decr (demotions c)) c)
         else ret tt) ;;
        modify (set_lru page_) ;;
        c <- get ;;
        when (bool_decide (page_ = cold c)) (modify (set_cold next_))
      else setMeta page_ (with_Stacked false)
    else removeTest fuel page_.

Fixpoint sweepHot_loop (fuel : nat) (page_ : ptr) : M Cache ptr :=
    match fuel with
    | O => timeout
    | S fuel =>
        p <- read page_ ;;
        if negb (LIR (meta p)) || Referenced (meta p) then
          next_ <- onPages (Next page_) ;;
          (if LIR (meta p) then handleHotLIR page_
           else handleHotHIR fuel page_ next_) ;;
          sweepHot_loop fuel next_
        else ret page_
    end.

Definition sweepHot (fuel : nat) : M Cache unit :=
    c <- get ;;
    if hotCount c =? 0 then ret tt
    else
      page_ <- sweepHot_loop fuel (hot c) ;;
      modify (set_hot page_).

Definition moveToLRU (page_ : ptr) : M Cache unit :=
    c <- get ;;
    if bool_decide (page_ = lru c) then ret tt
    else
      q <- onPages (Prev page_) ;;
      leaf <- onPages (Unlink q 1) ;;
      c <- get ;;
      onPages (Link (lru c) leaf) ;;
      modify (set_lru leaf).

Definition demoteHot (fuel : nat) : M Cache unit :=
    c <- get ;;
    (if debugging then
       h <- read (hot c) ;; assert (negb (Referenced (meta h)))
     else ret tt) ;;
    let page_ := hot c in
    n <- onPages (Next page_) ;;
    modify (set_hot n) ;;
    setMeta page_ (with_LIR false) ;;
    setMeta page_ (with_Stacked false) ;;
    setMeta page_ (with_Demoted true) ;;
    modify (fun c => set_hotCount (decr (hotCount c)) c) ;;
    modify (fun c => set_coldCount (incr (coldCount c)) c) ;;
    modify (fun c => set_demotions (incr (demotions c)) c) ;;
    moveToLRU page_ ;;
    sweepHot fuel.

Fixpoint promoteCold_loop (fuel : nat) : M Cache unit :=
    match fuel with
    | O => timeout
    | S fuel =>
        c <- get ;;
        if hotTarget c <? hotCount c then
          demoteHot fuel ;;
          promoteCold_loop fuel
        else ret tt
    end.

Definition promoteCold (fuel : nat) (coldToHot : ptr) : M Cache unit :=
    setMeta coldToHot (with_LIR true) ;;
    modify (fun c => set_hotCount (incr (hotCount c)) c) ;;
    modify (fun c => set_coldCount (decr (coldCount c)) c) ;;
    moveToLRU coldToHot ;;
    promoteCold_loop fuel.

Definition handleReferencedCold (fuel : nat) (page_ : ptr) : M Cache unit :=
    setMeta page_ (with_Referenced false) ;;
    p <- read page_ ;;
    (if Demoted (meta p) then
       decreaseColdTarget ;;
       setMeta page_ (with_Demoted false) ;;
       modify (fun c => set_demotions (decr (demotions c)) c)
     else ret tt) ;;
    if Stacked (meta p) then promoteCold fuel page_
    else
      setMeta page_ (with_Stacked true) ;;
      moveToLRU page_.

Fixpoint sweepCold_loop (fuel : nat) (hand : ptr) : M Cache ptr :=
    match fuel with
    | O => timeout
    | S fuel =>
        h <- read hand ;;
        if LIR (meta h) || negb (Resident (meta h)) || Referenced (meta h)
        then
          let page_ := hand in
          hand <- onPages (Next hand) ;;
          (if LIR (meta h) || negb (Referenced (meta h)) then ret tt
           else handleReferencedCold fuel page_) ;;
          sweepCold_loop fuel hand
        else ret hand
    end.

Definition sweepCold (fuel : nat) : M Cache unit :=
    c <- get ;;
    if coldCount c =? 0 then ret tt
    else
      hand <- sweepCold_loop fuel (cold c) ;;
      modify (set_cold hand).

Definition evictCold (fuel : nat) : M Cache unit :=
    c <- get ;;
    (if debugging then
       h <- read (cold c) ;;
       assert (negb (LIR (meta h)) && Resident (meta h)
               && negb (Referenced (meta h)))
     else ret tt) ;;
    let page_ := cold c in
    n <- onPages (Next page_) ;;
    modify (set_cold n) ;;
    setMeta page_ (with_Resident false) ;;
    setValue page_ zero ;;
    modify (fun c => set_coldCount (decr (coldCount c)) c) ;;
    modify (fun c => set_testCount (incr (testCount c)) c) ;;
    p <- read page_ ;;
    (if Demoted (meta p) then
       setMeta page_ (with_Demoted false) ;;
       modify (fun c => set_demotions (decr (demotions c)) c)
     else ret tt) ;;
    c <- get ;;
    when (bool_decide (test c = None)) (modify (set_test page_)) ;;
    if negb (Stacked (meta p)) then
      c <- get ;;
      (if bool_decide (page_ = lru c) then
         q <- onPages (Prev page_) ;; modify (set_lru q)
       else ret tt) ;;
      removeTest fuel page_
    else ret tt.

Definition addToClock (page_ : ptr) : M Cache unit :=
    c <- get ;;
    (if bool_decide (lru c = None) then
       modify (set_lru page_) ;;
       modify (set_hot page_)
     else
       onPages (Link (lru c) page_) ;;
       modify (set_lru page_)) ;;
    p <- read page_ ;;
    match page_ with
    | Some i => modify (set_index (insert (Name (meta p)) i))
    | None => panic
    end.

Fixpoint pruneTest_loop (fuel : nat) (metadataLimit : Z) : M Cache unit :=
    match fuel with
    | O => timeout
    | S fuel =>
        c <- get ;;
        if metadataLimit
           <? Int.add (Int.add (coldCount c) (hotCount c)) (testCount c)
        then
          (if debugging then
             t <- read (test c) ;;
             assert (Stacked (meta t) && negb (LIR (meta t))
                     && negb (Resident (meta t)))
           else ret tt) ;;
          removeTest fuel (test c) ;;
          pruneTest_loop fuel metadataLimit
        else ret tt
    end.

Definition pruneTest (fuel : nat) : M Cache unit :=
    c <- get ;;
    pruneTest_loop fuel (Int.mul (capacity c) 2).

Definition addNew (fuel : nat) (key : Key) (value : Value) : M Cache unit :=
    c <- get ;;
    let lowIRR := (coldCount c =? 0) && (hotCount c <? hotTarget c) in
    page_ <- onPages (alloc (mkRing None None value
                               (mkMetadata key lowIRR true false false true))) ;;
    addToClock page_ ;;
    (if lowIRR then modify (fun c => set_hotCount (incr (hotCount c)) c)
     else
       c <- get ;;
       when (bool_decide (cold c = None)) (modify (set_cold page_)) ;;
       modify (fun c => set_coldCount (incr (coldCount c)) c)) ;;
    sweepCold fuel ;;
    pruneTest fuel.

Definition promoteTest (fuel : nat) (testToHot : ptr) (value : Value)
    : M Cache unit :=
    (if debugging then
       t <- read testToHot ;;
       c <- get ;;
       assert (Stacked (meta t)) ;;
       assert (negb (Referenced (meta t))) ;;
       assert (Int.add (hotCount c) (coldCount c) =? capacity c)
     else ret tt) ;;
    increaseColdTarget ;;
    evictCold fuel ;;
    setValue testToHot value ;;
    setMeta testToHot (with_Resident true) ;;
    modify (fun c => set_testCount (decr (testCount c)) c) ;;
    modify (fun c => set_coldCount (incr (coldCount c)) c) ;;
    c <- get ;;
    when (bool_decide (testToHot = test c)) (sweepTest fuel) ;;
    promoteCold fuel testToHot ;;
    sweepCold fuel.

Definition handleMiss (fuel : nat) (key : Key) (value : Value)
      (hadMetadata : bool) : M Cache unit :=
    sweepHot fuel ;;
    sweepCold fuel ;;
    c <- get ;;
    match (if hadMetadata then index c !! key else None) with
    | Some test_ => promoteTest fuel (Some test_) value
    | None =>
        full <- atCapacity ;;
        when full (evictCold fuel) ;;
        addNew fuel key value
    end.

Definition Set_ (fuel : nat) (key : Key) (value : Value) : M Cache unit :=
    c <- get ;;
    match index c !! key with
    | Some i =>
        p <- read (Some i) ;;
        if Resident (meta p) then
          setMeta (Some i) (with_Referenced true) ;;
          setValue (Some i) value
        else handleMiss fuel key value true
    | None => handleMiss fuel key value false
    end.

(** [fetch] returns a value and an error ([None] is the [nil] error). *)
Definition Load {E : Type} (fuel : nat) (key : Key)
      (fetch : unit -> Value * option E) : M Cache (Value * option E) :=
    r <- Get key ;;
    if snd r then ret (fst r, None)
    else
      let (value, err) := fetch tt in
      match err with
      | Some e => ret (value, Some e)
      | None =>
          let hadMetadata := false in
          handleMiss fuel key value hadMetadata ;;
          ret (value, None)
      end.

Definition Len (c : Cache) : Z := Int.add (hotCount c) (coldCount c).

(** [range c.index] visits the entries in an unspecified order; [order]
      is the order of one traversal.  The result is the sequence of keys
      handed to [yield]. *)
Fixpoint Keys_loop (order : list (Key * nat)) (residents : Z)
      (yield : Key -> bool) (h : heap Key Value) : result (list Key) :=
    match order with
    | [] => Ok []
    | (key, i) :: order =>
        match h !! i with
        | None => Panic
        | Some p =>
            if Resident (meta p) then
              if negb (yield key) then Ok [key]
              else if decr residents =? 0 then Ok [key]
              else match Keys_loop order (decr residents) yield h with
                   | Ok ks => Ok (key :: ks)
                   | Panic => Panic
                   | OutOfFuel => OutOfFuel
                   end
            else Keys_loop order residents yield h
        end
    end.

Definition Keys (c : Cache) (order : list (Key * nat))
      (yield : Key -> bool) : result (list Key) :=
    Keys_loop order (Len c) yield (pages c).
End Cache.

(** *** The public operations as a transition system *)

Section Spec.
Context {Key : Type} `{Countable Key} {Value : Type}.
Variable zero : Value.
Variable debugging : bool.
(** The error type of the [fetch] callbacks handed to [Load]. *)
Variable Err : Type.

Local Open Scope run_scope.
Local Open Scope Z_scope.

Local Abbreviation cache := (@Cache Key _ _ Value).
Local Abbreviation heap := (ring.heap Key Value).

(** A call of a public method that may change the cache.  [Len] and [Keys]
    only read it. *)
Inductive op : Type :=
| OpGet (key : Key)
| OpSet (key : Key) (value : Value)
| OpLoad (key : Key) (fetch : unit -> Value * option Err).

Definition exec (fuel : nat) (o : op) : M cache unit :=
  match o with
  | OpGet key => Get zero key ;; ret tt
  | OpSet key value => Set_ zero debugging fuel key value
  | OpLoad key fetch => Load zero debugging fuel key fetch ;; ret tt
  end.

Fixpoint run (fuel : nat) (ops : list op) : M cache unit :=
  match ops with
  | [] => ret tt
  | o :: ops => exec fuel o ;; run fuel ops
  end.

(** The cache after [New(capacity)] and a sequence of calls. *)
Definition after (capacity : Z) (fuel : nat) (ops : list op) : result cache :=
  match New capacity with
  | inl c => match run fuel ops c with
             | Ok (_, c') => Ok c'
             | Panic => Panic
             | OutOfFuel => OutOfFuel
             end
  | inr _ => Panic
  end.

(** One public call that returns. *)
Definition step (c c' : cache) : Prop :=
  exists fuel o, exec fuel o c = Ok (tt, c').

(** The caches a program can hold: [New(capacity)] succeeded, and every
    later call returned. *)
Inductive reachable (capacity : Z) : cache -> Prop :=
| reachable_New c : New capacity = inl c -> reachable capacity c
| reachable_step c c' :
    reachable capacity c -> step c c' -> reachable capacity c'.

(** *** Reading a cache *)

Definition metaOf (h : heap) (i : nat) : option (Metadata Key) :=
  meta <$> h !! i.
Definition nextOf (h : heap) (i : nat) : option ptr := next <$> h !! i.
Definition prevOf (h : heap) (i : nat) : option ptr := prev <$> h !! i.

Definition flagOf (f : Metadata Key -> bool) (h : heap) (i : nat) : bool :=
  match metaOf h i with
  | Some m => f m
  | None => false
  end.

(** The key indexes a page whose value is resident. *)
Definition residentKey (c : cache) (key : Key) : bool :=
  match index c !! key with
  | Some i => flagOf Resident (pages c) i
  | None => false
  end.

(** The key indexes a nonresident (ghost, test) page. *)
Definition ghostKey (c : cache) (key : Key) : bool :=
  match index c !! key with
  | Some i => negb (flagOf Resident (pages c) i)
  | None => false
  end.

(** The pages linked in the ring, from the LRU pointer along [next]. *)
Fixpoint ring_walk (h : heap) (n : nat) (start cur : nat) : list nat :=
  match n with
  | O => []
  | S n =>
      cur :: match nextOf h cur with
             | Some (Some j) =>
                 if decide (j = start) then [] else ring_walk h n start j
             | _ => []
             end
  end.

Definition ring_pages (c : cache) : list nat :=
  match lru c with
  | Some i => ring_walk (pages c) (length (pages c)) i i
  | None => []
  end.

(** The number of pages in the ring with a flag set. *)
Definition ring_count (f : Metadata Key -> bool) (c : cache) : Z :=
  Z.of_nat (length (filter (fun i => flagOf f (pages c) i = true)
                      (ring_pages c))).

(** Page records that carry the key and are linked in the ring. *)
Definition records_of (c : cache) (key : Key) : list nat :=
  filter (fun i => Name <$> metaOf (pages c) i = Some key) (ring_pages c).

(** *** The shape of the ring and of the page flags *)

(** [y] follows [x]. *)
Definition link (h : heap) (x y : nat) : Prop :=
  nextOf h x = Some (Some y) /\ prevOf h y = Some (Some x).

(** A path from [x] through [t] to [z]. *)
Fixpoint seg (h : heap) (x : nat) (t : list nat) (z : nat) : Prop :=
  match t with
  | [] => link h x z
  | y :: t => link h x y /\ seg h y t z
  end.

(** [l] lists the ring in order.  A page that is alone and was never
    handed to [Next] or [Prev] still has [nil] links. *)
Definition ring_at (h : heap) (l : list nat) : Prop :=
  NoDup l /\
  match l with
  | [] => True
  | x :: t => seg h x t x \/ (t = [] /\ nextOf h x = Some None)
  end.

Definition isHot (m : Metadata Key) : bool := LIR m.
Definition isCold (m : Metadata Key) : bool := Resident m && negb (LIR m).
Definition isTest (m : Metadata Key) : bool := negb (Resident m).

(** Flags of a page in the ring: hot pages are resident and not demoted,
    ghosts are neither referenced nor demoted. *)
Definition flags_ok (m : Metadata Key) : bool :=
  implb (LIR m) (Resident m && negb (Demoted m))
  && implb (negb (Resident m)) (negb (Referenced m) && negb (Demoted m)).

(** Flags of a page that was taken out of the ring. *)
Definition idle (m : Metadata Key) : bool :=
  negb (LIR m) && negb (Resident m) && negb (Referenced m)
  && negb (Demoted m).

Definition count (f : Metadata Key -> bool) (h : heap) (l : list nat) : Z :=
  foldr (fun i n => (if flagOf f h i then 1 else 0) + n) 0 l.

(** The ring is [l] in some order, and every other record is on its own. *)
Definition shape (h : heap) (l : list nat) : Prop :=
  (exists l0, l0 ≡ₚ l /\ ring_at h l0)
  /\ (forall i, (i < length h)%nat -> i ∉ l -> link h i i).

(** Two heaps with the same records up to their links. *)
Definition same_meta (h h' : heap) : Prop :=
  length h' = length h /\ forall i, metaOf h' i = metaOf h i.

(** Two heaps with the same links. *)
Definition same_links (h h' : heap) : Prop :=
  length h' = length h
  /\ forall i, nextOf h' i = nextOf h i /\ prevOf h' i = prevOf h i.

(** The heap after [r.init()]. *)
Definition init_heap (x : nat) (h : heap) : heap :=
  alter (set_prev (Some x)) x (alter (set_next (Some x)) x h).

(** The heap after the four assignments of [Link]. *)
Definition link4 (h : heap) (r s n p : nat) : heap :=
  alter (set_next (Some n)) p
    (alter (set_prev (Some p)) n
       (alter (set_prev (Some r)) s
          (alter (set_next (Some s)) r h))).

(** What holds between any two steps of the engine: [l] is the ring. *)
Record WF (l : list nat) (c : cache) : Prop := mkWF {
  wf_shape : shape (pages c) l;
  wf_out : forall i, (i < length (pages c))%nat -> i ∉ l ->
      flagOf idle (pages c) i = true;
  wf_in : forall i, i ∈ l -> flagOf flags_ok (pages c) i = true;
  wf_hotCount : hotCount c = count isHot (pages c) l;
  wf_coldCount : coldCount c = count isCold (pages c) l;
  wf_testCount : testCount c = count isTest (pages c) l;
  wf_demotions : demotions c = count Demoted (pages c) l;
  wf_length : Z.of_nat (length l) <= Int.max_int;
  wf_capacity : 2 <= capacity c <= Int.max_int;
  wf_coldTarget : 1 <= coldTarget c <= capacity c ÷ 2;
  wf_hotTarget : hotTarget c = capacity c - coldTarget c;
  wf_residents : hotCount c + coldCount c <= capacity c;
  wf_index : forall k i, index c !! k = Some i ->
      i ∈ l /\ Name <$> metaOf (pages c) i = Some k;
  wf_lru : match lru c with Some i => i ∈ l | None => l = [] end;
  wf_test : match test c with Some i => i ∈ l | None => True end
}.

(** The LRU pointer is at a resident page. *)
Definition lruR (c : cache) : Prop :=
  match lru c with
  | Some i => flagOf Resident (pages c) i = true
  | None => True
  end.

(** The hot hand is at a hot page. *)
Definition hotS (c : cache) : Prop :=
  exists i, hot c = Some i /\ flagOf LIR (pages c) i = true.

(** ... unless the cache is empty. *)
Definition hotL (l : list nat) (c : cache) : Prop := l = [] \/ hotS c.

(** The test hand, when set, is at a ghost. *)
Definition testG (c : cache) : Prop :=
  match test c with
  | Some i => flagOf Resident (pages c) i = false
  | None => True
  end.

(** The cold hand is at a page that can be evicted. *)
Definition coldOK (c : cache) : Prop :=
  exists i, cold c = Some i
    /\ flagOf LIR (pages c) i = false
    /\ flagOf Resident (pages c) i = true
    /\ flagOf Referenced (pages c) i = false.

(** What holds between two public calls. *)
Record Inv (l : list nat) (c : cache) : Prop := mkInv {
  inv_wf : WF l c;
  inv_lru : lruR c;
  inv_hot : hotL l c;
  inv_test : testG c;
  inv_hotCount : hotCount c <= capacity c - 1;
  inv_ghosts : 0 < testCount c -> hotCount c + coldCount c = capacity c;
  inv_metadata : Z.of_nat (length l) <= 2 * capacity c;
  inv_huge : 2 ^ 62 <= capacity c -> l = []
}.

(** What the hand sweeps leave alone. *)
Record sweepR (c c' : cache) : Prop := mkSweepR {
  sw_capacity : capacity c' = capacity c;
  sw_residents : hotCount c' + coldCount c' = hotCount c + coldCount c;
  sw_testCount : testCount c' <= testCount c;
  sw_index : forall k i, index c' !! k = Some i -> index c !! k = Some i;
  sw_resident : forall i,
      flagOf Resident (pages c') i = flagOf Resident (pages c) i;
  sw_pages : length (pages c') = length (pages c)
}.

(** The pages the counters account for, less the keys of the index. *)
Definition unindexed (c : cache) : Z :=
  hotCount c + coldCount c + testCount c - Z.of_nat (size (index c)).

(** No key left the index but with a page that left the ring. *)
Definition kept (c c' : cache) : Prop := unindexed c' <= unindexed c.

(** The caches of a program that never calls [Load]. *)
Inductive reachable_without_Load (capacity : Z) : cache -> Prop :=
| without_Load_New c : New capacity = inl c -> reachable_without_Load capacity c
| without_Load_Get c key res c' :
    reachable_without_Load capacity c ->
    Get zero key c = Ok (res, c') -> reachable_without_Load capacity c'
| without_Load_Set c fuel key value c' :
    reachable_without_Load capacity c ->
    Set_ zero debugging fuel key value c = Ok (tt, c') ->
    reachable_without_Load capacity c'.
End Spec.

Arguments OpGet {Key Value Err} key.
Arguments OpSet {Key Value Err} key value.
Arguments OpLoad {Key Value Err} key fetch.

(** *** The scenarios of clock_test.go: [int] keys and values *)

Definition icache : Type := @Cache Z _ _ Z.
Definition iop : Type := @op Z Z unit.

Local Open Scope Z_scope.

Definition fetched (v : Z) : unit -> Z * option unit := fun _ => (v, None).

(** The state after a run, or the empty cache when the run has no result. *)
Definition state_after (debugging : bool) (capacity : Z) (fuel : nat)
    (ops : list iop) : icache :=
  match after 0%Z debugging unit capacity fuel ops with
  | Ok c => c
  | _ => mkCache ∅ None None None None 0%Z 0%Z 0%Z 0%Z 0%Z 0%Z 0%Z []
  end.

(** Every order in which [range] may traverse the index. *)
Definition orders (c : icache) : list (list (Z * nat)) :=
  permutations (map_to_list (index c)).

Definition yield_all : Z -> bool := fun _ => true.

(** The keys of a full iteration of [Keys()], in increasing order. *)
Definition sort_keys (ks : list Z) : list Z := merge_sort Z.le ks.

(** One traversal order yields the keys. *)
Definition yields_in (c : icache) (keys : list Z) (order : list (Z * nat))
    : bool :=
  match Keys c order yield_all with
  | Ok ks => bool_decide (sort_keys ks = keys)
  | _ => false
  end.

(** The keys [Keys()] yields, whatever the traversal order. *)
Definition Keys_yields (c : icache) (keys : list Z) : Prop :=
  Forall (fun order => exists ks,
              Keys c order yield_all = Ok ks /\ sort_keys ks = keys)
    (orders c).

Definition evictionOrder : list iop :=
  [OpSet 1 1; OpSet 2 2; OpSet 3 3; OpGet 1; OpGet 2; OpSet 4 4]%Z.

Definition ghostHit_fill : list iop := [OpSet 1 1; OpSet 2 2; OpSet 3 3]%Z.
Definition ghostHit : list iop := ghostHit_fill ++ [OpSet 1 (-1)]%Z.

(** [Load] of a key whose page is a ghost. *)
Definition loadGhost : list iop := ghostHit_fill ++ [OpLoad 2 (fetched 9)]%Z.
Definition setGhost : list iop := ghostHit_fill ++ [OpSet 2 9]%Z.

(** ... after which the first record of the key is pruned. *)
Definition loadGhost_pruned : list iop :=
  [OpSet 1 1; OpSet 0 0; OpSet 2 2; OpSet 4 4; OpLoad 0 (fetched 9)]%Z.

(** Two calls that fill a cache of capacity two. *)
Definition fillTwo : list iop := [OpSet 1 1; OpSet 2 2]%Z.

(** Calls on a cache of capacity three that end with a demoted page. *)
Definition demoting : list iop :=
  [OpSet 4 4; OpSet 0 0; OpSet 5 5; OpSet 2 2; OpSet 5 5]%Z.

(** *** More fuel

    [refines r r']: [r'] is the result of a run with more fuel than the run
    that gave [r]. *)
Definition refines {A : Type} (r r' : result A) : Prop :=
  r = OutOfFuel \/ r = r'.

(** Calls after which the hot hand of the next miss strands the cold hand. *)
Definition strandedColdHand : list iop :=
  [OpSet 8 8; OpSet 6 6; OpSet 0 0; OpSet 9 9; OpGet 0; OpGet 6; OpSet 4 4;
   OpSet 9 9; OpSet 5 5; OpSet 3 3; OpGet 3; OpGet 6; OpSet 5 5; OpSet 7 7;
   OpGet 5; OpSet 6 6; OpSet 0 0]%Z.

(** The cache after the hot hand has run. *)
Definition hotSwept (c : icache) : icache :=
  match sweepHot 10 c with
  | Ok (_, c') => c'
  | _ => c
  end.

(** *** What a cache holds

    The value a lookup of the key finds: the value of the page the index
    gives for the key, when that page is resident. *)
Definition cached {Key : Type} `{Countable Key} {Value : Type}
    (c : @Cache Key _ _ Value) (key : Key) : option Value :=
  match index c !! key with
  | Some i =>
      match pages c !! i with
      | Some p => if Resident (meta p) then Some (Val p) else None
      | None => None
      end
  | None => None
  end.

(** *** What a call leaves of the page records *)

Section Frames.
Context {Key : Type} `{Countable Key} {Value : Type}.
Local Abbreviation cache := (@Cache Key _ _ Value).
Local Abbreviation heap := (ring.heap Key Value).
Local Abbreviation page := (Ring Key Value).

(** The records of [h'] are those of [h], each changed within [P]. *)
Definition recordsR (P : page -> page -> Prop) (h h' : heap) : Prop :=
  length h' = length h
  /\ forall i x, h !! i = Some x -> exists x', h' !! i = Some x' /\ P x x'.

(** ... and the index has no new entry. *)
Definition framed (P : page -> page -> Prop) (c c' : cache) : Prop :=
  recordsR P (pages c) (pages c')
  /\ forall k i, index c' !! k = Some i -> index c !! k = Some i.

Definition hkeeps (P : page -> page -> Prop) {A} (m : M heap A) : Prop :=
  forall h a h', m h = Ok (a, h') -> recordsR P h h'.

Definition keeps (P : page -> page -> Prop) {A} (m : M cache A) : Prop :=
  forall c a c', m c = Ok (a, c') -> framed P c c'.

(** A change of the links and of the flags the hands use. *)
Definition same_page (x x' : page) : Prop :=
  Name (meta x') = Name (meta x)
  /\ Resident (meta x') = Resident (meta x)
  /\ Val x' = Val x.

(** The same, or the eviction of the page. *)
Definition page_or_ghost (x x' : page) : Prop :=
  Name (meta x') = Name (meta x)
  /\ (Resident (meta x') = true ->
      Resident (meta x) = true /\ Val x' = Val x).

(** The changes the hand sweeps make are within [P]. *)
Class Frame (P : page -> page -> Prop) : Prop := {
  frame_refl : forall x, P x x;
  frame_trans : forall x y z, P x y -> P y z -> P x z;
  frame_next : forall s x, P x (set_next s x);
  frame_prev : forall s x, P x (set_prev s x);
  frame_meta : forall f x,
    Name (f (meta x)) = Name (meta x) ->
    Resident (f (meta x)) = Resident (meta x) ->
    P x (set_meta f x)
}.
End Frames.

(** *** What [Keys] is to yield *)

(** The keys of the index whose page is resident, in the order of a
    traversal of the index. *)
Definition resident_keys {Key : Type} `{Countable Key} {Value : Type}
    (c : @Cache Key _ _ Value) (order : list (Key * nat)) : list Key :=
  (filter (fun e => flagOf Resident (pages c) e.2 = true) order).*1.

(** The keys handed to [yield], up to the first it refuses. *)
Fixpoint yielded {Key : Type} (yield : Key -> bool) (ks : list Key)
    : list Key :=
  match ks with
  | [] => []
  | k :: ks => k :: if yield k then yielded yield ks else []
  end.

(** A call other than [Load]. *)
Definition no_Load {Key Value Err : Type} (o : @op Key Value Err) : bool :=
  match o with
  | OpLoad _ _ => false
  | _ => true
  end.

(** The scenario of [evictionOrder], and a miss on a new key after it. *)
Definition evicted : icache := state_after false 3 8 evictionOrder.
Definition evicted_Set : icache :=
  state_after false 3 8 (evictionOrder ++ [OpSet 5 50])%Z.
Definition evicted_Load : icache :=
  state_after false 3 8 (evictionOrder ++ [OpLoad 7 (fetched 70)])%Z.

(** The cache after the calls [demoting]. *)
Definition demoted : icache := state_after false 3 8 demoting.

(** The cache [New(1 << 62)] returns. *)
Definition huge : icache := state_after false (2 ^ 62) 8 [].


(** * Properties *)

(** ** The constructor *)

(** C9 (as amended).  [New(capacity)] fails exactly when [capacity < 2]; the
    error wraps [ErrInvalidCapacity], and its message is
    "invalid capacity: must be >=2 but N was requested", [N] being the
    requested capacity in decimal. *)
Theorem New_invalid_capacity {Key : Type} `{Countable Key} {Value : Type}
    (capacity : Z) :
  match @New Key _ _ Value capacity with
  | inr e =>
      capacity < 2
      /\ errors_Is e ErrInvalidCapacity = true
      /\ Error e = "invalid capacity: must be >=2 but " +:+ itoa capacity
                     +:+ " was requested"
  | inl c => 2 <= capacity /\ clockpro.capacity c = capacity
  end.
Proof.
  unfold New, MinimumCapacity.
  destruct (Z.ltb_spec capacity 2) as [Hlt | Hge]; simpl.
  - split; [exact Hlt | split; reflexivity].
  - split; [exact Hge | reflexivity].
Qed.

(** C9: the message the claim quotes is not the one [New(1)] returns. *)
Lemma New_message_as_claimed_fails :
  ~ (exists e, @New Z _ _ Z 1 = inr e
       /\ Error e = "invalid capacity: must be ≥ 2 but 1 was requested").
Proof.
  intros (e & Hnew & Hmsg). vm_compute in Hnew.
  injection Hnew as <-. vm_compute in Hmsg. discriminate Hmsg.
Qed.

(** The scenario "invalid capacity" of clock_test.go. *)
Example invalidCapacity :
  map (fun capacity => if @New Z _ _ Z capacity is inl _ then true else false)
    [-1; 0; 1; 2]
  = [false; false; false; true].
Proof. reflexivity. Qed.

(** ** The scenarios of clock_test.go *)

Lemma Keys_yields_check (c : icache) (keys : list Z) :
  forallb (yields_in c keys) (orders c) = true -> Keys_yields c keys.
Proof.
  intros Hall. apply Forall_forall. intros order Hin.
  rewrite forallb_forall in Hall.
  specialize (Hall order (proj1 (list_elem_of_In _ _) Hin)).
  unfold yields_in in Hall.
  destruct (Keys c order yield_all) as [ks | |]; try discriminate Hall.
  exists ks. split; [reflexivity | exact (bool_decide_eq_true_1 _ Hall)].
Qed.

Ltac scenario :=
  repeat apply conj;
  lazymatch goal with
  | |- Keys_yields _ _ => apply Keys_yields_check; vm_compute; reflexivity
  | |- _ ∈ _ => apply list_elem_of_In; vm_compute; tauto
  | |- _ => vm_compute; reflexivity
  end.

(** C8.  Capacity 3; Set(1,1), Set(2,2), Set(3,3), Get(1), Get(2), Set(4,4).
    Before the last call key 3 is the resident cold page under the cold
    hand, not referenced, while 1 and 2 are referenced; the call evicts it,
    and [Keys()] yields exactly 1, 2 and 4. *)
Theorem evictionOrder_resident_keys (debugging : bool) :
  let before := state_after debugging 3 8 (take 5 evictionOrder) in
  let c := state_after debugging 3 8 evictionOrder in
  after 0 debugging unit 3 8 evictionOrder = Ok c
  /\ (cold before = index before !! 3
      /\ residentKey before 3 = true
      /\ map (fun i => (flagOf LIR (pages before) i,
                        flagOf Referenced (pages before) i)) [0; 1; 2]%nat
         = [(true, true); (true, true); (false, false)])
  /\ residentKey c 3 = false
  /\ Len c = 3
  /\ Keys_yields c [1; 2; 4].
Proof. destruct debugging; cbv zeta; scenario. Qed.

(** C3 (as amended).  Capacity 2; Set(1,1), Set(2,2), Set(3,3), Set(1,-1).
    Key 1 is the hot page, so Set(3,3) evicts key 2, the only cold page, to
    a ghost.  Set(1,-1) finds the page of key 1 resident: it stores the
    value and sets Referenced, and nothing else changes.  [Keys()] yields
    exactly 1 and 3, and coldTarget keeps its initial value 1. *)
Theorem ghostHit_is_an_update (debugging : bool) :
  let c0 := state_after debugging 2 8 [] in
  let c3 := state_after debugging 2 8 ghostHit_fill in
  let c4 := state_after debugging 2 8 ghostHit in
  after 0 debugging unit 2 8 ghostHit = Ok c4
  /\ (ghostKey c3 2 = true /\ residentKey c3 1 = true
      /\ residentKey c3 3 = true /\ index c3 !! 1 = Some 0%nat)
  /\ c4 = set_pages
            (alter (fun p => set_Val (-1) (set_meta (with_Referenced true) p))
               0%nat (pages c3)) c3
  /\ Keys_yields c4 [1; 3]
  /\ coldTarget c0 = 1 /\ coldTarget c4 = 1.
Proof. destruct debugging; cbv zeta; scenario. Qed.

(** C3: as the claim states it, key 1 would be a ghost after Set(3,3) and
    coldTarget would end above its initial value. *)
Lemma ghostHit_as_claimed_fails :
  ~ (let c0 := state_after false 2 8 [] in
     let c3 := state_after false 2 8 ghostHit_fill in
     let c4 := state_after false 2 8 ghostHit in
     ghostKey c3 1 = true
     /\ Keys_yields c4 [1; 3]
     /\ coldTarget c0 + 1 <= coldTarget c4).
Proof.
  cbv zeta. intros [Hghost _]. vm_compute in Hghost. discriminate Hghost.
Qed.

(** ** [Load] of a key whose page is a ghost *)

(** C1.  Capacity 2; Set(1,1), Set(2,2), Set(3,3) leave key 2 a ghost that
    is still indexed.  [Set(2,9)] resurrects that record: no record is
    allocated and the page is hot and resident.  [Load(2, fetch)] with a
    successful fetch allocates a second record for key 2 and leaves the
    ghost in the ring as it was. *)
Theorem Load_of_ghost_adds_record (debugging : bool) :
  let c3 := state_after debugging 2 8 ghostHit_fill in
  let cSet := state_after debugging 2 8 setGhost in
  let cLoad := state_after debugging 2 8 loadGhost in
  after 0 debugging unit 2 8 setGhost = Ok cSet
  /\ after 0 debugging unit 2 8 loadGhost = Ok cLoad
  /\ (ghostKey c3 2 = true /\ records_of c3 2 = [1%nat])
  /\ (length (pages cSet) = 3%nat /\ records_of cSet 2 = [1%nat]
      /\ flagOf Resident (pages cSet) 1 = true
      /\ flagOf LIR (pages cSet) 1 = true)
  /\ (length (pages cLoad) = 4%nat /\ records_of cLoad 2 = [3; 1]%nat
      /\ flagOf Resident (pages cLoad) 1 = false
      /\ metaOf (pages cLoad) 1 = metaOf (pages c3) 1).
Proof. destruct debugging; cbv zeta; scenario. Qed.

(** C2.  Capacity 2; Set(1,1), Set(0,0), Set(2,2), Set(4,4), then
    [Load(0, fetch)] on the ghost of key 0.  The call allocates record 4 for
    key 0, indexes it, and then prunes the old ghost of key 0, which deletes
    the index entry of the new record: a resident page linked in the ring
    that the index does not map. *)
Theorem Load_of_ghost_unindexes_resident (debugging : bool) :
  let c := state_after debugging 2 8 loadGhost_pruned in
  after 0 debugging unit 2 8 loadGhost_pruned = Ok c
  /\ 4%nat ∈ ring_pages c
  /\ flagOf Resident (pages c) 4 = true
  /\ Name <$> metaOf (pages c) 4 = Some 0
  /\ index c !! 0 = None.
Proof. destruct debugging; cbv zeta; scenario. Qed.

(** C7.  In the same state [Len()] is 2, but a full iteration of [Keys()]
    yields the single key 1, whatever the order of the traversal. *)
Theorem Keys_after_Load_of_ghost (debugging : bool) :
  let c := state_after debugging 2 8 loadGhost_pruned in
  after 0 debugging unit 2 8 loadGhost_pruned = Ok c
  /\ Len c = 2
  /\ Keys_yields c [1].
Proof. destruct debugging; cbv zeta; scenario. Qed.


(** * The invariants

    The rest of the file shows that every cache a program can hold is
    well formed ([WF]) and satisfies [Inv].  A call may fail to return (a
    hand can be left on a record that is no longer in the ring), so every
    statement about a call is about a run that returned. *)

Local Close Scope Z_scope.

(** ** Arithmetic that does not wrap, and runs that return *)

(** ** Arithmetic that does not wrap *)

Lemma wrap_small (z : Z) : Int.in_range z -> Int.wrap z = z.
Proof.
  unfold Int.in_range, Int.min_int, Int.max_int, Int.wrap. intros Hz.
  rewrite Z.mod_small by lia. lia.
Qed.

(** ** Runs that return *)

Lemma bind_Ok {S A B} (m : M S A) (k : A -> M S B) (s : S) (r : B * S) :
  bind m k s = Ok r -> exists a s1, m s = Ok (a, s1) /\ k a s1 = Ok r.
Proof.
  unfold bind. destruct (m s) as [[a s1] | |]; [eauto | discriminate..].
Qed.

Lemma zoom_Ok {S T A} (proj : S -> T) (inj : T -> S -> S) (m : M T A)
    (s s' : S) (a : A) :
  zoom proj inj m s = Ok (a, s') ->
  exists t, m (proj s) = Ok (a, t) /\ s' = inj t s.
Proof.
  unfold zoom. destruct (m (proj s)) as [[a1 t] | |]; [| discriminate..].
  intros [= -> <-]. eauto.
Qed.

Section Heap.
Context {Key Value : Type}.
Implicit Types (h : heap Key Value) (x : Ring Key Value) (r : ptr).

Lemma load_Ok r h x h' :
  load r h = Ok (x, h') -> exists i, r = Some i /\ h !! i = Some x /\ h' = h.
Proof.
  unfold load. destruct r as [i |]; [| discriminate].
  destruct (h !! i) as [y |] eqn:Hi; [| discriminate].
  intros [= -> <-]. eauto.
Qed.

Lemma store_Ok r f h (u : unit) h' :
  store r f h = Ok (u, h') ->
  exists i x, r = Some i /\ h !! i = Some x /\ h' = alter f i h.
Proof.
  unfold store. destruct r as [i |]; [| discriminate].
  destruct (h !! i) as [y |] eqn:Hi; [| discriminate].
  intros [= <-]. eauto.
Qed.
End Heap.

(** ** Fields of an updated heap *)

Section Fields.
Context {Key : Type} `{Countable Key} {Value : Type}.
Implicit Types (h : heap Key Value) (i j : nat) (s : ptr).

Lemma nextOf_set_next h i j s :
  nextOf (alter (set_next s) i h) j
  = if decide (i = j) then (fun _ => s) <$> nextOf h i else nextOf h j.
Proof.
  unfold nextOf. rewrite list_lookup_alter. case_decide; [| done].
  by destruct (h !! i).
Qed.

Lemma prevOf_set_next h i j s :
  prevOf (alter (set_next s) i h) j = prevOf h j.
Proof.
  unfold prevOf. rewrite list_lookup_alter. case_decide; [subst | done].
  by destruct (h !! j).
Qed.

Lemma metaOf_set_next h i j s :
  metaOf (alter (set_next s) i h) j = metaOf h j.
Proof.
  unfold metaOf. rewrite list_lookup_alter. case_decide; [subst | done].
  by destruct (h !! j).
Qed.

Lemma nextOf_set_prev h i j s :
  nextOf (alter (set_prev s) i h) j = nextOf h j.
Proof.
  unfold nextOf. rewrite list_lookup_alter. case_decide; [subst | done].
  by destruct (h !! j).
Qed.

Lemma prevOf_set_prev h i j s :
  prevOf (alter (set_prev s) i h) j
  = if decide (i = j) then (fun _ => s) <$> prevOf h i else prevOf h j.
Proof.
  unfold prevOf. rewrite list_lookup_alter. case_decide; [| done].
  by destruct (h !! i).
Qed.

Lemma metaOf_set_prev h i j s :
  metaOf (alter (set_prev s) i h) j = metaOf h j.
Proof.
  unfold metaOf. rewrite list_lookup_alter. case_decide; [subst | done].
  by destruct (h !! j).
Qed.

Lemma nextOf_set_meta h i j f :
  nextOf (alter (set_meta f) i h) j = nextOf h j.
Proof.
  unfold nextOf. rewrite list_lookup_alter. case_decide; [subst | done].
  by destruct (h !! j).
Qed.

Lemma prevOf_set_meta h i j f :
  prevOf (alter (set_meta f) i h) j = prevOf h j.
Proof.
  unfold prevOf. rewrite list_lookup_alter. case_decide; [subst | done].
  by destruct (h !! j).
Qed.

Lemma metaOf_set_meta h i j f :
  metaOf (alter (set_meta f) i h) j
  = if decide (i = j) then f <$> metaOf h i else metaOf h j.
Proof.
  unfold metaOf. rewrite list_lookup_alter. case_decide; [| done].
  by destruct (h !! i).
Qed.

Lemma nextOf_set_Val h i j v :
  nextOf (alter (set_Val v) i h) j = nextOf h j.
Proof.
  unfold nextOf. rewrite list_lookup_alter. case_decide; [subst | done].
  by destruct (h !! j).
Qed.

Lemma prevOf_set_Val h i j v :
  prevOf (alter (set_Val v) i h) j = prevOf h j.
Proof.
  unfold prevOf. rewrite list_lookup_alter. case_decide; [subst | done].
  by destruct (h !! j).
Qed.

Lemma metaOf_set_Val h i j v :
  metaOf (alter (set_Val v) i h) j = metaOf h j.
Proof.
  unfold metaOf. rewrite list_lookup_alter. case_decide; [subst | done].
  by destruct (h !! j).
Qed.

Lemma nextOf_lt h i s : nextOf h i = Some s -> (i < length h)%nat.
Proof.
  unfold nextOf. destruct (h !! i) eqn:E; [| done].
  intros _. by eapply lookup_lt_Some.
Qed.

Lemma metaOf_lt h i m : metaOf h i = Some m -> (i < length h)%nat.
Proof.
  unfold metaOf. destruct (h !! i) eqn:E; [| done].
  intros _. by eapply lookup_lt_Some.
Qed.

Lemma metaOf_is_Some h i : (i < length h)%nat -> is_Some (metaOf h i).
Proof.
  intros Hi. apply lookup_lt_is_Some_2 in Hi as [x Hx].
  unfold metaOf. rewrite Hx. eauto.
Qed.

Lemma nextOf_is_Some h i : (i < length h)%nat -> is_Some (nextOf h i).
Proof.
  intros Hi. apply lookup_lt_is_Some_2 in Hi as [x Hx].
  unfold nextOf. rewrite Hx. eauto.
Qed.
End Fields.

Ltac heap_simpl :=
  repeat first
    [ rewrite nextOf_set_next | rewrite prevOf_set_next
    | rewrite metaOf_set_next | rewrite nextOf_set_prev
    | rewrite prevOf_set_prev | rewrite metaOf_set_prev
    | rewrite nextOf_set_meta | rewrite prevOf_set_meta
    | rewrite metaOf_set_meta | rewrite nextOf_set_Val
    | rewrite prevOf_set_Val | rewrite metaOf_set_Val
    | rewrite length_alter ].

Ltac heap_simpl_in H :=
  repeat first
    [ rewrite nextOf_set_next in H | rewrite prevOf_set_next in H
    | rewrite metaOf_set_next in H | rewrite nextOf_set_prev in H
    | rewrite prevOf_set_prev in H | rewrite metaOf_set_prev in H
    | rewrite nextOf_set_meta in H | rewrite prevOf_set_meta in H
    | rewrite metaOf_set_meta in H | rewrite nextOf_set_Val in H
    | rewrite prevOf_set_Val in H | rewrite metaOf_set_Val in H
    | rewrite length_alter in H ].

(** ** The shape of the ring *)

Section RingShape.
Context {Key : Type} `{Countable Key} {Value : Type}.
Implicit Types (h : heap Key Value) (i j x y z : nat) (l t : list nat).

(** Heaps that agree on the links of some pages. *)
Lemma link_ext h h' x y :
  nextOf h' x = nextOf h x -> prevOf h' y = prevOf h y ->
  link h x y -> link h' x y.
Proof. unfold link. intros -> ->. done. Qed.

Lemma seg_ext h h' x t z :
  (forall i, i ∈ x :: t -> nextOf h' i = nextOf h i) ->
  (forall i, i ∈ t ++ [z] -> prevOf h' i = prevOf h i) ->
  seg h x t z -> seg h' x t z.
Proof.
  revert x. induction t as [| y t IH]; intros x Hn Hp; simpl.
  - apply link_ext; [apply Hn | apply Hp]; set_solver.
  - intros [Hl Hs]. split.
    + revert Hl. apply link_ext; [apply Hn | apply Hp]; set_solver.
    + apply IH; [| | done]; intros i Hi; [apply Hn | apply Hp]; set_solver.
Qed.

Lemma seg_snoc h x t y z :
  seg h x (t ++ [y]) z <-> seg h x t y /\ link h y z.
Proof.
  revert x. induction t as [| a t IH]; intros x; simpl; [done |].
  rewrite IH. tauto.
Qed.

Lemma seg_valid h x t z i : seg h x t z -> i ∈ x :: t -> (i < length h)%nat.
Proof.
  revert x. induction t as [| a t IH]; intros x; simpl.
  - intros [Hx _] ->%list_elem_of_singleton. by eapply nextOf_lt.
  - intros [[Hx _] Hs] [-> | Hi]%elem_of_cons; [by eapply nextOf_lt | eauto].
Qed.

Lemma ring_at_valid h l i : ring_at h l -> i ∈ l -> (i < length h)%nat.
Proof.
  intros [_ Hr] Hi. destruct l as [| x t]; [set_solver |].
  destruct Hr as [Hs | [-> Hx]]; [by eapply seg_valid |].
  apply list_elem_of_singleton in Hi as ->. by eapply nextOf_lt.
Qed.

(** The first page of the list can be taken to its end. *)
Lemma ring_at_rotate1 h x t : ring_at h (x :: t) -> ring_at h (t ++ [x]).
Proof.
  intros [Hnd Hr]. split.
  { by rewrite <- Permutation_cons_append. }
  destruct t as [| y t]; [done |]. simpl. left.
  destruct Hr as [[Hl Hs] | [? _]]; [| done].
  apply seg_snoc. done.
Qed.

Lemma ring_at_rotate h l1 l2 : ring_at h (l1 ++ l2) -> ring_at h (l2 ++ l1).
Proof.
  revert l2. induction l1 as [| x l1 IH]; intros l2; simpl.
  - by rewrite app_nil_r.
  - intros Hr%ring_at_rotate1. rewrite <- app_assoc in Hr.
    apply IH in Hr. by rewrite <- app_assoc in Hr.
Qed.

(** Any page of the ring can be taken as its first. *)
Lemma ring_at_focus h l x :
  ring_at h l -> x ∈ l -> exists t, x :: t ≡ₚ l /\ ring_at h (x :: t).
Proof.
  intros Hr (l1 & l2 & ->)%list_elem_of_split.
  exists (l2 ++ l1). split.
  - by rewrite (Permutation_app_comm l1), <- app_comm_cons.
  - apply (ring_at_rotate h l1 (x :: l2)). done.
Qed.

Lemma same_meta_refl h : same_meta h h.
Proof. split; done. Qed.

Lemma same_meta_trans h1 h2 h3 :
  same_meta h1 h2 -> same_meta h2 h3 -> same_meta h1 h3.
Proof. intros [? H12] [? H23]. split; [congruence |]. intros i. by rewrite H23. Qed.

Lemma shape_valid h l i : shape h l -> i ∈ l -> (i < length h)%nat.
Proof.
  intros [(l0 & Hp & Hr) _] Hi. eapply ring_at_valid; [done |].
  by rewrite Hp.
Qed.

Lemma shape_focus h l x :
  shape h l -> x ∈ l -> exists t, x :: t ≡ₚ l /\ ring_at h (x :: t).
Proof.
  intros [(l0 & Hp & Hr) _] Hi. rewrite <- Hp in Hi.
  destruct (ring_at_focus h l0 x Hr Hi) as (t & Ht & Hrt).
  exists t. split; [by rewrite Ht | done].
Qed.

Lemma shape_perm h l l' : l ≡ₚ l' -> shape h l -> shape h l'.
Proof.
  intros Hp [(l0 & Hp0 & Hr) Hout]. split.
  - exists l0. split; [by rewrite Hp0 | done].
  - intros i Hi Hni. apply Hout; [done |]. by rewrite Hp.
Qed.
End RingShape.

(** ** The ring operations on a heap *)

Section RingOps.
Context {Key : Type} `{Countable Key} {Value : Type}.
Implicit Types (h : heap Key Value) (i j x y z n p q r s : nat)
  (l t : list nat).

Lemma nextOf_lookup h x a :
  nextOf h x = Some a -> exists px, h !! x = Some px /\ next px = a.
Proof.
  unfold nextOf. destruct (h !! x) as [px |]; [| done].
  intros [= <-]. eauto.
Qed.

Lemma prevOf_lookup h x a :
  prevOf h x = Some a -> exists px, h !! x = Some px /\ prev px = a.
Proof.
  unfold prevOf. destruct (h !! x) as [px |]; [| done].
  intros [= <-]. eauto.
Qed.

Lemma Next_eq h x y :
  nextOf h x = Some (Some y) -> Next (Some x) h = Ok (Some y, h).
Proof.
  intros (px & Hx & Hn)%nextOf_lookup.
  unfold Next, bind, load, ret. simpl. rewrite Hx, Hn. done.
Qed.

Lemma Next_init h x :
  nextOf h x = Some None -> Next (Some x) h = Ok (Some x, init_heap x h).
Proof.
  intros (px & Hx & Hn)%nextOf_lookup.
  unfold Next, bind, load, init, bind, store, ret. simpl. rewrite Hx, Hn.
  rewrite Hx, list_lookup_alter_eq, Hx. done.
Qed.

Lemma Prev_eq h x y a :
  nextOf h x = Some (Some y) -> prevOf h x = Some a ->
  Prev (Some x) h = Ok (a, h).
Proof.
  intros (px & Hx & Hn)%nextOf_lookup (px' & Hx' & Hp)%prevOf_lookup.
  unfold Prev, bind, load, ret. simpl. rewrite Hx, Hn. congruence.
Qed.

Lemma Prev_init h x :
  nextOf h x = Some None -> Prev (Some x) h = Ok (Some x, init_heap x h).
Proof.
  intros (px & Hx & Hn)%nextOf_lookup.
  unfold Prev, bind, load, init, bind, store, ret. simpl. rewrite Hx, Hn.
  rewrite Hx, list_lookup_alter_eq, Hx. done.
Qed.

Lemma store_eq h x f :
  (x < length h)%nat ->
  store (Some x) f h = Ok (tt, alter f x h).
Proof.
  intros [px Hx]%lookup_lt_is_Some_2. unfold store. by rewrite Hx.
Qed.

Lemma Link_eq h r s n p w :
  nextOf h r = Some (Some n) ->
  nextOf h s = Some (Some w) ->
  prevOf h s = Some (Some p) ->
  (n < length h)%nat -> (p < length h)%nat ->
  Link (Some r) (Some s) h = Ok (Some n, link4 h r s n p).
Proof.
  intros Hr Hs Hps Hn Hp.
  pose proof (nextOf_lt _ _ _ Hr) as Hrl.
  pose proof (nextOf_lt _ _ _ Hs) as Hsl.
  unfold Link, bind. rewrite (Next_eq _ _ _ Hr).
  rewrite (Prev_eq _ _ _ _ Hs Hps).
  rewrite store_eq by done.
  rewrite store_eq by (by rewrite length_alter).
  rewrite store_eq by (by rewrite !length_alter).
  rewrite store_eq by (by rewrite !length_alter).
  done.
Qed.

Lemma Move_2 h q x n :
  nextOf h q = Some (Some x) ->
  nextOf h x = Some (Some n) ->
  Move (Some q) 2 h = Ok (Some n, h).
Proof.
  intros (pq & Hq1 & Hq2)%nextOf_lookup (px & Hx1 & Hx2)%nextOf_lookup.
  unfold Move, bind, load. simpl. rewrite Hq1, Hq2. simpl.
  unfold bind, load. simpl. rewrite Hq1, Hq2. simpl. rewrite Hx1, Hx2. done.
Qed.

Lemma Unlink_eq h q x n w :
  nextOf h q = Some (Some x) ->
  nextOf h x = Some (Some n) ->
  nextOf h n = Some (Some w) ->
  prevOf h n = Some (Some x) ->
  Unlink (Some q) 1 h = Ok (Some x, link4 h q n x x).
Proof.
  intros Hq Hx Hn Hpn.
  unfold Unlink. change (Int.add 1 1) with 2%Z. simpl. unfold bind.
  rewrite (Move_2 _ _ _ _ Hq Hx).
  apply (Link_eq h q n x x w); try done.
  all: by eapply nextOf_lt.
Qed.

(** Links after [init]. *)
Lemma init_heap_spec h x :
  nextOf h x = Some None ->
  link (init_heap x h) x x
  /\ same_meta h (init_heap x h)
  /\ (forall i, i <> x -> nextOf (init_heap x h) i = nextOf h i
                          /\ prevOf (init_heap x h) i = prevOf h i).
Proof.
  intros Hx. unfold init_heap, link, same_meta. heap_simpl.
  rewrite !decide_True by done. rewrite Hx. simpl.
  assert (is_Some (prevOf h x)) as [a ->].
  { destruct (nextOf_lookup _ _ _ Hx) as (px & Hpx & _).
    unfold prevOf. rewrite Hpx. eauto. }
  split; [done |]. split.
  - split; [done |]. intros i. by heap_simpl.
  - intros i Hi. heap_simpl. by rewrite !decide_False by done.
Qed.

(** [Next] keeps the shape of the heap and stays inside the ring. *)
Lemma Next_shape h l x rr h' :
  shape h l -> Next (Some x) h = Ok (rr, h') ->
  exists y, rr = Some y /\ shape h' l /\ same_meta h h'
    /\ (x ∈ l -> y ∈ l /\ (y = x -> l = [x]))
    /\ (x ∉ l -> y = x).
Proof.
  intros Hsh Hrun.
  assert (is_Some (nextOf h x)) as [a Ha].
  { unfold Next, bind in Hrun.
    destruct (load (Some x) h) as [[px h1] | |] eqn:E; [| done..].
    apply load_Ok in E as (i & [= <-] & Hx & ->).
    unfold nextOf. rewrite Hx. eauto. }
  pose proof (nextOf_lt _ _ _ Ha) as Hxl.
  destruct (decide (x ∈ l)) as [Hin | Hout].
  - destruct (shape_focus _ _ _ Hsh Hin) as (t & Hperm & [Hnd Hr]).
    destruct Hr as [Hseg | [-> Hun]].
    + destruct t as [| y t]; simpl in Hseg.
      * destruct Hseg as [Hn Hp]. rewrite (Next_eq _ _ _ Hn) in Hrun.
        injection Hrun as <- <-. exists x.
        split; [done |]. split; [done |]. split; [apply same_meta_refl |].
        split; [| done]. intros _. split; [done |]. intros _.
        by apply Permutation_singleton_l in Hperm.
      * destruct Hseg as [[Hn Hp] Hseg].
        rewrite (Next_eq _ _ _ Hn) in Hrun. injection Hrun as <- <-.
        exists y. split; [done |]. split; [done |].
        split; [apply same_meta_refl |]. split; [| done]. intros _.
        split; [rewrite <- Hperm; set_solver |].
        intros ->. apply NoDup_cons in Hnd as [Hnd _]. set_solver.
    + rewrite (Next_init _ _ Hun) in Hrun. injection Hrun as <- <-.
      destruct (init_heap_spec _ _ Hun) as (Hl & Hsm & Hoth).
      apply Permutation_singleton_l in Hperm as <-.
      exists x. split; [done |]. split.
      { split.
        - exists [x]. split; [done |]. split; [done |]. by left.
        - intros i Hi Hni. destruct Hsh as [_ Hout].
          rewrite (proj1 Hsm) in Hi. specialize (Hout i Hi Hni).
          assert (i <> x) as Hne by set_solver.
          destruct (Hoth i Hne) as [Hn' Hp'].
          eapply link_ext; [| | exact Hout]; done. }
      split; [done |]. split; [| done]. intros _. done.
  - destruct Hsh as [Hring Hout0]. pose proof (Hout0 x Hxl Hout) as [Hn Hp].
    rewrite (Next_eq _ _ _ Hn) in Hrun. injection Hrun as <- <-.
    exists x. split; [done |]. split; [done |].
    split; [apply same_meta_refl |]. split; [done |]. done.
Qed.
End RingOps.

(** ** Taking a record out of the ring and putting one in *)

Section RingOps2.
Context {Key : Type} `{Countable Key} {Value : Type}.
Implicit Types (h : heap Key Value) (i j x y z n p q r s : nat)
  (l t : list nat).

Lemma seg_first h x t z : seg h x t z -> exists y, nextOf h x = Some (Some y).
Proof. destruct t; simpl; [intros [? _] | intros [[? _] _]]; eauto. Qed.

Lemma seg_last h x t z :
  seg h x t z -> exists q, prevOf h z = Some (Some q) /\ q ∈ x :: t.
Proof.
  revert x. induction t as [| y t IH]; intros x; simpl.
  - intros [_ ?]. exists x. split; [done | set_solver].
  - intros [_ (q & Hq & Hin)%IH]. exists q. split; [done | set_solver].
Qed.

Lemma seg_last_ne h x t z :
  seg h x t z -> t <> [] -> exists q, prevOf h z = Some (Some q) /\ q ∈ t.
Proof.
  destruct t as [| y t]; [done |]. simpl. intros [_ Hs] _.
  by apply seg_last in Hs.
Qed.

Lemma Prev_shape h l x rr h' :
  shape h l -> Prev (Some x) h = Ok (rr, h') ->
  exists q, rr = Some q /\ shape h' l /\ same_meta h h'
    /\ (x ∈ l -> q ∈ l /\ (q = x -> l = [x]))
    /\ (x ∉ l -> q = x).
Proof.
  intros Hsh Hrun.
  assert (is_Some (nextOf h x)) as [a Ha].
  { unfold Prev, bind in Hrun.
    destruct (load (Some x) h) as [[px h1] | |] eqn:E; [| done..].
    apply load_Ok in E as (i & [= <-] & Hx & ->).
    unfold nextOf. rewrite Hx. eauto. }
  pose proof (nextOf_lt _ _ _ Ha) as Hxl.
  destruct (decide (x ∈ l)) as [Hin | Hout].
  - destruct (shape_focus _ _ _ Hsh Hin) as (t & Hperm & [Hnd Hr]).
    destruct Hr as [Hseg | [-> Hun]].
    + destruct (seg_first _ _ _ _ Hseg) as [y Hy].
      destruct (seg_last _ _ _ _ Hseg) as (q & Hq & Hqin).
      rewrite (Prev_eq _ _ _ _ Hy Hq) in Hrun. injection Hrun as <- <-.
      exists q. split; [done |]. split; [done |].
      split; [apply same_meta_refl |]. split; [| done]. intros _.
      split; [by rewrite <- Hperm |].
      intros ->. destruct t as [| y' t].
      { by apply Permutation_singleton_l in Hperm. }
      exfalso. destruct (seg_last_ne _ _ _ _ Hseg) as (q' & Hq' & Hq'in);
        [done |].
      assert (q' = x) as -> by congruence.
      apply NoDup_cons in Hnd as [Hnd _]. done.
    + rewrite (Prev_init _ _ Hun) in Hrun. injection Hrun as <- <-.
      destruct (init_heap_spec _ _ Hun) as (Hl & Hsm & Hoth).
      apply Permutation_singleton_l in Hperm as <-.
      exists x. split; [done |]. split.
      { split.
        - exists [x]. split; [done |]. split; [done |]. by left.
        - intros i Hi Hni. destruct Hsh as [_ Hout].
          rewrite (proj1 Hsm) in Hi. specialize (Hout i Hi Hni).
          assert (i <> x) as Hne by set_solver.
          destruct (Hoth i Hne) as [Hn' Hp'].
          eapply link_ext; [| | exact Hout]; done. }
      split; [done |]. split; [| done]. intros _. done.
  - destruct Hsh as [Hring Hout0]. pose proof (Hout0 x Hxl Hout) as [Hn Hp].
    rewrite (Prev_eq _ _ _ _ Hn Hp) in Hrun. injection Hrun as <- <-.
    exists x. split; [done |]. split; [done |].
    split; [apply same_meta_refl |]. split; [done |]. done.
Qed.

Lemma same_meta_link4 h r s n p : same_meta h (link4 h r s n p).
Proof. unfold link4. split; [by heap_simpl |]. intros i. by heap_simpl. Qed.

Ltac use_links :=
  repeat match goal with
    | H : nextOf ?h ?x = Some _ |- context [nextOf ?h ?x] => rewrite H
    | H : prevOf ?h ?x = Some _ |- context [prevOf ?h ?x] => rewrite H
    end.

Ltac solve_links :=
  unfold link4; simpl; unfold link; heap_simpl;
  repeat case_decide; subst; try done; use_links; try done.

(** Taking [x] out of the ring [x :: t]. *)
Lemma unlink_ring h x t :
  NoDup (x :: t) -> seg h x t x -> t <> [] ->
  exists n q w,
    nextOf h x = Some (Some n) /\ prevOf h x = Some (Some q)
    /\ nextOf h n = Some (Some w) /\ prevOf h n = Some (Some x)
    /\ nextOf h q = Some (Some x)
    /\ ring_at (link4 h q n x x) t
    /\ link (link4 h q n x x) x x
    /\ (forall i, i ∉ x :: t ->
           nextOf (link4 h q n x x) i = nextOf h i
           /\ prevOf (link4 h q n x x) i = prevOf h i).
Proof.
  intros Hnd Hseg Hne.
  pose proof Hnd as [Hxt Hndt]%NoDup_cons.
  destruct t as [| n t]; [done |]. clear Hne.
  destruct Hseg as [[Hxn Hnp] Hs].
  destruct t as [| q0 u0 _] using rev_ind.
  - (* the ring is x, n *)
    destruct Hs as [Hnx Hxp].
    assert (n <> x) as Hne by set_solver.
    exists n, n, x. repeat (split; [done |]).
    split; [| split].
    + split; [done |]. left. solve_links.
    + solve_links.
    + intros i Hi. assert (i <> x /\ i <> n) as [? ?] by set_solver.
      solve_links.
  - (* the ring is x, n, u0, q0 *)
    apply seg_snoc in Hs as [Hs [Hqx Hxp]].
    assert (n <> x /\ q0 <> x /\ q0 <> n) as (Hnx & Hqx' & Hqn).
    { apply NoDup_cons in Hndt as [Hn' _]. set_solver. }
    destruct (seg_first _ _ _ _ Hs) as [w Hw].
    exists n, q0, w. repeat (split; [done |]).
    apply NoDup_cons in Hndt as [Hn' Hnd'].
    pose proof Hnd' as (_ & Hdis & _)%NoDup_app.
    split; [| split].
    + split; [by apply NoDup_cons |]. left. simpl. apply seg_snoc. split.
      * eapply seg_ext; [| | exact Hs].
        -- intros i Hi.
           assert (i <> x /\ i <> q0) as [? ?].
           { split; intros ->; [set_solver |].
             apply elem_of_cons in Hi as [-> | Hi]; [done |].
             apply (Hdis _ Hi). set_solver. }
           solve_links.
        -- intros i Hi.
           assert (i <> x /\ i <> n) as [? ?].
           { split; intros ->; set_solver. }
           solve_links.
      * solve_links.
    + solve_links.
    + intros i Hi. assert (i <> x /\ i <> n /\ i <> q0) as (? & ? & ?).
      { set_solver. }
      solve_links.
Qed.

Lemma unlink_shape h l x rq h1 rr h2 :
  shape h l -> x ∈ l -> (exists y, y ∈ l /\ y <> x) ->
  Prev (Some x) h = Ok (rq, h1) -> Unlink rq 1 h1 = Ok (rr, h2) ->
  rr = Some x
  /\ exists l', l ≡ₚ x :: l' /\ shape h2 l' /\ same_meta h h2.
Proof.
  intros Hsh Hin (y & Hy & Hyx) Hprev Hunlink.
  destruct (shape_focus _ _ _ Hsh Hin) as (t & Hperm & [Hnd Hr]).
  assert (t <> []) as Hne.
  { intros ->. apply Permutation_singleton_l in Hperm as <-. set_solver. }
  destruct Hr as [Hseg | [-> _]]; [| done].
  destruct (unlink_ring _ _ _ Hnd Hseg Hne)
    as (n & q & w & Hxn & Hxp & Hnw & Hnp & Hqx & Hring & Hself & Hframe).
  rewrite (Prev_eq _ _ _ _ Hxn Hxp) in Hprev. injection Hprev as <- <-.
  rewrite (Unlink_eq _ _ _ _ _ Hqx Hxn Hnw Hnp) in Hunlink.
  injection Hunlink as <- <-. split; [done |].
  exists t. split; [done |]. split; [| apply same_meta_link4].
  split; [by exists t |].
  intros i Hi Hit. destruct (decide (i = x)) as [-> | Hix]; [done |].
  destruct (same_meta_link4 h q n x x) as [Hlen _]. rewrite Hlen in Hi.
  assert (i ∉ x :: t) as Hixt by set_solver.
  destruct (Hframe i Hixt) as [Hn' Hp'].
  eapply link_ext; [done | done |].
  apply Hsh; [done |]. rewrite <- Hperm. done.
Qed.

(** Putting the lone page [s] after [r] in the ring [r :: t]. *)
Lemma insert_ring h r t s :
  NoDup (r :: t) -> seg h r t r -> s ∉ r :: t -> link h s s ->
  exists n,
    nextOf h r = Some (Some n)
    /\ ring_at (link4 h r s n s) (r :: s :: t)
    /\ (forall i, i ∉ s :: r :: t ->
           nextOf (link4 h r s n s) i = nextOf h i
           /\ prevOf (link4 h r s n s) i = prevOf h i).
Proof.
  intros Hnd Hseg Hs [Hsn Hsp].
  pose proof Hnd as [Hrt Hndt]%NoDup_cons.
  assert (s <> r) as Hsr by set_solver.
  destruct t as [| n t].
  - destruct Hseg as [Hrn Hrp]. exists r. split; [done |]. split.
    + split; [apply NoDup_cons; split; [set_solver | by apply NoDup_singleton] |].
      left. simpl. split; solve_links.
    + intros i Hi. assert (i <> s /\ i <> r) as [? ?] by set_solver.
      solve_links.
  - destruct Hseg as [[Hrn Hnp] Hseg]. exists n. split; [done |].
    assert (n <> r /\ n <> s) as [Hnr Hns] by set_solver.
    pose proof Hndt as [Hnt _]%NoDup_cons.
    split.
    + split.
      { apply NoDup_cons. split; [set_solver |].
        apply NoDup_cons. split; [set_solver | done]. }
      left. simpl. split; [solve_links |]. split; [solve_links |].
      eapply seg_ext; [| | exact Hseg].
      * intros i Hi. assert (i <> r /\ i <> s) as [? ?].
        { split; intros ->; set_solver. }
        solve_links.
      * intros i Hi. assert (i <> n /\ i <> s) as [? ?].
        { split; intros ->; set_solver. }
        solve_links.
    + intros i Hi. assert (i <> s /\ i <> r /\ i <> n) as (? & ? & ?).
      { set_solver. }
      solve_links.
Qed.

Lemma Link_init_r h r (sp : ptr) :
  nextOf h r = Some None ->
  Link (Some r) sp h = Link (Some r) sp (init_heap r h).
Proof.
  intros Hr. destruct (init_heap_spec _ _ Hr) as ([Hn _] & _ & _).
  unfold Link, bind. by rewrite (Next_init _ _ Hr), (Next_eq _ _ _ Hn).
Qed.

Lemma Link_init_s h r s n :
  nextOf h r = Some (Some n) -> nextOf h s = Some None ->
  Link (Some r) (Some s) h = Link (Some r) (Some s) (init_heap s h).
Proof.
  intros Hr Hs. destruct (init_heap_spec _ _ Hs) as ([Hn Hp] & _ & Hoth).
  assert (r <> s) as Hrs by (intros ->; congruence).
  assert (nextOf (init_heap s h) r = Some (Some n)) as Hr'.
  { by rewrite (proj1 (Hoth r Hrs)). }
  unfold Link, bind. rewrite (Next_eq _ _ _ Hr), (Next_eq _ _ _ Hr').
  by rewrite (Prev_init _ _ Hs), (Prev_eq _ _ _ _ Hn Hp).
Qed.

(** [Link] puts a lone or fresh record [s] into the ring. *)
Lemma Link_shape h l r s rn h' :
  (exists l0, l0 ≡ₚ l /\ ring_at h l0) ->
  (forall i, (i < length h)%nat -> i ∉ l -> i <> s -> link h i i) ->
  r ∈ l -> s ∉ l -> link h s s \/ nextOf h s = Some None ->
  Link (Some r) (Some s) h = Ok (rn, h') ->
  shape h' (s :: l) /\ same_meta h h'.
Proof.
  intros (l0 & Hperm & Hring) Hout Hr Hs Hlone Hrun.
  rewrite <- Hperm in Hr.
  destruct (ring_at_focus _ _ _ Hring Hr) as (t & Hpt & [Hnd Hrt]).
  rewrite Hperm in Hpt.
  assert (s ∉ r :: t) as Hst by (by rewrite Hpt).
  assert (s <> r) as Hsr by set_solver.
  (* the ring after [r.Next()] *)
  assert (exists h1, seg h1 r t r /\ same_meta h h1
            /\ (forall i, i <> r -> nextOf h1 i = nextOf h i
                                    /\ prevOf h1 i = prevOf h i)
            /\ Link (Some r) (Some s) h1 = Ok (rn, h'))
    as (h1 & Hseg1 & Hsm1 & Hoth1 & Hrun1).
  { destruct Hrt as [Hseg | [-> Hun]].
    - exists h. split; [done |]. split; [apply same_meta_refl |]. done.
    - destruct (init_heap_spec _ _ Hun) as (Hl & Hsm & Hoth).
      exists (init_heap r h). split; [done |]. split; [done |].
      split; [done |]. by rewrite <- Link_init_r. }
  destruct (seg_first _ _ _ _ Hseg1) as [n1 Hn1].
  (* ... and after [s.Prev()] *)
  assert (exists h2, seg h2 r t r /\ link h2 s s /\ same_meta h h2
            /\ (forall i, i <> r -> i <> s -> nextOf h2 i = nextOf h i
                                    /\ prevOf h2 i = prevOf h i)
            /\ Link (Some r) (Some s) h2 = Ok (rn, h'))
    as (h2 & Hseg2 & Hself2 & Hsm2 & Hoth2 & Hrun2).
  { destruct Hlone as [Hself | Hun].
    - exists h1. split; [done |]. split.
      { destruct (Hoth1 s Hsr) as [Hn Hp]. eapply link_ext; done. }
      split; [done |]. split; [| done]. intros i Hi _. by apply Hoth1.
    - assert (nextOf h1 s = Some None) as Hun1.
      { by rewrite (proj1 (Hoth1 s Hsr)). }
      destruct (init_heap_spec _ _ Hun1) as (Hl & Hsm & Hoth).
      exists (init_heap s h1). split.
      { eapply seg_ext; [| | exact Hseg1]; intros i Hi;
          apply Hoth; intros ->; apply Hst; [done |].
        apply elem_of_app in Hi as [Hi | Hi%list_elem_of_singleton];
          set_solver. }
      split; [done |]. split; [by eapply same_meta_trans |].
      split; [| by rewrite <- (Link_init_s _ _ _ _ Hn1 Hun1)].
      intros i Hir His. destruct (Hoth i His) as [-> ->]. by apply Hoth1. }
  destruct (insert_ring _ _ _ _ Hnd Hseg2 Hst Hself2)
    as (n & Hn & Hring' & Hframe).
  destruct Hself2 as [Hsn Hsp].
  rewrite (Link_eq _ _ _ _ _ _ Hn Hsn Hsp) in Hrun2.
  2: { destruct (seg_valid _ _ _ _ n Hseg2) as []; [| lia..].
       destruct t as [| y t']; simpl in Hseg2.
       - destruct Hseg2 as [Hn' _]. assert (n = r) as -> by congruence.
         set_solver.
       - destruct Hseg2 as [[Hn' _] _]. assert (n = y) as -> by congruence.
         set_solver. }
  2: { by eapply nextOf_lt. }
  injection Hrun2 as <- <-.
  pose proof (same_meta_link4 h2 r s n s) as Hsm4.
  split; [| by eapply same_meta_trans].
  split.
  - exists (r :: s :: t). split; [| done].
    rewrite <- Hpt. apply perm_swap.
  - intros i Hi Hni.
    destruct Hsm4 as [Hlen4 _]. destruct Hsm2 as [Hlen2 _].
    rewrite Hlen4, Hlen2 in Hi.
    assert (i <> s /\ i ∉ l) as [His Hil] by set_solver.
    assert (i <> r) as Hir by (intros ->; apply Hil; by rewrite <- Hpt; left).
    assert (i ∉ s :: r :: t) as Hni'.
    { rewrite Hpt. set_solver. }
    destruct (Hframe i Hni') as [Hn' Hp'].
    destruct (Hoth2 i Hir His) as [Hn2 Hp2].
    eapply link_ext; [| | apply (Hout i Hi Hil His)]; congruence.
Qed.
End RingOps2.

(** ** Counting pages, and what a well-formed cache gives *)

Section Counting.
Context {Key : Type} `{Countable Key} {Value : Type}.
Implicit Types (h : heap Key Value) (i j x y : nat) (l : list nat)
  (f : Metadata Key -> bool) (m : Metadata Key).
Local Open Scope Z_scope.

Lemma flagOf_Some f h i m : metaOf h i = Some m -> flagOf f h i = f m.
Proof. unfold flagOf. by intros ->. Qed.

Lemma flagOf_true f h i :
  flagOf f h i = true -> exists m, metaOf h i = Some m /\ f m = true.
Proof. unfold flagOf. destruct (metaOf h i) as [m |]; [eauto | done]. Qed.

Lemma flagOf_same_meta f h h' i :
  same_meta h h' -> flagOf f h' i = flagOf f h i.
Proof. intros [_ Hm]. unfold flagOf. by rewrite Hm. Qed.

Lemma count_cons f h x l :
  count f h (x :: l) = (if flagOf f h x then 1 else 0) + count f h l.
Proof. done. Qed.

Lemma count_ext f h h' l :
  (forall i, i ∈ l -> metaOf h' i = metaOf h i) ->
  count f h' l = count f h l.
Proof.
  induction l as [| x l IH]; intros Hm; [done |].
  rewrite !count_cons. unfold flagOf.
  rewrite Hm by set_solver. rewrite IH; [done |].
  intros i Hi. apply Hm. set_solver.
Qed.

Lemma count_same_meta f h h' l : same_meta h h' -> count f h' l = count f h l.
Proof. intros [_ Hm]. apply count_ext. auto. Qed.

Lemma count_perm f h l l' : l ≡ₚ l' -> count f h l = count f h l'.
Proof.
  induction 1 as [| x l l' _ IH | x y l | l1 l2 l3 _ IH1 _ IH2];
    rewrite ?count_cons; lia.
Qed.

Lemma count_bounds f h l : 0 <= count f h l <= Z.of_nat (length l).
Proof.
  induction l as [| x l IH]; [done |]. rewrite count_cons. simpl length.
  destruct (flagOf f h x); lia.
Qed.

Lemma count_pos f h l x : x ∈ l -> flagOf f h x = true -> 1 <= count f h l.
Proof.
  intros [l' Hp]%elem_of_Permutation Hx. rewrite (count_perm _ _ _ _ Hp).
  rewrite count_cons, Hx. pose proof (count_bounds f h l'). lia.
Qed.

Lemma flags_cases m :
  flags_ok m = true ->
  (if isHot m then 1 else 0) + (if isCold m then 1 else 0)
    + (if isTest m then 1 else 0) = 1
  /\ (if Demoted m then 1 else 0) <= (if isCold m then 1 else 0).
Proof.
  unfold flags_ok, isHot, isCold, isTest.
  destruct m as [k [] [] [] [] s]; simpl; intros; try done; lia.
Qed.

Lemma count_sum h l :
  (forall i, i ∈ l -> flagOf flags_ok h i = true) ->
  count isHot h l + count isCold h l + count isTest h l
    = Z.of_nat (length l)
  /\ count Demoted h l <= count isCold h l.
Proof.
  induction l as [| x l IH]; intros Hok; [done |].
  rewrite !count_cons. simpl length.
  destruct IH as [IH1 IH2]; [intros i Hi; apply Hok; set_solver |].
  destruct (flagOf_true _ _ _ (Hok x ltac:(set_solver))) as (m & Hm & Hf).
  rewrite !(flagOf_Some _ _ _ _ Hm).
  destruct (flags_cases m Hf). lia.
Qed.

(** The count after the flags of one page of the ring have changed. *)
Lemma count_update f h h' l x m m' :
  NoDup l -> x ∈ l ->
  metaOf h x = Some m -> metaOf h' x = Some m' ->
  (forall i, i <> x -> metaOf h' i = metaOf h i) ->
  count f h' l
  = count f h l - (if f m then 1 else 0) + (if f m' then 1 else 0).
Proof.
  intros Hnd [l' Hp]%elem_of_Permutation Hm Hm' Hoth.
  rewrite Hp in Hnd. apply NoDup_cons in Hnd as [Hx _].
  rewrite !(count_perm _ _ _ _ Hp), !count_cons.
  rewrite (flagOf_Some _ _ _ _ Hm), (flagOf_Some _ _ _ _ Hm').
  rewrite (count_ext f h h' l'); [lia |].
  intros i Hi. apply Hoth. intros ->. done.
Qed.

Lemma shape_NoDup h l : shape h l -> NoDup l.
Proof. intros [(l0 & Hp & [Hnd _]) _]. by rewrite <- Hp. Qed.
End Counting.

Section WFfacts.
Context {Key : Type} `{Countable Key} {Value : Type}.
Local Abbreviation cache := (@Cache Key _ _ Value).
Implicit Types (c : cache) (i j x y : nat) (l : list nat).
Local Open Scope Z_scope.

Lemma WF_NoDup l c : WF l c -> NoDup l.
Proof. intros HWF. eapply shape_NoDup, wf_shape. done. Qed.

Lemma WF_valid l c i : WF l c -> i ∈ l -> (i < length (pages c))%nat.
Proof. intros HWF. eapply shape_valid, wf_shape. done. Qed.

Lemma WF_bounds l c :
  WF l c ->
  0 <= hotCount c /\ 0 <= coldCount c /\ 0 <= testCount c
  /\ 0 <= demotions c
  /\ hotCount c + coldCount c + testCount c = Z.of_nat (length l)
  /\ demotions c <= coldCount c.
Proof.
  intros HWF. destruct (count_sum (pages c) l (wf_in _ _ HWF)) as [Hs Hd].
  rewrite (wf_hotCount _ _ HWF), (wf_coldCount _ _ HWF),
    (wf_testCount _ _ HWF), (wf_demotions _ _ HWF).
  pose proof (count_bounds isHot (pages c) l).
  pose proof (count_bounds isCold (pages c) l).
  pose proof (count_bounds isTest (pages c) l).
  pose proof (count_bounds Demoted (pages c) l).
  lia.
Qed.

(** A record with one of these flags set is in the ring. *)
Lemma WF_not_idle l c i m :
  WF l c -> metaOf (pages c) i = Some m -> idle m = false -> i ∈ l.
Proof.
  intros HWF Hm Hidle. destruct (decide (i ∈ l)) as [| Hout]; [done |].
  pose proof (wf_out _ _ HWF i (metaOf_lt _ _ _ Hm) Hout) as Hi.
  rewrite (flagOf_Some _ _ _ _ Hm) in Hi. congruence.
Qed.

Lemma WF_Resident_in l c i :
  WF l c -> flagOf Resident (pages c) i = true -> i ∈ l.
Proof.
  intros HWF (m & Hm & Hf)%flagOf_true. eapply WF_not_idle; [done.. |].
  unfold idle. rewrite Hf. by destruct (LIR m).
Qed.

Lemma WF_LIR_in l c i :
  WF l c -> flagOf LIR (pages c) i = true -> i ∈ l.
Proof.
  intros HWF (m & Hm & Hf)%flagOf_true. eapply WF_not_idle; [done.. |].
  unfold idle. by rewrite Hf.
Qed.

Lemma WF_Referenced_in l c i :
  WF l c -> flagOf Referenced (pages c) i = true -> i ∈ l.
Proof.
  intros HWF (m & Hm & Hf)%flagOf_true. eapply WF_not_idle; [done.. |].
  unfold idle. rewrite Hf. by destruct (LIR m), (Resident m).
Qed.

Lemma WF_meta l c i :
  WF l c -> i ∈ l ->
  exists m, metaOf (pages c) i = Some m /\ flags_ok m = true.
Proof. intros HWF Hi. apply flagOf_true. by apply (wf_in _ _ HWF). Qed.

Lemma WF_perm l l' c : l ≡ₚ l' -> WF l c -> WF l' c.
Proof.
  intros Hp [Hsh Hout Hin Hh Hc Ht Hd Hlen Hcap Hct Hht Hres Hidx Hlru Htest].
  constructor; try done.
  - by eapply shape_perm.
  - intros i Hi Hni. apply Hout; [done |]. by rewrite Hp.
  - intros i Hi. apply Hin. by rewrite Hp.
  - by rewrite <- (count_perm _ _ _ _ Hp).
  - by rewrite <- (count_perm _ _ _ _ Hp).
  - by rewrite <- (count_perm _ _ _ _ Hp).
  - by rewrite <- (count_perm _ _ _ _ Hp).
  - by rewrite <- Hp.
  - intros k i Hk. destruct (Hidx k i Hk). split; [by rewrite <- Hp | done].
  - destruct (lru c); [by rewrite <- Hp |]. subst. by apply Permutation_nil_l in Hp.
  - destruct (test c); [by rewrite <- Hp | done].
Qed.
End WFfacts.

(** ** Symbolic execution of a run that returned *)

Section Steps.
Context {Key : Type} `{Countable Key} {Value : Type}.
Local Abbreviation cache := (@Cache Key _ _ Value).
Implicit Types (c : cache) (i j x y : nat) (l : list nat) (r : ptr).

Lemma onPages_Ok {A} (m : M (heap Key Value) A) c (a : A) c' :
  onPages m c = Ok (a, c') ->
  exists h', m (pages c) = Ok (a, h') /\ c' = set_pages h' c.
Proof. apply zoom_Ok. Qed.

Lemma read_Ok x c (p : Ring Key Value) c' :
  read (Some x) c = Ok (p, c') ->
  metaOf (pages c) x = Some (meta p) /\ c' = c.
Proof.
  intros (h' & (i & [= <-] & Hp & ->)%load_Ok & ->)%onPages_Ok.
  split; [by unfold metaOf; rewrite Hp |]. by destruct c.
Qed.

Lemma setMeta_Ok x f c (u : unit) c' :
  setMeta (Some x) f c = Ok (u, c') ->
  exists m, metaOf (pages c) x = Some m
    /\ c' = set_pages (alter (set_meta f) x (pages c)) c.
Proof.
  intros (h' & (i & p & [= <-] & Hp & ->)%store_Ok & ->)%onPages_Ok.
  exists (meta p). split; [| done].
  by unfold metaOf; rewrite Hp.
Qed.

Lemma setValue_Ok x v c (u : unit) c' :
  setValue (Some x) v c = Ok (u, c') ->
  exists m, metaOf (pages c) x = Some m
    /\ c' = set_pages (alter (set_Val v) x (pages c)) c.
Proof.
  intros (h' & (i & p & [= <-] & Hp & ->)%store_Ok & ->)%onPages_Ok.
  exists (meta p). split; [| done].
  by unfold metaOf; rewrite Hp.
Qed.

Lemma read_nil c : read None c = Panic.
Proof. done. Qed.

Lemma setMeta_nil f c : setMeta None f c = Panic.
Proof. done. Qed.

Lemma setValue_nil v c : setValue None v c = Panic.
Proof. done. Qed.

Lemma Next_nil (h : heap Key Value) : Next None h = Panic.
Proof. done. Qed.

Lemma Prev_nil (h : heap Key Value) : Prev None h = Panic.
Proof. done. Qed.
Lemma debug_skip {A} (d : bool) (m : M cache unit) (k : unit -> M cache A)
    c (res : A * cache) :
  (forall c0 u c1, m c0 = Ok (u, c1) -> c1 = c0) ->
  bind (if d then m else ret tt) k c = Ok res -> k tt c = Ok res.
Proof.
  intros Hm (u & c1 & E & Hk)%bind_Ok. destruct u.
  destruct d; [by apply Hm in E as -> |].
  unfold ret in E. by simplify_eq.
Qed.

End Steps.

(** Projections of updated caches. *)
Ltac proj :=
  cbn [index hot cold test lru capacity coldTarget hotTarget coldCount
       hotCount testCount demotions pages set_index set_hot set_cold
       set_test set_lru set_targets set_coldCount set_hotCount
       set_testCount set_demotions set_pages] in *.

(** One step of a run that returned. *)
Ltac mprim E :=
  lazymatch type of E with
  | get _ = Ok _ => unfold get in E; symmetry in E; simplify_eq
  | ret _ _ = Ok _ => unfold ret in E; symmetry in E; simplify_eq
  | modify _ _ = Ok _ => unfold modify in E; symmetry in E; simplify_eq
  | panic _ = Ok _ => discriminate E
  | timeout _ = Ok _ => discriminate E
  | clockpro.assert _ _ _ = Ok _ => unfold clockpro.assert in E; mprim E
  | when ?b _ _ = Ok _ =>
      unfold when in E; destruct b eqn:?; mprim E
  | read (Some _) _ = Ok _ =>
      let Hm := fresh "Hm" in
      apply read_Ok in E as (Hm & ?); simplify_eq
  | read None _ = Ok _ => rewrite read_nil in E; discriminate E
  | read ?r _ = Ok _ => destruct r eqn:?; mprim E
  | setMeta (Some _) _ _ = Ok _ =>
      let m := fresh "m" in let Hm := fresh "Hm" in
      apply setMeta_Ok in E as (m & Hm & ?); simplify_eq
  | setMeta None _ _ = Ok _ => rewrite setMeta_nil in E; discriminate E
  | setMeta ?r _ _ = Ok _ => destruct r eqn:?; mprim E
  | setValue (Some _) _ _ = Ok _ =>
      let m := fresh "m" in let Hm := fresh "Hm" in
      apply setValue_Ok in E as (m & Hm & ?); simplify_eq
  | setValue None _ _ = Ok _ => rewrite setValue_nil in E; discriminate E
  | setValue ?r _ _ = Ok _ => destruct r eqn:?; mprim E
  | onPages (Next None) _ = Ok _ => discriminate E
  | onPages (Prev None) _ = Ok _ => discriminate E
  | onPages _ _ = Ok _ =>
      let h := fresh "h" in
      apply onPages_Ok in E as (h & E & ?); simplify_eq
  | bind _ _ _ = Ok _ => mbind E
  | (if ?b then _ else _) _ = Ok _ => destruct b eqn:?; mprim E
  | (match ?o with Some _ => _ | None => _ end) _ = Ok _ =>
      destruct o eqn:?; mprim E
  | _ => idtac
  end
with mbind H :=
  let a := fresh "a" in let c := fresh "c" in let E := fresh "E" in
  apply bind_Ok in H as (a & c & E & H);
  mprim E; cbv beta in H; mprim H.

Ltac mrun H := mprim H; proj.

(** Name the run of a callee found among the hypotheses. *)
Tactic Notation "run_of" constr(f) "as" ident(E) :=
  match goal with
  | E' : ?t = Ok _ |- _ =>
      lazymatch t with context [f] => rename E' into E end
  end.

(** One bind of a run that returned, without entering what follows. *)
Ltac mstep H :=
  let a := fresh "a" in let c := fresh "c" in let E := fresh "E" in
  apply bind_Ok in H as (a & c & E & H); mprim E; cbv beta in H; proj.

Tactic Notation "mhold" hyp(H) "as" ident(E) :=
  let a := fresh "a" in let c := fresh "c" in
  apply bind_Ok in H as (a & c & E & H); cbv beta in H.

(** Skip a block of debugging assertions. *)
Ltac skip_debug H :=
  apply debug_skip in H;
  [| let Hd := fresh in intros ? ? ? Hd; mrun Hd; done].

(** ** The test hand *)

Section Hands.
Context {Key : Type} `{Countable Key} {Value : Type}.
Variable zero : Value.
Variable debugging : bool.
Local Abbreviation cache := (@Cache Key _ _ Value).
Implicit Types (c : cache) (i j x y : nat) (l : list nat) (r : ptr)
  (h : heap Key Value).
Local Open Scope Z_scope.

Lemma WF_set_pages l c h' :
  WF l c -> same_meta (pages c) h' -> shape h' l -> WF l (set_pages h' c).
Proof.
  intros [Hsh Hout Hin Hh Hc Ht Hd Hlen Hcap Hct Hht Hres Hidx Hlru Htest]
    Hsm Hsh'.
  constructor; proj; try done.
  - intros i Hi Hni. rewrite (flagOf_same_meta _ _ _ _ Hsm).
    apply Hout; [| done]. by rewrite <- (proj1 Hsm).
  - intros i Hi. rewrite (flagOf_same_meta _ _ _ _ Hsm). by apply Hin.
  - by rewrite (count_same_meta _ _ _ _ Hsm).
  - by rewrite (count_same_meta _ _ _ _ Hsm).
  - by rewrite (count_same_meta _ _ _ _ Hsm).
  - by rewrite (count_same_meta _ _ _ _ Hsm).
  - intros k i Hk. destruct (Hidx k i Hk) as [? Hn]. split; [done |].
    by rewrite (proj2 Hsm).
Qed.

Lemma sweepTest_loop_spec fuel : forall l c i rr c',
  WF l c -> i ∈ l ->
  sweepTest_loop fuel (Some i) c = Ok (rr, c') ->
  exists t h', rr = Some t /\ t ∈ l /\ c' = set_pages h' c
    /\ same_meta (pages c) h' /\ shape h' l
    /\ flagOf Resident h' t = false.
Proof.
  induction fuel as [| fuel IH]; intros l c i rr c' HWF Hi Hrun; [done |].
  simpl in Hrun. mrun Hrun.
  - (* the hand moves on *)
    run_of @Next as EN.
    destruct (Next_shape _ _ _ _ _ (wf_shape _ _ HWF) EN)
      as (y & -> & Hsh & Hsm & Hy & _).
    destruct (Hy Hi) as [Hyl _].
    pose proof (WF_set_pages _ _ _ HWF Hsm Hsh) as HWF1.
    destruct (IH _ _ _ _ _ HWF1 Hyl Hrun)
      as (t & h' & -> & Ht & -> & Hsm' & Hsh' & Hres).
    proj. exists t, h'. split_and!; try done.
    by eapply same_meta_trans.
  - (* the hand stops *)
    exists i, (pages c).
    split_and!; [done | done | by destruct c | apply same_meta_refl
                | apply (wf_shape _ _ HWF) |].
    rewrite (flagOf_Some _ _ _ _ Hm).
    by destruct (LIR (meta a)), (Resident (meta a)).
Qed.

Lemma WF_fields l c c' :
  WF l c ->
  pages c' = pages c -> index c' = index c ->
  hotCount c' = hotCount c -> coldCount c' = coldCount c ->
  testCount c' = testCount c -> demotions c' = demotions c ->
  capacity c' = capacity c -> coldTarget c' = coldTarget c ->
  hotTarget c' = hotTarget c ->
  match lru c' with Some i => i ∈ l | None => l = [] end ->
  match test c' with Some i => i ∈ l | None => True end ->
  WF l c'.
Proof.
  intros [Hsh Hout Hin Hh Hc Ht Hd Hlen Hcap Hct Hht Hres Hidx Hlru Htest]
    Hp Hi Hh' Hc' Ht' Hd' Hcap' Hct' Hht' Hlru' Htest'.
  constructor; rewrite ?Hp, ?Hi, ?Hh', ?Hc', ?Ht', ?Hd', ?Hcap', ?Hct',
    ?Hht'; done.
Qed.

Lemma sweepTest_spec fuel l c (u : unit) c' :
  WF l c -> sweepTest fuel c = Ok (u, c') ->
  exists t h', c' = set_test t (set_pages h' c)
    /\ same_meta (pages c) h' /\ shape h' l
    /\ WF l c' /\ testG c'.
Proof.
  intros HWF Hrun. unfold sweepTest in Hrun. mrun Hrun.
  - exists None, (pages c).
    split_and!; [by destruct c | apply same_meta_refl | apply HWF | | done].
    eapply WF_fields; [exact HWF | done.. | apply HWF | done].
  - run_of @sweepTest_loop as EL.
    destruct (test c) as [i |] eqn:Htest;
      [| unfold sweepTest_loop in EL; destruct fuel; done].
    pose proof (wf_test _ _ HWF) as Hi. rewrite Htest in Hi.
    destruct (sweepTest_loop_spec _ _ _ _ _ _ HWF Hi EL)
      as (t & h' & -> & Ht & -> & Hsm & Hsh & Hres).
    exists (Some t), h'. split_and!; [done | done | done | | done].
    eapply WF_fields; [exact (WF_set_pages _ _ _ HWF Hsm Hsh) | done.. | | done].
    apply HWF.
Qed.

Lemma decr_small (z : Z) : 0 <= z <= Int.max_int -> decr z = z - 1.
Proof.
  intros Hz. apply wrap_small. unfold Int.in_range, Int.min_int, Int.max_int in *.
  lia.
Qed.

Lemma incr_small (z : Z) : 0 <= z < Int.max_int -> incr z = z + 1.
Proof.
  intros Hz. apply wrap_small. unfold Int.in_range, Int.min_int, Int.max_int in *.
  lia.
Qed.

Lemma add_small (a b : Z) :
  0 <= a -> 0 <= b -> a + b <= Int.max_int -> Int.add a b = a + b.
Proof.
  intros Ha Hb Hab. apply wrap_small.
  unfold Int.in_range, Int.min_int, Int.max_int in *. lia.
Qed.

(** A ghost leaves the ring. *)
Lemma WF_remove l l' c c' x m :
  WF l c -> l ≡ₚ x :: l' ->
  metaOf (pages c) x = Some m -> Resident m = false ->
  same_meta (pages c) (pages c') -> shape (pages c') l' ->
  index c' = delete (Name m) (index c) ->
  testCount c' = testCount c - 1 ->
  hotCount c' = hotCount c -> coldCount c' = coldCount c ->
  demotions c' = demotions c ->
  capacity c' = capacity c -> coldTarget c' = coldTarget c ->
  hotTarget c' = hotTarget c ->
  lru c' = lru c -> lru c <> Some x ->
  match test c' with Some i => i ∈ l' | None => True end ->
  WF l' c'.
Proof.
  intros HWF Hp Hm Hres Hsm Hsh' Hidx' Ht' Hh' Hc' Hd' Hcap' Hct' Hht'
    Hlru' Hlrux Htest'.
  pose proof (WF_NoDup _ _ HWF) as Hnd. rewrite Hp in Hnd.
  apply NoDup_cons in Hnd as [Hxl' _].
  assert (flags_ok m = true) as Hok.
  { pose proof (wf_in _ _ HWF x) as Hx. rewrite Hp in Hx.
    rewrite (flagOf_Some _ _ _ _ Hm) in Hx. apply Hx. by left. }
  assert (LIR m = false /\ Referenced m = false /\ Demoted m = false)
    as (HL & HR & HD).
  { revert Hok. unfold flags_ok. rewrite Hres.
    by destruct (LIR m), (Referenced m), (Demoted m). }
  destruct HWF
    as [Hsh Hout Hin Hh Hc Ht Hd Hlen Hcap Hct Hht Hresb Hidx Hlru Htest].
  assert (forall f, count f (pages c') l'
            = count f (pages c) l - (if f m then 1 else 0)) as Hcount.
  { intros f. rewrite (count_same_meta _ _ _ _ Hsm).
    rewrite (count_perm _ _ _ _ Hp), count_cons.
    rewrite (flagOf_Some _ _ _ _ Hm). lia. }
  assert (isHot m = false /\ isCold m = false /\ isTest m = true)
    as (HiH & HiC & HiT).
  { unfold isHot, isCold, isTest. by rewrite HL, Hres. }
  constructor; rewrite ?Hh', ?Hc', ?Ht', ?Hd', ?Hcap', ?Hct', ?Hht'; try done.
  - intros i Hi Hni. rewrite (flagOf_same_meta _ _ _ _ Hsm).
    destruct (decide (i = x)) as [-> | Hne].
    + rewrite (flagOf_Some _ _ _ _ Hm). unfold idle.
      by rewrite HL, Hres, HR, HD.
    + apply Hout; [by rewrite <- (proj1 Hsm) |]. rewrite Hp. set_solver.
  - intros i Hi. rewrite (flagOf_same_meta _ _ _ _ Hsm).
    apply Hin. rewrite Hp. by right.
  - rewrite Hcount, HiH. lia.
  - rewrite Hcount, HiC. lia.
  - rewrite Hcount, HiT. lia.
  - rewrite Hcount, HD. lia.
  - rewrite Hp in Hlen. simpl length in Hlen. lia.
  - intros k i. rewrite Hidx'. intros [Hk Hki]%lookup_delete_Some.
    destruct (Hidx k i Hki) as [Hil Hn]. rewrite (proj2 Hsm). split; [| done].
    rewrite Hp in Hil. apply elem_of_cons in Hil as [-> | Hil]; [| done].
    unfold metaOf in *. by destruct (pages c !! x); simplify_eq/=.
  - rewrite Hlru'. destruct (lru c) as [i |].
    + rewrite Hp in Hlru. apply elem_of_cons in Hlru as [-> | ?]; done.
    + subst l. by apply Permutation_nil_cons in Hp.
Qed.

Lemma removeTest_spec fuel l c x (u : unit) c' :
  WF l c -> x ∈ l -> flagOf Resident (pages c) x = false ->
  lru c <> Some x ->
  removeTest fuel (Some x) c = Ok (u, c') ->
  exists l' t h' k,
    l ≡ₚ x :: l'
    /\ c' = set_test t (set_testCount (testCount c - 1)
              (set_pages h' (set_index (delete k) c)))
    /\ same_meta (pages c) h'
    /\ WF l' c' /\ testG c'.
Proof.
  intros HWF Hx Hres Hlru Hrun. unfold removeTest in Hrun.
  pose proof (WF_bounds _ _ HWF) as Hb.
  pose proof (wf_length _ _ HWF) as Hlen.
  destruct (WF_meta _ _ _ HWF Hx) as (m & Hm & Hok).
  rewrite (flagOf_Some _ _ _ _ Hm) in Hres.
  assert (exists y, y ∈ l /\ y <> x) as Hy.
  { pose proof (wf_lru _ _ HWF) as Hl. destruct (lru c) as [y |].
    - exists y. split; [done | congruence].
    - subst l. set_solver. }
  assert (1 <= testCount c) as Htc.
  { rewrite (wf_testCount _ _ HWF). apply (count_pos _ _ _ x); [done |].
    rewrite (flagOf_Some _ _ _ _ Hm). unfold isTest. by rewrite Hres. }
  (* the state before [sweepTest] *)
  assert (exists t h' c1,
    sweepTest fuel c1 = Ok (u, c')
    /\ c1 = set_test t (set_testCount (testCount c - 1)
              (set_pages h' (set_index (delete (Name m)) c)))
    /\ same_meta (pages c) h'
    /\ exists l', l ≡ₚ x :: l' /\ shape h' l'
         /\ match t with Some i => i ∈ l' | None => True end)
    as (t & h' & c1 & Hsweep & -> & Hsm & l' & Hp & Hsh' & Ht).
  { mrun Hrun.
    - (* the test hand is at the page *)
      run_of @Next as EN. run_of @Prev as EP. run_of @Unlink as EU.
      destruct (Next_shape _ _ _ _ _ (wf_shape _ _ HWF) EN)
        as (n & -> & Hsh1 & Hsm1 & Hn & _).
      destruct (Hn Hx) as [Hnl Hnx].
      destruct (unlink_shape _ _ _ _ _ _ _ Hsh1 Hx Hy EP EU)
        as (-> & l' & Hp & Hsh2 & Hsm2).
      rewrite (proj2 Hsm1) in Hm0. simplify_eq.
      rewrite decr_small in Hrun by lia.
      eexists (Some n), _, _. split; [exact Hrun |].
      split; [reflexivity |]. split; [by eapply same_meta_trans |].
      exists l'. split_and!; [done | done |].
      rewrite Hp in Hnl. apply elem_of_cons in Hnl as [-> | ?]; [| done].
      destruct Hy as (y & Hy & Hyx). specialize (Hnx eq_refl). set_solver.
    - run_of @Prev as EP. run_of @Unlink as EU.
      destruct (unlink_shape _ _ _ _ _ _ _ (wf_shape _ _ HWF) Hx Hy EP EU)
        as (-> & l' & Hp & Hsh2 & Hsm2).
      simplify_eq.
      rewrite decr_small in Hrun by lia.
      eexists (test c), _, _. split; [exact Hrun |].
      split; [by destruct c |]. split; [done |].
      exists l'. split_and!; [done | done |].
      pose proof (wf_test _ _ HWF) as Ht. destruct (test c) as [j |]; [| done].
      rewrite Hp in Ht. apply elem_of_cons in Ht as [-> | ?]; [| done].
      by apply bool_decide_eq_false in Heqb. }
  assert (WF l' (set_test t (set_testCount (testCount c - 1)
              (set_pages h' (set_index (delete (Name m)) c))))) as HWF1.
  { eapply (WF_remove l l' c _ x m); try done. }
  destruct (sweepTest_spec _ _ _ _ _ HWF1 Hsweep)
    as (t' & h'' & -> & Hsm' & Hsh'' & HWF' & HtG). proj.
  exists l', t', h'', (Name m).
  split_and!; [done | done | by eapply same_meta_trans | done | done].
Qed.
End Hands.

(** ** A change of the flags of one page *)

Section Flags.
Context {Key : Type} `{Countable Key} {Value : Type}.
Local Abbreviation cache := (@Cache Key _ _ Value).
Implicit Types (c : cache) (i j x y : nat) (l : list nat) (r : ptr)
  (h : heap Key Value) (m : Metadata Key).
Local Open Scope Z_scope.

Lemma seg_same_links h h' x t z :
  same_links h h' -> seg h x t z -> seg h' x t z.
Proof.
  intros [_ Hl]. apply seg_ext; intros i _; apply Hl.
Qed.

Lemma shape_same_links h h' l : same_links h h' -> shape h l -> shape h' l.
Proof.
  intros Hsl [(l0 & Hp & [Hnd Hr]) Hout]. split.
  - exists l0. split; [done |]. split; [done |].
    destruct l0 as [| x t]; [done |].
    destruct Hr as [Hs | [-> Hx]].
    + left. by eapply seg_same_links.
    + right. split; [done |]. by rewrite (proj1 (proj2 Hsl x)).
  - intros i Hi Hni. destruct Hsl as [Hlen Hl]. rewrite Hlen in Hi.
    destruct (Hl i) as [Hn Hp']. eapply link_ext; [done | done |].
    by apply Hout.
Qed.

(** The flags of one page of the ring change. *)
Lemma WF_flags l c c' x m m' :
  WF l c -> x ∈ l ->
  metaOf (pages c) x = Some m -> metaOf (pages c') x = Some m' ->
  (forall i, i <> x -> metaOf (pages c') i = metaOf (pages c) i) ->
  same_links (pages c) (pages c') ->
  flags_ok m' = true -> Name m' = Name m ->
  hotCount c' = hotCount c - (if isHot m then 1 else 0)
                + (if isHot m' then 1 else 0) ->
  coldCount c' = coldCount c - (if isCold m then 1 else 0)
                 + (if isCold m' then 1 else 0) ->
  testCount c' = testCount c - (if isTest m then 1 else 0)
                 + (if isTest m' then 1 else 0) ->
  demotions c' = demotions c - (if Demoted m then 1 else 0)
                 + (if Demoted m' then 1 else 0) ->
  hotCount c' + coldCount c' <= capacity c' ->
  capacity c' = capacity c ->
  1 <= coldTarget c' <= capacity c' ÷ 2 ->
  hotTarget c' = capacity c' - coldTarget c' ->
  index c' = index c ->
  match lru c' with Some i => i ∈ l | None => l = [] end ->
  match test c' with Some i => i ∈ l | None => True end ->
  WF l c'.
Proof.
  intros HWF Hx Hm Hm' Hoth Hsl Hok HN Hh' Hc' Ht' Hd' Hres' Hcap' Hct'
    Hht' Hidx' Hlru' Htest'.
  pose proof (WF_NoDup _ _ HWF) as Hnd.
  destruct HWF
    as [Hsh Hout Hin Hh Hc Ht Hd Hlen Hcap Hct Hht Hresb Hidx Hlru Htest].
  constructor; try done.
  - by eapply shape_same_links.
  - intros i Hi Hni. rewrite (proj1 Hsl) in Hi.
    unfold flagOf. rewrite Hoth by (intros ->; done). by apply Hout.
  - intros i Hi. destruct (decide (i = x)) as [-> | Hne].
    + by rewrite (flagOf_Some _ _ _ _ Hm').
    + unfold flagOf. rewrite Hoth by done. by apply Hin.
  - rewrite (count_update _ _ _ _ _ _ _ Hnd Hx Hm Hm' Hoth). lia.
  - rewrite (count_update _ _ _ _ _ _ _ Hnd Hx Hm Hm' Hoth). lia.
  - rewrite (count_update _ _ _ _ _ _ _ Hnd Hx Hm Hm' Hoth). lia.
  - rewrite (count_update _ _ _ _ _ _ _ Hnd Hx Hm Hm' Hoth). lia.
  - by rewrite Hcap'.
  - intros k i. rewrite Hidx'. intros Hk. destruct (Hidx k i Hk) as [Hi Hn].
    split; [done |]. destruct (decide (i = x)) as [-> | Hne].
    + rewrite Hm'. rewrite Hm in Hn. simpl in *. congruence.
    + by rewrite Hoth.
Qed.

Lemma sweepR_refl c : sweepR c c.
Proof. constructor; done || lia. Qed.

Lemma sweepR_trans c1 c2 c3 : sweepR c1 c2 -> sweepR c2 c3 -> sweepR c1 c3.
Proof.
  intros [] []. constructor; try congruence; try lia; auto.
Qed.
Lemma kept_refl c : kept c c.
Proof. unfold kept. lia. Qed.

Lemma kept_trans c1 c2 c3 : kept c1 c2 -> kept c2 c3 -> kept c1 c3.
Proof. unfold kept. lia. Qed.

(** Calls that leave the index and the number of pages alone. *)
Lemma kept_fields c c' :
  index c' = index c ->
  hotCount c' + coldCount c' + testCount c'
  = hotCount c + coldCount c + testCount c ->
  kept c c'.
Proof. unfold kept, unindexed. intros -> ->. lia. Qed.

(** A page leaves, and the key it had leaves the index. *)
Lemma kept_delete c c' (k : Key) :
  index c' = delete k (index c) ->
  hotCount c' + coldCount c' + testCount c'
  = hotCount c + coldCount c + testCount c - 1 ->
  kept c c'.
Proof.
  unfold kept, unindexed. intros -> ->. rewrite map_size_delete.
  destruct (index c !! k); unfold id; lia.
Qed.

(** A page arrives under a key the index did not have. *)
Lemma kept_insert c c' (k : Key) i :
  index c !! k = None ->
  index c' = <[k := i]> (index c) ->
  hotCount c' + coldCount c' + testCount c'
  = hotCount c + coldCount c + testCount c + 1 ->
  kept c c'.
Proof.
  unfold kept, unindexed. intros Hk -> ->. rewrite map_size_insert, Hk.
  unfold id. lia.
Qed.
End Flags.

Ltac kept_goal :=
  first [ assumption
        | apply kept_refl
        | apply kept_fields; proj; [done | lia]
        | eapply kept_trans; [eassumption |]; kept_goal ].

(** Facts about an updated heap, by the rewriting rules of the fields. *)
Ltac heap_facts :=
  repeat match goal with
    | |- same_links _ _ => split; [by heap_simpl | intros ?; by heap_simpl]
    | |- same_meta _ _ => split; [by heap_simpl | intros ?; by heap_simpl]
    | |- forall i, i <> _ -> metaOf _ i = metaOf _ i =>
        let Hne := fresh in
        intros ? Hne; heap_simpl; rewrite ?decide_False by (by apply not_eq_sym);
        try done
    | |- metaOf _ _ = Some _ =>
        heap_simpl; rewrite ?decide_True by done;
        repeat match goal with
          | Hm : metaOf ?h ?x = Some _ |- context [metaOf ?h ?x] => rewrite Hm
          end; try done
    end.

(** ** The hot hand *)

Ltac flag_goal :=
  unfold flagOf in *; heap_simpl; repeat case_decide; simplify_eq;
  repeat match goal with
    | Hm : metaOf ?h ?x = Some _ |- context [metaOf ?h ?x] => rewrite Hm
    | Hm : metaOf ?h ?x = Some _,
      H : context [match metaOf ?h ?x with _ => _ end] |- _ =>
        rewrite Hm in H
    end;
  simpl in *; try done; try congruence.

Ltac sweepR_goal :=
  constructor; proj; try done; try lia; try (by heap_simpl);
  try (intros ?; flag_goal).

Section Targets.
Context {Key : Type} `{Countable Key} {Value : Type}.
Variable zero : Value.
Variable debugging : bool.
Local Abbreviation cache := (@Cache Key _ _ Value).
Implicit Types (c : cache) (i j x y : nat) (l : list nat) (r : ptr)
  (h : heap Key Value) (m : Metadata Key).
Local Open Scope Z_scope.

Lemma adjustColdTarget_spec delta c (u : unit) c' :
  2 <= capacity c <= Int.max_int ->
  adjustColdTarget delta c = Ok (u, c') ->
  exists ct, c' = set_targets ct (capacity c - ct) c
    /\ 1 <= ct <= capacity c ÷ 2.
Proof.
  intros Hcap Hrun. unfold adjustColdTarget in Hrun. mrun Hrun.
  rewrite Z.quot_div_nonneg by lia.
  set (ct := Z.min (Z.max (Int.add (coldTarget c) delta) 1) (capacity c / 2)).
  assert (1 <= ct <= capacity c / 2) as Hct.
  { unfold ct. pose proof (Z.div_pos (capacity c) 2). 
    assert (1 <= capacity c / 2) by (apply Z.div_le_lower_bound; lia). lia. }
  exists ct. split; [| done]. unfold Int.sub. rewrite wrap_small; [done |].
  unfold Int.in_range, Int.min_int, Int.max_int in *.
  assert (capacity c / 2 <= capacity c) by (apply Z.div_le_upper_bound; lia).
  lia.
Qed.

Lemma decreaseColdTarget_spec c (u : unit) c' :
  2 <= capacity c <= Int.max_int ->
  decreaseColdTarget c = Ok (u, c') ->
  exists ct, c' = set_targets ct (capacity c - ct) c
    /\ 1 <= ct <= capacity c ÷ 2.
Proof.
  intros Hcap Hrun. unfold decreaseColdTarget in Hrun. mrun Hrun.
  by eapply adjustColdTarget_spec.
Qed.

Lemma increaseColdTarget_spec c (u : unit) c' :
  2 <= capacity c <= Int.max_int ->
  increaseColdTarget c = Ok (u, c') ->
  exists ct, c' = set_targets ct (capacity c - ct) c
    /\ 1 <= ct <= capacity c ÷ 2.
Proof.
  intros Hcap Hrun. unfold increaseColdTarget in Hrun. mrun Hrun.
  by eapply adjustColdTarget_spec.
Qed.

Lemma WF_targets l c ct :
  WF l c -> 1 <= ct <= capacity c ÷ 2 ->
  WF l (set_targets ct (capacity c - ct) c).
Proof.
  intros [Hsh Hout Hin Hh Hc Ht Hd Hlen Hcap Hct Hht Hresb Hidx Hlru Htest] ?.
  constructor; done.
Qed.

Lemma handleHotLIR_spec l c x (u : unit) c' :
  WF l c -> x ∈ l -> testG c -> flagOf LIR (pages c) x = true ->
  handleHotLIR (Some x) c = Ok (u, c') ->
  WF l c' /\ sweepR c c' /\ lruR c' /\ testG c'
  /\ hotCount c' = hotCount c /\ kept c c'.
Proof.
  intros HWF Hx HtG HL Hrun. unfold handleHotLIR in Hrun. mrun Hrun.
  rewrite (flagOf_Some _ _ _ _ Hm) in HL.
  pose proof (wf_in _ _ HWF x Hx) as Hok.
  rewrite (flagOf_Some _ _ _ _ Hm) in Hok.
  pose proof (wf_residents _ _ HWF). pose proof (wf_coldTarget _ _ HWF).
  pose proof (wf_hotTarget _ _ HWF). pose proof (wf_test _ _ HWF).
  split_and!.
  - eapply (WF_flags l c _ x m (with_Referenced false m)); proj;
      try done; heap_facts;
      destruct m as [k [] [] [] [] s]; simpl in *; try done; lia.
  - sweepR_goal.
  - unfold lruR; proj. flag_goal.
    destruct m as [k [] [] [] [] s]; simpl in *; done.
  - unfold testG in *; proj. destruct (test c) as [t |]; [| done]. flag_goal.
  - done.
  - kept_goal.
Qed.

(** The flags of a page change, but not whether it is hot or resident. *)
Lemma touch_spec l c c' x m m' :
  WF l c -> x ∈ l -> lruR c -> testG c ->
  metaOf (pages c) x = Some m -> metaOf (pages c') x = Some m' ->
  (forall i, i <> x -> metaOf (pages c') i = metaOf (pages c) i) ->
  same_links (pages c) (pages c') ->
  LIR m' = LIR m -> Resident m' = Resident m -> Name m' = Name m ->
  flags_ok m' = true ->
  demotions c' = demotions c - (if Demoted m then 1 else 0)
                 + (if Demoted m' then 1 else 0) ->
  hotCount c' = hotCount c -> coldCount c' = coldCount c ->
  testCount c' = testCount c -> capacity c' = capacity c ->
  1 <= coldTarget c' <= capacity c' ÷ 2 ->
  hotTarget c' = capacity c' - coldTarget c' ->
  index c' = index c -> test c' = test c ->
  lru c' = lru c \/ (lru c' = Some x /\ Resident m = true) ->
  WF l c' /\ sweepR c c' /\ lruR c' /\ testG c' /\ kept c c'.
Proof.
  intros HWF Hx HlruR HtG Hm Hm' Hoth Hsl HL HR HN Hok Hd Hh Hc Ht Hcap Hct
    Hht Hidx Htest Hlru.
  assert (forall i, flagOf Resident (pages c') i = flagOf Resident (pages c) i)
    as Hres.
  { intros i. unfold flagOf. destruct (decide (i = x)) as [-> | Hne].
    - by rewrite Hm, Hm'.
    - by rewrite Hoth. }
  split_and!.
  - eapply (WF_flags l c c' x m m'); try done.
    + unfold isHot. rewrite HL. lia.
    + unfold isCold. rewrite HL, HR. lia.
    + unfold isTest. rewrite HR. lia.
    + rewrite Hh, Hc, Hcap. apply HWF.
    + destruct Hlru as [-> | [-> _]]; [apply HWF | done].
    + rewrite Htest. apply HWF.
  - constructor; try done; try lia.
    + by rewrite Hidx.
    + apply Hsl.
  - unfold lruR. destruct Hlru as [-> | [-> Hr]].
    + unfold lruR in HlruR. destruct (lru c); [| done]. by rewrite Hres.
    + by rewrite (flagOf_Some _ _ _ _ Hm'), HR.
  - unfold testG in *. rewrite Htest. destruct (test c); [| done].
    by rewrite Hres.
  - apply kept_fields; [done | lia].
Qed.

Lemma and5_extend (A B C D E F G : Prop) :
  A /\ B /\ C /\ D /\ G -> E -> F -> A /\ B /\ C /\ D /\ E /\ F /\ G.
Proof. tauto. Qed.

Lemma handleHotHIR_spec fuel l c x nx (u : unit) c' :
  WF l c -> x ∈ l -> lruR c -> testG c ->
  flagOf LIR (pages c) x = false ->
  handleHotHIR fuel (Some x) nx c = Ok (u, c') ->
  exists l', WF l' c' /\ sweepR c c' /\ lruR c' /\ testG c'
    /\ hotCount c' = hotCount c
    /\ (forall i, i ∈ l -> i <> x \/ lru c = Some x -> i ∈ l')
    /\ kept c c'.
Proof.
  intros HWF Hx HlruR HtG HL Hrun. unfold handleHotHIR in Hrun.
  pose proof (wf_in _ _ HWF x Hx) as Hok.
  pose proof (wf_coldTarget _ _ HWF). pose proof (wf_hotTarget _ _ HWF).
  pose proof (wf_capacity _ _ HWF) as Hcap.
  pose proof (wf_length _ _ HWF).
  pose proof (WF_bounds _ _ HWF) as Hb.
  assert (flagOf Demoted (pages c) x = true -> 1 <= demotions c) as Hdem.
  { intros HD. rewrite (wf_demotions _ _ HWF). by eapply count_pos. }
  mrun Hrun;
    try (run_of @decreaseColdTarget as ED;
         apply decreaseColdTarget_spec in ED as (ct & -> & Hct); [| done];
         proj);
    rewrite ?(flagOf_Some _ _ _ _ Hm) in *;
    destruct a as [an ap av ma]; simpl in *;
    try rewrite decr_small by (specialize (Hdem Heqb1); lia).
  1-2: exists l; apply and5_extend; [| done | done];
    eapply (touch_spec l c _ x ma (with_Demoted false (with_Referenced false ma)));
    proj; try done; heap_facts;
    try (destruct ma as [? [] [] [] [] ?]; simpl in *; try done; lia);
    try (right; done).
  1-2: exists l; apply and5_extend; [| done | done];
    eapply (touch_spec l c _ x ma (with_Referenced false ma));
    proj; try done; heap_facts;
    try (destruct ma as [? [] [] [] [] ?]; simpl in *; try done; lia);
    try (right; done).
  - exists l; apply and5_extend; [| done | done];
    eapply (touch_spec l c _ x ma (with_Stacked false ma));
    proj; try done; heap_facts;
    try (destruct ma as [? [] [] [] [] ?]; simpl in *; try done; lia);
    try (left; done).
  - (* a ghost under the hot hand *)
    assert (lru c <> Some x) as Hlru.
    { intros Hl. unfold lruR in HlruR. rewrite Hl in HlruR.
      rewrite (flagOf_Some _ _ _ _ Hm) in HlruR. congruence. }
    destruct (removeTest_spec _ _ _ _ _ _ HWF Hx
                ltac:(by rewrite (flagOf_Some _ _ _ _ Hm)) Hlru Hrun)
      as (l' & t & h' & k & Hp & -> & Hsm & HWF' & HtG').
    exists l'. split_and!; [done | | | done | done | |].
    + constructor; proj; try done; try lia.
      * intros k' i [_ ?]%lookup_delete_Some. done.
      * intros i. by apply flagOf_same_meta.
      * apply Hsm.
    + unfold lruR in *; proj. destruct (lru c); [| done].
      by rewrite (flagOf_same_meta _ _ _ _ Hsm).
    + intros i Hi [Hne | ?]; [| done]. rewrite Hp in Hi. set_solver.
    + eapply kept_delete; proj; [done | lia].
Qed.

(** A step of a hand along the ring. *)
Lemma Next_cache l c x rr h1 :
  WF l c -> lruR c -> testG c ->
  Next (Some x) (pages c) = Ok (rr, h1) ->
  exists y, rr = Some y
    /\ WF l (set_pages h1 c) /\ sweepR c (set_pages h1 c)
    /\ lruR (set_pages h1 c) /\ testG (set_pages h1 c)
    /\ same_meta (pages c) h1
    /\ (x ∈ l -> y ∈ l /\ (y = x -> l = [x]))
    /\ (x ∉ l -> y = x).
Proof.
  intros HWF HlruR HtG Hrun.
  destruct (Next_shape _ _ _ _ _ (wf_shape _ _ HWF) Hrun)
    as (y & -> & Hsh & Hsm & Hin & Hout).
  exists y. split_and!; try done.
  - by apply WF_set_pages.
  - constructor; proj; try done; try lia.
    + intros i. by apply flagOf_same_meta.
    + apply Hsm.
  - unfold lruR in *; proj. destruct (lru c); [| done].
    by rewrite (flagOf_same_meta _ _ _ _ Hsm).
  - unfold testG in *; proj. destruct (test c); [| done].
    by rewrite (flagOf_same_meta _ _ _ _ Hsm).
Qed.

Lemma sweepHot_loop_spec fuel : forall l c x rr c',
  WF l c -> x ∈ l -> lruR c -> testG c ->
  sweepHot_loop fuel (Some x) c = Ok (rr, c') ->
  exists l' y, rr = Some y
    /\ WF l' c' /\ sweepR c c' /\ lruR c' /\ testG c'
    /\ hotCount c' = hotCount c
    /\ flagOf LIR (pages c') y = true
    /\ kept c c'.
Proof.
  induction fuel as [| fuel IH]; intros l c x rr c' HWF Hx HlruR HtG Hrun;
    [done |].
  simpl in Hrun. mrun Hrun.
  - (* a hot page that was referenced *)
    run_of @Next as EN. run_of @handleHotLIR as EH.
    destruct (Next_cache _ _ _ _ _ HWF HlruR HtG EN)
      as (y & -> & HWF1 & HR1 & HlruR1 & HtG1 & Hsm & Hin & _).
    destruct (Hin Hx) as [Hy _].
    assert (flagOf LIR h x = true) as HL.
    { rewrite (flagOf_same_meta _ _ _ _ Hsm), (flagOf_Some _ _ _ _ Hm).
      done. }
    destruct (handleHotLIR_spec _ _ _ _ _ HWF1 Hx HtG1 HL EH)
      as (HWF2 & HR2 & HlruR2 & HtG2 & Hh2 & Hk2).
    destruct (IH _ _ _ _ _ HWF2 Hy HlruR2 HtG2 Hrun)
      as (l' & z & -> & HWF3 & HR3 & HlruR3 & HtG3 & Hh3 & HL3 & Hk3).
    exists l', z. split_and!; try done.
    all: try (eapply sweepR_trans; [| done]; by eapply sweepR_trans).
    all: try (rewrite Hh3, Hh2; done).
    eapply kept_trans; [exact Hk2 | exact Hk3].
  - (* a cold or nonresident page *)
    run_of @Next as EN. run_of @handleHotHIR as EH.
    destruct (Next_cache _ _ _ _ _ HWF HlruR HtG EN)
      as (y & -> & HWF1 & HR1 & HlruR1 & HtG1 & Hsm & Hin & _).
    destruct (Hin Hx) as [Hy Hyx].
    assert (flagOf LIR h x = false) as HL.
    { rewrite (flagOf_same_meta _ _ _ _ Hsm), (flagOf_Some _ _ _ _ Hm).
      done. }
    destruct (handleHotHIR_spec _ _ _ _ _ _ _ HWF1 Hx HlruR1 HtG1 HL EH)
      as (l1 & HWF2 & HR2 & HlruR2 & HtG2 & Hh2 & Hkeep & Hk2).
    assert (y ∈ l1) as Hy1.
    { apply Hkeep; [done |]. destruct (decide (y = x)) as [-> | ?];
        [| by left]. right. specialize (Hyx eq_refl). subst l.
      pose proof (wf_lru _ _ HWF1) as Hl. proj.
      destruct (lru c) as [j |]; [| done].
      by apply list_elem_of_singleton in Hl as ->. }
    destruct (IH _ _ _ _ _ HWF2 Hy1 HlruR2 HtG2 Hrun)
      as (l' & z & -> & HWF3 & HR3 & HlruR3 & HtG3 & Hh3 & HL3 & Hk3).
    exists l', z. split_and!; try done.
    all: try (eapply sweepR_trans; [| done]; by eapply sweepR_trans).
    all: try (rewrite Hh3, Hh2; done).
    eapply kept_trans; [exact Hk2 | exact Hk3].
  - (* the hand stops *)
    exists l, x. split_and!; try done; try apply sweepR_refl;
      try apply kept_refl.
    rewrite (flagOf_Some _ _ _ _ Hm).
    by destruct (LIR (meta a)), (Referenced (meta a)).
Qed.

Lemma sweepHot_spec fuel l c (u : unit) c' :
  WF l c -> lruR c -> testG c ->
  (hotCount c <> 0 -> forall i, hot c = Some i -> i ∈ l) ->
  sweepHot fuel c = Ok (u, c') ->
  exists l', WF l' c' /\ sweepR c c' /\ lruR c' /\ testG c'
    /\ hotCount c' = hotCount c
    /\ (hotCount c <> 0 -> hotS c')
    /\ (hotCount c = 0 -> c' = c)
    /\ kept c c'.
Proof.
  intros HWF HlruR HtG Hhot Hrun. unfold sweepHot in Hrun. mrun Hrun.
  - exists l. split_and!; try done; try apply sweepR_refl;
      try apply kept_refl.
    intros Hz. apply Z.eqb_eq in Heqb. done.
  - run_of @sweepHot_loop as EL.
    destruct (hot c) as [x |] eqn:Hx;
      [| unfold sweepHot_loop in EL; destruct fuel; done].
    apply Z.eqb_neq in Heqb.
    destruct (sweepHot_loop_spec _ _ _ _ _ _ HWF (Hhot Heqb _ eq_refl) HlruR HtG EL)
      as (l' & y & -> & HWF1 & HR1 & HlruR1 & HtG1 & Hh1 & HL1 & Hk1).
    exists l'. split_and!; try done.
    + eapply WF_fields; [exact HWF1 | done.. | apply HWF1 | apply HWF1].
    + destruct HR1. constructor; done.
    + intros _. by exists y.
Qed.
End Targets.

(** ** Demotion and promotion *)

Section Promotion.
Context {Key : Type} `{Countable Key} {Value : Type}.
Variable zero : Value.
Variable debugging : bool.
Local Abbreviation cache := (@Cache Key _ _ Value).
Implicit Types (c : cache) (i j x y : nat) (l : list nat) (r : ptr)
  (h : heap Key Value) (m : Metadata Key).
Local Open Scope Z_scope.

Lemma quot2_bounds (z : Z) : 2 <= z -> 1 <= z ÷ 2 /\ 2 * (z ÷ 2) <= z.
Proof.
  intros Hz. rewrite Z.quot_div_nonneg by lia.
  pose proof (Z.div_mod z 2). pose proof (Z.mod_pos_bound z 2). lia.
Qed.

Lemma moveToLRU_spec l c x (u : unit) c' :
  WF l c -> x ∈ l ->
  moveToLRU (Some x) c = Ok (u, c') ->
  exists h', c' = set_lru (Some x) (set_pages h' c)
    /\ same_meta (pages c) h' /\ WF l c'.
Proof.
  intros HWF Hx Hrun. unfold moveToLRU in Hrun. mrun Hrun.
  - apply bool_decide_eq_true in Heqb.
    exists (pages c). split_and!; [| apply same_meta_refl | done].
    destruct c; simpl in *. unfold set_lru, set_pages; simpl. by rewrite Heqb.
  - apply bool_decide_eq_false in Heqb.
    run_of @Prev as EP. run_of @Unlink as EU. run_of @Link as EL.
    pose proof (wf_lru _ _ HWF) as Hlru.
    destruct (lru c) as [j |] eqn:Hj; [| subst l; set_solver].
    assert (j <> x) as Hjx by congruence.
    destruct (unlink_shape _ _ _ _ _ _ _ (wf_shape _ _ HWF) Hx
                ltac:(by exists j) EP EU)
      as (-> & l' & Hp & Hsh2 & Hsm2).
    pose proof (WF_NoDup _ _ HWF) as Hnd. rewrite Hp in Hnd.
    apply NoDup_cons in Hnd as [Hxl' _].
    assert (j ∈ l') as Hjl'.
    { rewrite Hp in Hlru. set_solver. }
    assert ((x < length h0)%nat) as Hxv.
    { rewrite (proj1 Hsm2). by eapply WF_valid. }
    destruct (Link_shape h0 l' j x _ _ (proj1 Hsh2)
                ltac:(intros; by apply Hsh2) Hjl' Hxl'
                ltac:(left; by apply Hsh2) EL) as [Hsh3 Hsm3].
    assert (same_meta (pages c) h1) as Hsm by (by eapply same_meta_trans).
    exists h1. split_and!; [done | done |].
    eapply WF_fields;
      [apply (WF_set_pages l c h1 HWF Hsm) | done.. | done | apply HWF].
    eapply shape_perm; [| done]. by rewrite Hp.
Qed.

Lemma moved_spec c x h' :
  same_meta (pages c) h' -> flagOf Resident (pages c) x = true -> testG c ->
  sweepR c (set_lru (Some x) (set_pages h' c))
  /\ lruR (set_lru (Some x) (set_pages h' c))
  /\ testG (set_lru (Some x) (set_pages h' c))
  /\ (hotS c -> hotS (set_lru (Some x) (set_pages h' c))).
Proof.
  intros Hsm Hx HtG. split_and!.
  - constructor; proj; try done; try lia.
    + intros i. by apply flagOf_same_meta.
    + apply Hsm.
  - unfold lruR; proj. by rewrite (flagOf_same_meta _ _ _ _ Hsm).
  - unfold testG in *; proj. destruct (test c); [| done].
    by rewrite (flagOf_same_meta _ _ _ _ Hsm).
  - intros (z & Hz & HL). exists z. proj. split; [done |].
    by rewrite (flagOf_same_meta _ _ _ _ Hsm).
Qed.

Lemma demoteHot_spec fuel l c (u : unit) c' :
  WF l c -> lruR c -> testG c -> hotS c -> hotTarget c < hotCount c ->
  demoteHot debugging fuel c = Ok (u, c') ->
  exists l', WF l' c' /\ sweepR c c' /\ lruR c' /\ testG c' /\ hotS c'
    /\ hotCount c' = hotCount c - 1
    /\ kept c c'.
Proof.
  intros HWF HlruR HtG (x & Hhot & HL) Hlt Hrun.
  pose proof (WF_LIR_in _ _ _ HWF HL) as Hx.
  pose proof (wf_in _ _ HWF x Hx) as Hok.
  pose proof (wf_coldTarget _ _ HWF). pose proof (wf_hotTarget _ _ HWF).
  pose proof (wf_capacity _ _ HWF) as Hcap.
  pose proof (wf_length _ _ HWF).
  pose proof (WF_bounds _ _ HWF) as Hb.
  unfold demoteHot in Hrun.
  apply bind_Ok in Hrun as (c0 & c1 & Eg & Hrun). mprim Eg.
  cbv beta in Hrun. skip_debug Hrun. rewrite Hhot in Hrun. mrun Hrun.
  run_of @Next as EN. run_of @moveToLRU as EM.
  destruct (Next_cache _ _ _ _ _ HWF HlruR HtG EN)
    as (y & -> & HWF1 & HR1 & HlruR1 & HtG1 & Hsm & Hin & _).
  destruct (Hin Hx) as [Hy _].
  assert (metaOf (pages c) x = Some m) as Hmc by (by rewrite <- (proj2 Hsm)).
  rewrite (flagOf_Some _ _ _ _ Hmc) in HL.
  rewrite (flagOf_Some _ _ _ _ Hmc) in Hok.
  assert (Resident m = true) as HRm.
  { destruct m as [? [] [] [] [] ?]; simpl in *; done. }
  pose proof (quot2_bounds (capacity c) ltac:(lia)).
  pose proof (wf_residents _ _ HWF).
  assert (1 <= hotCount c) by lia.
  assert (1 <= count isHot (pages c) l) as Hhc by (by rewrite <- (wf_hotCount _ _ HWF)).
  rewrite decr_small, !incr_small in EM by lia.
  set (m' := with_Demoted true (with_Stacked false (with_LIR false m))).
  match type of EM with moveToLRU _ ?s = _ => set (c3 := s) in * end.
  assert (WF l c3) as HWF3.
  { eapply (WF_flags l (set_pages h c) c3 x m m'); subst c3 m'; proj;
      try done; heap_facts;
      try (destruct m as [? [] [] [] [] ?]; simpl in *; try done; lia).
    all: apply HWF. }
  destruct (moveToLRU_spec _ _ _ _ _ HWF3 Hx EM) as (h' & -> & Hsm' & HWF4).
  assert (forall i, flagOf Resident h' i = flagOf Resident (pages c) i) as Hres.
  { intros i. rewrite (flagOf_same_meta _ _ _ _ Hsm').
    rewrite <- (flagOf_same_meta _ _ _ _ Hsm). subst c3; proj. flag_goal. }
  match type of HWF4 with WF _ ?s => set (c4 := s) in * end.
  assert (lruR c4) as HlruR4.
  { unfold lruR; subst c4; proj. rewrite Hres.
    by rewrite (flagOf_Some _ _ _ _ Hmc). }
  assert (testG c4) as HtG4.
  { unfold testG in *; subst c4 c3; proj. destruct (test c); [| done].
    by rewrite Hres. }
  assert (hotCount c4 <> 0 -> forall i, hot c4 = Some i -> i ∈ l) as Hhot4.
  { subst c4 c3; proj. by intros _ i [= <-]. }
  destruct (sweepHot_spec _ _ _ _ _ HWF4 HlruR4 HtG4 Hhot4 Hrun)
    as (l' & HWF5 & HR5 & HlruR5 & HtG5 & Hh5 & HhS & _ & Hk5).
  exists l'. subst c4 c3; proj. split_and!; try done.
  - eapply sweepR_trans; [| done]. constructor; proj; try done; try lia.
    rewrite (proj1 Hsm'). heap_simpl. apply Hsm.
  - apply HhS. lia.
  - eapply kept_trans; [| exact Hk5]. apply kept_fields; proj; [done | lia].
Qed.

Lemma promoteCold_loop_spec fuel : forall l c (u : unit) c',
  WF l c -> lruR c -> testG c -> hotS c ->
  promoteCold_loop debugging fuel c = Ok (u, c') ->
  exists l', WF l' c' /\ sweepR c c' /\ lruR c' /\ testG c' /\ hotS c'
    /\ hotCount c' <= hotTarget c'
    /\ kept c c'.
Proof.
  induction fuel as [| fuel IH]; intros l c u c' HWF HlruR HtG HhS Hrun;
    [done |].
  simpl in Hrun. mrun Hrun.
  - apply Z.ltb_lt in Heqb. run_of @demoteHot as ED.
    destruct (demoteHot_spec _ _ _ _ _ HWF HlruR HtG HhS Heqb ED)
      as (l1 & HWF1 & HR1 & HlruR1 & HtG1 & HhS1 & _ & Hk1).
    destruct (IH _ _ _ _ HWF1 HlruR1 HtG1 HhS1 Hrun)
      as (l2 & HWF2 & HR2 & HlruR2 & HtG2 & HhS2 & Hle & Hk2).
    exists l2. split_and!; try done;
      [by eapply sweepR_trans | by eapply kept_trans].
  - apply Z.ltb_ge in Heqb. exists l. split_and!; try done;
      try apply sweepR_refl; try apply kept_refl.
Qed.

Lemma promoteCold_spec fuel l c x m (u : unit) c' :
  WF l c -> testG c -> hotS c -> x ∈ l ->
  metaOf (pages c) x = Some m ->
  Resident m = true -> LIR m = false -> Demoted m = false ->
  promoteCold debugging fuel (Some x) c = Ok (u, c') ->
  exists l', WF l' c' /\ sweepR c c' /\ lruR c' /\ testG c' /\ hotS c'
    /\ hotCount c' <= hotTarget c'
    /\ kept c c'.
Proof.
  intros HWF HtG HhS Hx Hmx HRm HLm HDm Hrun.
  pose proof (wf_in _ _ HWF x Hx) as Hok.
  rewrite (flagOf_Some _ _ _ _ Hmx) in Hok.
  pose proof (wf_coldTarget _ _ HWF). pose proof (wf_hotTarget _ _ HWF).
  pose proof (wf_capacity _ _ HWF) as Hcap.
  pose proof (wf_length _ _ HWF). pose proof (wf_residents _ _ HWF).
  pose proof (WF_bounds _ _ HWF) as Hb.
  assert (1 <= coldCount c) as Hc1.
  { rewrite (wf_coldCount _ _ HWF). eapply count_pos; [done |].
    rewrite (flagOf_Some _ _ _ _ Hmx). unfold isCold. by rewrite HRm, HLm. }
  unfold promoteCold in Hrun. mrun Hrun.
  run_of @moveToLRU as EM.
  rewrite decr_small, !incr_small in EM by lia.
  match type of EM with moveToLRU _ ?s = _ => set (c3 := s) in * end.
  assert (WF l c3) as HWF3.
  { eapply (WF_flags l c c3 x m (with_LIR true m)); subst c3; proj;
      try done; heap_facts;
      try (destruct m as [? [] [] [] [] ?]; simpl in *; try done; lia);
      try apply HWF. }
  assert (testG c3) as HtG3.
  { unfold testG in *; subst c3; proj. destruct (test c); [| done].
    flag_goal. }
  assert (hotS c3) as HhS3.
  { destruct HhS as (z & Hz & HL). exists z. subst c3; proj.
    split; [done |]. flag_goal. }
  assert (flagOf Resident (pages c3) x = true) as HR3.
  { subst c3; proj. flag_goal. }
  destruct (moveToLRU_spec _ _ _ _ _ HWF3 Hx EM) as (h' & -> & Hsm' & HWF4).
  destruct (moved_spec c3 x h' Hsm' HR3 HtG3) as (HR4 & HlruR4 & HtG4 & HhS4).
  destruct (promoteCold_loop_spec _ _ _ _ _ HWF4 HlruR4 HtG4 (HhS4 HhS3) Hrun)
    as (l' & HWF5 & HR5 & HlruR5 & HtG5 & HhS5 & Hle & Hk5).
  exists l'. split_and!; try done.
  - eapply sweepR_trans; [| done]. eapply sweepR_trans; [| done].
    subst c3. constructor; proj; try done; try lia; try (by heap_simpl).
    intros i. flag_goal.
  - eapply kept_trans; [| exact Hk5]. subst c3.
    apply kept_fields; proj; [done | lia].
Qed.

Lemma touch_hotS c c' x m m' :
  metaOf (pages c) x = Some m -> metaOf (pages c') x = Some m' ->
  (forall i, i <> x -> metaOf (pages c') i = metaOf (pages c) i) ->
  LIR m' = LIR m -> hot c' = hot c -> hotS c -> hotS c'.
Proof.
  intros Hm Hm' Hoth HL Hhot (z & Hz & HLz). exists z.
  split; [congruence |]. rewrite <- HLz. unfold flagOf.
  destruct (decide (z = x)) as [-> | Hne]; [by rewrite Hm, Hm' |].
  by rewrite Hoth.
Qed.

Lemma handleReferencedCold_spec fuel l c x (u : unit) c' :
  WF l c -> lruR c -> testG c -> hotS c -> x ∈ l ->
  flagOf LIR (pages c) x = false -> flagOf Referenced (pages c) x = true ->
  handleReferencedCold debugging fuel (Some x) c = Ok (u, c') ->
  exists l', WF l' c' /\ sweepR c c' /\ lruR c' /\ testG c' /\ hotS c'
    /\ (hotCount c <= capacity c - 1 -> hotCount c' <= capacity c' - 1)
    /\ kept c c'.
Proof.
  intros HWF HlruR HtG HhS Hx HL HRef Hrun.
  pose proof (wf_in _ _ HWF x Hx) as Hok.
  pose proof (wf_coldTarget _ _ HWF). pose proof (wf_hotTarget _ _ HWF).
  pose proof (wf_capacity _ _ HWF) as Hcap.
  pose proof (wf_length _ _ HWF). pose proof (wf_residents _ _ HWF).
  pose proof (WF_bounds _ _ HWF) as Hb.
  assert (flagOf Demoted (pages c) x = true -> 1 <= demotions c) as Hdem.
  { intros HD. rewrite (wf_demotions _ _ HWF). by eapply count_pos. }
  unfold handleReferencedCold in Hrun.
  apply bind_Ok in Hrun as (u1 & c1 & E1 & Hrun). mprim E1.
  apply bind_Ok in Hrun as (p & c2 & E2 & Hrun). mprim E2.
  apply bind_Ok in Hrun as (u3 & c3 & E3 & Hrun).
  unfold flagOf in HL, HRef, Hok, Hdem. rewrite Hm in HL, HRef, Hok, Hdem.
  assert (exists m3, metaOf (pages c3) x = Some m3 /\ Demoted m3 = false
    /\ Resident m3 = true /\ LIR m3 = false /\ Referenced m3 = false
    /\ Stacked m3 = Stacked (meta p)
    /\ WF l c3 /\ sweepR c c3 /\ lruR c3 /\ testG c3
    /\ hotS c3 /\ hotCount c3 = hotCount c
    /\ capacity c3 = capacity c /\ kept c c3) as Hpre.
  { proj. heap_simpl_in Hm0. rewrite decide_True, Hm in Hm0 by done.
    simpl in Hm0. destruct p as [pn pp pv mp]. simpl in *. simplify_eq.
    mrun E3.
    - run_of @decreaseColdTarget as ED.
      apply decreaseColdTarget_spec in ED as (ct & -> & Hct); [| done].
      proj. rewrite decr_small by (specialize (Hdem Heqb); lia).
      heap_simpl_in Hm0. rewrite decide_True, Hm in Hm0 by done.
      simpl in Hm0. simplify_eq.
      match goal with
      | |- exists m3, _ /\ _ /\ _ /\ _ /\ _ /\ _ /\ WF l ?s /\ _ =>
          assert (WF l s /\ sweepR c s /\ lruR s /\ testG s /\ kept c s)
            as (HWF3 & HR3 & Hl3 & Ht3 & Hk3)
      end.
      { eapply (touch_spec l c _ x m
                  (with_Demoted false (with_Referenced false m)));
          proj; try done; heap_facts;
          try (destruct m as [? [] [] [] [] ?]; simpl in *; try done; lia);
          try (left; done). }
      eexists. split; [heap_facts |].
      split_and!; try done;
        try (eapply (touch_hotS c _ x m
                       (with_Demoted false (with_Referenced false m)));
             proj; try done; heap_facts);
        try (destruct m as [? [] [] [] [] ?]; simpl in *; done).
    - match goal with
      | |- exists m3, _ /\ _ /\ _ /\ _ /\ _ /\ _ /\ WF l ?s /\ _ =>
          assert (WF l s /\ sweepR c s /\ lruR s /\ testG s /\ kept c s)
            as (HWF3 & HR3 & Hl3 & Ht3 & Hk3)
      end.
      { eapply (touch_spec l c _ x m (with_Referenced false m));
          proj; try done; heap_facts;
          try (destruct m as [? [] [] [] [] ?]; simpl in *; try done; lia);
          try (left; done). }
      eexists. split; [heap_facts |].
      split_and!; try done;
        try (eapply (touch_hotS c _ x m (with_Referenced false m));
             proj; try done; heap_facts);
        try (destruct m as [? [] [] [] [] ?]; simpl in *; done). }
  destruct Hpre as (m3 & Hm3 & HD3 & HR3 & HL3 & HRef3 & HS3 & HWF3 & HsR3
                    & HlruR3 & HtG3 & HhS3 & HhC3 & Hcap3 & Hk3).
  destruct (Stacked (meta p)).
  - destruct (promoteCold_spec _ _ _ _ _ _ _ HWF3 HtG3 HhS3 Hx Hm3 HR3 HL3
                HD3 Hrun)
      as (l' & HWF5 & HR5 & HlruR5 & HtG5 & HhS5 & Hle & Hk5).
    exists l'. split_and!; try done;
      [by eapply sweepR_trans | | by eapply kept_trans].
    intros _. pose proof (wf_coldTarget _ _ HWF5).
    pose proof (wf_hotTarget _ _ HWF5). lia.
  - mrun Hrun. run_of @moveToLRU as EM.
    match goal with
    | Hq : metaOf (pages c3) x = Some ?q |- _ =>
        rename q into m3; rename Hq into Hm3
    end.
    match type of EM with moveToLRU _ ?s = _ => set (c4 := s) in * end.
    assert (WF l c4 /\ sweepR c3 c4 /\ lruR c4 /\ testG c4 /\ kept c3 c4)
      as (HWF4 & HR4 & HlruR4 & HtG4 & Hk4).
    { eapply (touch_spec l c3 _ x m3 (with_Stacked true m3));
        subst c4; proj; try done; heap_facts;
        try (destruct m3 as [? [] [] [] [] ?]; simpl in *; try done; lia);
        try apply HWF3; try (left; done). }
    assert (hotS c4) as HhS4.
    { eapply (touch_hotS c3 _ x m3 (with_Stacked true m3)); subst c4; proj;
        try done; heap_facts. }
    assert (flagOf Resident (pages c4) x = true) as HRx.
    { subst c4; proj. flag_goal. }
    destruct (moveToLRU_spec _ _ _ _ _ HWF4 Hx EM) as (h' & -> & Hsm' & HWF5).
    destruct (moved_spec c4 x h' Hsm' HRx HtG4) as (HR5 & HlruR5 & HtG5 & HhS5).
    exists l. split_and!; try done; try (by apply HhS5).
    + eapply sweepR_trans; [done |]. by eapply sweepR_trans.
    + subst c4; proj. lia.
Qed.
End Promotion.

(** ** The cold hand *)

Section ColdHand.
Context {Key : Type} `{Countable Key} {Value : Type}.
Variable zero : Value.
Variable debugging : bool.
Local Abbreviation cache := (@Cache Key _ _ Value).
Implicit Types (c : cache) (i j x y : nat) (l : list nat) (r : ptr)
  (h : heap Key Value) (m : Metadata Key).
Local Open Scope Z_scope.

Lemma hotS_same_meta c h' :
  same_meta (pages c) h' -> hotS c -> hotS (set_pages h' c).
Proof.
  intros Hsm (z & Hz & HL). exists z. proj. split; [done |].
  by rewrite (flagOf_same_meta _ _ _ _ Hsm).
Qed.

Lemma sweepCold_loop_spec fuel : forall l c x rr c',
  WF l c -> lruR c -> testG c -> hotS c ->
  sweepCold_loop debugging fuel (Some x) c = Ok (rr, c') ->
  exists l' y, rr = Some y
    /\ WF l' c' /\ sweepR c c' /\ lruR c' /\ testG c' /\ hotS c'
    /\ flagOf LIR (pages c') y = false
    /\ flagOf Resident (pages c') y = true
    /\ flagOf Referenced (pages c') y = false
    /\ (hotCount c <= capacity c - 1 -> hotCount c' <= capacity c' - 1)
    /\ kept c c'.
Proof.
  induction fuel as [| fuel IH]; intros l c x rr c' HWF HlruR HtG HhS Hrun;
    [done |].
  simpl in Hrun. mrun Hrun.
  - (* the hand passes a hot page, a ghost or a page that was not used *)
    run_of @Next as EN.
    destruct (Next_cache _ _ _ _ _ HWF HlruR HtG EN)
      as (y & -> & HWF1 & HR1 & HlruR1 & HtG1 & Hsm & _ & _).
    pose proof (hotS_same_meta _ _ Hsm HhS) as HhS1.
    destruct (IH _ _ _ _ _ HWF1 HlruR1 HtG1 HhS1 Hrun)
      as (l' & z & -> & HWF3 & HR3 & HlruR3 & HtG3 & HhS3 & F1 & F2 & F3 & Hh
          & Hk3).
    exists l', z. split_and!; try done. by eapply sweepR_trans.
  - (* a cold page that was used *)
    run_of @Next as EN. run_of @handleReferencedCold as EH.
    destruct (Next_cache _ _ _ _ _ HWF HlruR HtG EN)
      as (y & -> & HWF1 & HR1 & HlruR1 & HtG1 & Hsm & _ & _).
    pose proof (hotS_same_meta _ _ Hsm HhS) as HhS1.
    apply orb_false_iff in Heqb0 as [HL HRf]. apply negb_false_iff in HRf.
    assert (flagOf LIR h x = false) as HL1.
    { by rewrite (flagOf_same_meta _ _ _ _ Hsm), (flagOf_Some _ _ _ _ Hm). }
    assert (flagOf Referenced h x = true) as HRf1.
    { by rewrite (flagOf_same_meta _ _ _ _ Hsm), (flagOf_Some _ _ _ _ Hm). }
    pose proof (WF_Referenced_in _ _ _ HWF1 HRf1) as Hx.
    destruct (handleReferencedCold_spec _ _ _ _ _ _ _ HWF1 HlruR1 HtG1 HhS1
                Hx HL1 HRf1 EH)
      as (l1 & HWF2 & HR2 & HlruR2 & HtG2 & HhS2 & Hh2 & Hk2).
    destruct (IH _ _ _ _ _ HWF2 HlruR2 HtG2 HhS2 Hrun)
      as (l' & z & -> & HWF3 & HR3 & HlruR3 & HtG3 & HhS3 & F1 & F2 & F3 & Hh
          & Hk3).
    exists l', z. split_and!; try done.
    + eapply sweepR_trans; [| done]. by eapply sweepR_trans.
    + intros Hle. apply Hh, Hh2. by proj.
    + eapply kept_trans; [| exact Hk3]. exact Hk2.
  - (* the hand stops *)
    exists l, x. rewrite !(flagOf_Some _ _ _ _ Hm).
    destruct (LIR (meta a)), (Resident (meta a)), (Referenced (meta a));
      try done; split_and!; try done; try apply sweepR_refl;
      try apply kept_refl.
Qed.

Lemma sweepCold_spec fuel l c (u : unit) c' :
  WF l c -> lruR c -> testG c -> hotL l c ->
  sweepCold debugging fuel c = Ok (u, c') ->
  exists l', WF l' c' /\ sweepR c c' /\ lruR c' /\ testG c' /\ hotL l' c'
    /\ (coldCount c <> 0 -> coldOK c' /\ hotS c')
    /\ (coldCount c = 0 -> c' = c)
    /\ (hotCount c <= capacity c - 1 -> hotCount c' <= capacity c' - 1)
    /\ kept c c'.
Proof.
  intros HWF HlruR HtG HhL Hrun. unfold sweepCold in Hrun. mrun Hrun.
  - apply Z.eqb_eq in Heqb. exists l.
    split_and!; try done; try apply sweepR_refl; try apply kept_refl.
  - apply Z.eqb_neq in Heqb. run_of @sweepCold_loop as EL.
    destruct HhL as [-> | HhS].
    { rewrite (wf_coldCount _ _ HWF) in Heqb. done. }
    destruct (cold c) as [x |] eqn:Hx;
      [| unfold sweepCold_loop in EL; destruct fuel; done].
    destruct (sweepCold_loop_spec _ _ _ _ _ _ HWF HlruR HtG HhS EL)
      as (l' & y & -> & HWF1 & HR1 & HlruR1 & HtG1 & HhS1 & F1 & F2 & F3 & Hh
          & Hk1).
    match goal with
    | |- context [WF _ (set_cold _ ?s)] =>
        assert (hotS (set_cold (Some y) s)) as HhS2
          by (destruct HhS1 as (z & ? & ?); by exists z)
    end.
    exists l'. split_and!; try done.
    + eapply WF_fields; [exact HWF1 | done.. | apply HWF1 | apply HWF1].
    + destruct HR1. constructor; done.
    + by right.
    + intros _. split; [| done]. by exists y.
Qed.
End ColdHand.

(** ** Eviction *)

Section Eviction.
Context {Key : Type} `{Countable Key} {Value : Type}.
Variable zero : Value.
Variable debugging : bool.
Local Abbreviation cache := (@Cache Key _ _ Value).
Implicit Types (c : cache) (i j x y : nat) (l : list nat) (r : ptr)
  (h : heap Key Value) (m : Metadata Key).
Local Open Scope Z_scope.

Lemma evictCold_spec fuel l c x (u : unit) c' :
  WF l c -> testG c -> hotS c ->
  cold c = Some x ->
  flagOf LIR (pages c) x = false -> flagOf Resident (pages c) x = true ->
  flagOf Referenced (pages c) x = false ->
  evictCold zero debugging fuel c = Ok (u, c') ->
  exists l', WF l' c' /\ testG c' /\ hotS c'
    /\ capacity c' = capacity c /\ hotCount c' = hotCount c
    /\ coldCount c' = coldCount c - 1 /\ testCount c' <= testCount c + 1
    /\ (length l' <= length l)%nat
    /\ (forall i, i ∈ l -> i <> x -> i ∈ l')
    /\ (forall i, i <> x -> metaOf (pages c') i = metaOf (pages c) i)
    /\ (forall k i, index c' !! k = Some i -> index c !! k = Some i)
    /\ kept c c'.
Proof.
  intros HWF HtG HhS Hcold HL HRs HRf Hrun.
  pose proof (WF_Resident_in _ _ _ HWF HRs) as Hx.
  pose proof (wf_in _ _ HWF x Hx) as Hok.
  pose proof (wf_coldTarget _ _ HWF). pose proof (wf_hotTarget _ _ HWF).
  pose proof (wf_capacity _ _ HWF) as Hcap.
  pose proof (wf_length _ _ HWF). pose proof (wf_residents _ _ HWF).
  pose proof (WF_bounds _ _ HWF) as Hb.
  assert (flagOf Demoted (pages c) x = true -> 1 <= demotions c) as Hdem.
  { intros HD. rewrite (wf_demotions _ _ HWF). by eapply count_pos. }
  destruct (WF_meta _ _ _ HWF Hx) as (m & Hm & _).
  unfold flagOf in HL, HRs, HRf, Hok, Hdem.
  rewrite Hm in HL, HRs, HRf, Hok, Hdem.
  assert (1 <= coldCount c) as Hc1.
  { rewrite (wf_coldCount _ _ HWF). eapply count_pos; [done |].
    rewrite (flagOf_Some _ _ _ _ Hm). unfold isCold. by rewrite HRs, HL. }
  unfold evictCold in Hrun.
  apply bind_Ok in Hrun as (c0 & c1 & Eg & Hrun). mprim Eg.
  cbv beta in Hrun. skip_debug Hrun. rewrite Hcold in Hrun.
  mstep Hrun. mstep Hrun. mstep Hrun. mstep Hrun. mstep Hrun. mstep Hrun.
  mstep Hrun.
  run_of @Next as EN.
  destruct (Next_shape _ _ _ _ _ (wf_shape _ _ HWF) EN)
    as (y & -> & Hsh & Hsm & Hin & _).
  rewrite (proj2 Hsm), Hm in Hm0. injection Hm0 as <-.
  heap_simpl_in Hm2. rewrite decide_True in Hm2 by done.
  rewrite (proj2 Hsm), Hm in Hm2. simpl in Hm2.
  destruct a2 as [pn pp pv mp]; simpl in *. injection Hm2 as <-. clear Hm1.
  rewrite decr_small, incr_small in Hrun by lia.
  mhold Hrun as E8. mstep Hrun. mhold Hrun as E10.
  match type of E10 with _ = Ok (_, ?s) => rename s into c6 end.
  assert (WF l (set_pages h c)) as HWF1 by (by apply WF_set_pages).
  assert (metaOf h x = Some m) as Hmh by (by rewrite (proj2 Hsm)).
  assert (exists m6, metaOf (pages c6) x = Some m6
    /\ Resident m6 = false /\ Stacked m6 = Stacked m
    /\ WF l c6 /\ testG c6 /\ hotS c6
    /\ capacity c6 = capacity c /\ hotCount c6 = hotCount c
    /\ coldCount c6 = coldCount c - 1 /\ testCount c6 = testCount c + 1
    /\ index c6 = index c /\ lru c6 = lru c
    /\ (forall i, i <> x -> metaOf (pages c6) i = metaOf (pages c) i))
    as Hpre.
  { exists (with_Demoted false (with_Resident false m)).
    assert (forall i, i <> x -> metaOf (pages c6) i = metaOf h i)
      as Hoth.
    { intros i Hne. mrun E8; mrun E10; heap_simpl;
        rewrite ?decide_False by done; done. }
    assert (metaOf (pages c6) x
            = Some (with_Demoted false (with_Resident false m))) as Hm6.
    { mrun E8; mrun E10; heap_simpl; rewrite ?decide_True by done;
        rewrite Hmh; simpl;
        destruct m as [? [] [] [] [] ?]; simpl in *; done. }
    assert (same_links h (pages c6)) as Hsl.
    { mrun E8; mrun E10; heap_facts. }
    assert (WF l c6) as HWF6.
    { eapply (WF_flags l (set_pages h c) c6 x m
                (with_Demoted false (with_Resident false m)));
        try done.
      all: mrun E8; mrun E10; proj;
        try rewrite decr_small by (specialize (Hdem ltac:(done)); lia);
        try (destruct m as [? [] [] [] [] ?]; simpl in *; try done; lia);
        try apply HWF; try done. }
    assert (hot c6 = hot c) as Hhot6 by (by mrun E8; mrun E10).
    assert (test c6 = test c \/ test c6 = Some x) as Htest6.
    { mrun E8; mrun E10; try (by left); by right. }
    split_and!; try done; try (by mrun E8; mrun E10).
    - unfold testG in *. destruct Htest6 as [-> | ->].
      + destruct (test c) as [t |]; [| done].
        destruct (decide (t = x)) as [-> | Hne].
        * by rewrite (flagOf_Some _ _ _ _ Hm6).
        * unfold flagOf in *. by rewrite Hoth, (proj2 Hsm).
      + by rewrite (flagOf_Some _ _ _ _ Hm6).
    - destruct HhS as (z & Hz & HLz). exists z. split; [congruence |].
      destruct (decide (z = x)) as [-> | Hne].
      + rewrite (flagOf_Some _ _ _ _ Hm) in HLz. congruence.
      + unfold flagOf in *. by rewrite Hoth, (proj2 Hsm).
    - intros i Hne. by rewrite Hoth, (proj2 Hsm). }
  destruct Hpre as (m6 & Hm6 & HRs6 & HSt6 & HWF6 & HtG6 & HhS6 & Hcap6 & Hh6
                    & Hc6 & Ht6 & Hidx6 & Hlru6 & Hoth6).
  clear E8 E10.
  cbn [Stacked with_Resident] in Hrun.
  destruct (Stacked m) eqn:HSt; simpl in Hrun.
  - mrun Hrun. exists l. split_and!; try done; try lia.
    + intros k i. by rewrite Hidx6.
    + apply kept_fields; [done | lia].
  - mhold Hrun as Eg. mprim Eg. mhold Hrun as E11.
    match type of E11 with _ = Ok (_, ?s) => rename s into c7 end.
    assert (exists h7 q, c7 = set_lru q (set_pages h7 c6)
      /\ same_meta (pages c6) h7 /\ shape h7 l /\ q <> Some x
      /\ match q with Some i => i ∈ l | None => l = [] end) as Hfix.
    { mrun E11.
      - run_of @Prev as EP.
        destruct (Prev_shape _ _ _ _ _ (wf_shape _ _ HWF6) EP)
          as (q & -> & Hsh7 & Hsm7 & Hq & _).
        destruct (Hq Hx) as [Hql Hqx].
        exists h0, (Some q). split_and!; try done.
        intros [= ->]. specialize (Hqx eq_refl).
        destruct HhS6 as (z & _ & HLz).
        pose proof (WF_LIR_in _ _ _ HWF6 HLz) as Hz. rewrite Hqx in Hz.
        apply list_elem_of_singleton in Hz as ->.
        rewrite (flagOf_Some _ _ _ _ Hm6) in HLz.
        pose proof (wf_in _ _ HWF6 x Hx) as Hok6.
        rewrite (flagOf_Some _ _ _ _ Hm6) in Hok6.
        destruct m6 as [? [] [] [] [] ?]; simpl in *; done.
      - apply bool_decide_eq_false in Heqb.
        exists (pages c6), (lru c6). split_and!.
        + by destruct c6.
        + apply same_meta_refl.
        + apply HWF6.
        + congruence.
        + apply HWF6. }
    destruct Hfix as (h7 & q & -> & Hsm7 & Hsh7 & Hq & Hql).
    assert (WF l (set_lru q (set_pages h7 c6))) as HWF7.
    { eapply WF_fields;
        [apply (WF_set_pages l c6 h7 HWF6 Hsm7 Hsh7) | done.. | done
        | apply HWF6]. }
    assert (flagOf Resident (pages (set_lru q (set_pages h7 c6))) x = false)
      as HRs7.
    { proj. by rewrite (flagOf_same_meta _ _ _ _ Hsm7),
        (flagOf_Some _ _ _ _ Hm6). }
    destruct (removeTest_spec _ _ _ _ _ _ HWF7 Hx HRs7 Hq Hrun)
      as (l' & t & h' & k & Hp & -> & Hsm' & HWF' & HtG').
    proj. exists l'. split_and!; try done; try lia.
    + destruct HhS6 as (z & Hz & HLz). exists z. proj. split; [done |].
      by rewrite (flagOf_same_meta _ _ _ _ Hsm'),
        (flagOf_same_meta _ _ _ _ Hsm7).
    + rewrite (Permutation_length Hp). simpl. lia.
    + intros i Hi Hne. rewrite Hp in Hi. set_solver.
    + intros i Hne. by rewrite (proj2 Hsm'), (proj2 Hsm7), Hoth6.
    + intros k' i [_ ?]%lookup_delete_Some. by rewrite <- Hidx6.
    + eapply kept_trans; [apply (kept_fields c c6); [done | lia] |].
      eapply kept_delete; proj; [done | lia].
Qed.
End Eviction.

(** ** Insertion of a new page *)

Section Insertion.
Context {Key : Type} `{Countable Key} {Value : Type}.
Variable zero : Value.
Variable debugging : bool.
Local Abbreviation cache := (@Cache Key _ _ Value).
Implicit Types (c : cache) (i j x y : nat) (l : list nat) (r : ptr)
  (h : heap Key Value) (m : Metadata Key) (rec : Ring Key Value).
Local Open Scope Z_scope.

(** The heap after [alloc]. *)
Lemma nextOf_app_old h rec i :
  (i < length h)%nat -> nextOf (h ++ [rec]) i = nextOf h i.
Proof. intros Hi. unfold nextOf. by rewrite lookup_app_l. Qed.

Lemma prevOf_app_old h rec i :
  (i < length h)%nat -> prevOf (h ++ [rec]) i = prevOf h i.
Proof. intros Hi. unfold prevOf. by rewrite lookup_app_l. Qed.

Lemma metaOf_app_old h rec i :
  (i < length h)%nat -> metaOf (h ++ [rec]) i = metaOf h i.
Proof. intros Hi. unfold metaOf. by rewrite lookup_app_l. Qed.

Lemma lookup_app_new h rec : (h ++ [rec]) !! length h = Some rec.
Proof. by rewrite lookup_app_r, Nat.sub_diag by lia. Qed.

Lemma nextOf_app_new h rec : nextOf (h ++ [rec]) (length h) = Some (next rec).
Proof. unfold nextOf. by rewrite lookup_app_new. Qed.

Lemma metaOf_app_new h rec : metaOf (h ++ [rec]) (length h) = Some (meta rec).
Proof. unfold metaOf. by rewrite lookup_app_new. Qed.

Lemma ring_at_ext h h' l :
  (forall i, i ∈ l -> nextOf h' i = nextOf h i /\ prevOf h' i = prevOf h i) ->
  ring_at h l -> ring_at h' l.
Proof.
  intros Hext [Hnd Hr]. split; [done |]. destruct l as [| x t]; [done |].
  destruct Hr as [Hs | [-> Hx]].
  - left. eapply seg_ext; [| | done].
    + intros i Hi. by apply Hext.
    + intros i Hi. apply Hext. set_solver.
  - right. split; [done |]. rewrite <- Hx. apply Hext. set_solver.
Qed.

Lemma fresh_not_in h l : shape h l -> length h ∉ l.
Proof. intros Hsh Hin. pose proof (shape_valid _ _ _ Hsh Hin). lia. Qed.

(** A page joins the ring. *)
Lemma WF_insert l c c' x m :
  WF l c -> x = length (pages c) ->
  shape (pages c') (x :: l) ->
  length (pages c') = S (length (pages c)) ->
  (forall i, (i < length (pages c))%nat ->
     metaOf (pages c') i = metaOf (pages c) i) ->
  metaOf (pages c') x = Some m -> flags_ok m = true ->
  hotCount c' = hotCount c + (if isHot m then 1 else 0) ->
  coldCount c' = coldCount c + (if isCold m then 1 else 0) ->
  testCount c' = testCount c + (if isTest m then 1 else 0) ->
  demotions c' = demotions c + (if Demoted m then 1 else 0) ->
  Z.of_nat (length l) < Int.max_int ->
  hotCount c' + coldCount c' <= capacity c' ->
  capacity c' = capacity c ->
  1 <= coldTarget c' <= capacity c' ÷ 2 ->
  hotTarget c' = capacity c' - coldTarget c' ->
  index c' = <[Name m := x]> (index c) ->
  match lru c' with Some i => i ∈ x :: l | None => False end ->
  match test c' with Some i => i ∈ x :: l | None => True end ->
  WF (x :: l) c'.
Proof.
  intros HWF -> Hsh Hlen Hold Hm Hok Hh' Hc' Ht' Hd' Hl' Hres' Hcap' Hct'
    Hht' Hidx' Hlru' Htest'.
  assert (forall i, i ∈ l -> metaOf (pages c') i = metaOf (pages c) i)
    as Hin'.
  { intros i Hi. apply Hold. by eapply WF_valid. }
  destruct HWF
    as [Hsh0 Hout Hin Hh Hc Ht Hd Hlen0 Hcap Hct Hht Hresb Hidx Hlru Htest].
  constructor; try done.
  - intros i Hi Hni. apply not_elem_of_cons in Hni as [Hne Hni].
    unfold flagOf. rewrite Hold by lia. apply Hout; [lia | done].
  - intros i [-> | Hi]%elem_of_cons.
    + by rewrite (flagOf_Some _ _ _ _ Hm).
    + unfold flagOf. rewrite Hin' by done. by apply Hin.
  - rewrite count_cons, (flagOf_Some _ _ _ _ Hm), (count_ext _ _ _ _ Hin').
    lia.
  - rewrite count_cons, (flagOf_Some _ _ _ _ Hm), (count_ext _ _ _ _ Hin').
    lia.
  - rewrite count_cons, (flagOf_Some _ _ _ _ Hm), (count_ext _ _ _ _ Hin').
    lia.
  - rewrite count_cons, (flagOf_Some _ _ _ _ Hm), (count_ext _ _ _ _ Hin').
    lia.
  - simpl length. lia.
  - by rewrite Hcap'.
  - intros k i. rewrite Hidx'.
    intros [[<- <-] | [Hne Hk]]%lookup_insert_Some.
    + split; [set_solver |]. by rewrite Hm.
    + destruct (Hidx k i Hk) as [Hi Hn]. split; [set_solver |].
      by rewrite Hin'.
  - by destruct (lru c').
Qed.

Lemma addToClock_spec l c rec x (u : unit) c2 :
  WF l c -> x = length (pages c) -> next rec = None ->
  addToClock (Some x) (set_pages (pages c ++ [rec]) c) = Ok (u, c2) ->
  exists h2 ho,
    c2 = set_index (<[Name (meta rec) := x]>)
           (set_lru (Some x) (set_hot ho (set_pages h2 c)))
    /\ (ho = hot c /\ l <> [] \/ ho = Some x /\ l = [])
    /\ shape h2 (x :: l) /\ same_meta (pages c ++ [rec]) h2.
Proof.
  intros HWF -> Hrec Hrun.
  pose proof (wf_shape _ _ HWF) as Hsh.
  pose proof (fresh_not_in _ _ Hsh) as Hfresh.
  pose proof (wf_lru _ _ HWF) as Hlru.
  unfold addToClock in Hrun. mrun Hrun.
  - (* the first page *)
    apply bool_decide_eq_true in Heqb. rewrite Heqb in Hlru. subst l.
    rewrite metaOf_app_new in Hm. injection Hm as <-.
    exists (pages c ++ [rec]), (Some (length (pages c))).
    split_and!; [done | by right | | apply same_meta_refl].
    split.
    + exists [length (pages c)]. split; [done |]. split.
      * apply NoDup_singleton.
      * right. split; [done |]. by rewrite nextOf_app_new, Hrec.
    + intros i Hi Hni. rewrite length_app in Hi. simpl in Hi.
      apply not_elem_of_cons in Hni as [Hne _].
      eapply link_ext; [apply nextOf_app_old | apply prevOf_app_old |];
        [lia.. |].
      apply Hsh; [lia | set_solver].
  - (* next to the most recently used page *)
    apply bool_decide_eq_false in Heqb. run_of @Link as EL.
    destruct (lru c) as [r0 |] eqn:Hr; [| done].
    destruct Hsh as [(l0 & Hp & Hring) Hout].
    edestruct (Link_shape (pages c ++ [rec]) l r0 (length (pages c)))
      as [Hsh2 Hsm2]; [| | | | | exact EL |]; try done.
    + exists l0. split; [done |]. eapply ring_at_ext; [| done].
      intros i Hi. pose proof (ring_at_valid _ _ _ Hring Hi).
      by rewrite nextOf_app_old, prevOf_app_old.
    + intros i Hi Hni Hne. rewrite length_app in Hi. simpl in Hi.
      eapply link_ext; [apply nextOf_app_old | apply prevOf_app_old |];
        [lia.. |].
      apply Hout; [lia | done].
    + right. by rewrite nextOf_app_new, Hrec.
    + rewrite (proj2 Hsm2), metaOf_app_new in Hm. injection Hm as <-.
      exists h, (hot c). split_and!; try done.
      left. split; [done |]. intros ->. set_solver.
Qed.

Lemma mul2_wrap (z : Z) :
  2 <= z <= Int.max_int ->
  (z < 2 ^ 62 -> Int.mul z 2 = 2 * z) /\ (2 ^ 62 <= z -> Int.mul z 2 < 0).
Proof.
  unfold Int.mul, Int.wrap, Int.max_int. intros Hz. split; intros Hc.
  - rewrite Z.mod_small by lia. lia.
  - replace (z * 2 + 2 ^ 63) with (z * 2 - 2 ^ 63 + 1 * 2 ^ 64) by lia.
    rewrite Z.mod_add by lia. rewrite Z.mod_small by lia. lia.
Qed.

Lemma pruneTest_loop_spec fuel : forall l c limit (u : unit) c',
  WF l c -> lruR c -> testG c -> hotL l c ->
  pruneTest_loop debugging fuel limit c = Ok (u, c') ->
  exists l', WF l' c' /\ lruR c' /\ testG c' /\ hotL l' c'
    /\ capacity c' = capacity c /\ hotCount c' = hotCount c
    /\ coldCount c' = coldCount c /\ testCount c' <= testCount c
    /\ hotCount c' + coldCount c' + testCount c' <= limit
    /\ (forall k i, index c' !! k = Some i -> index c !! k = Some i)
    /\ kept c c'.
Proof.
  induction fuel as [| fuel IH]; intros l c limit u c' HWF HlruR HtG HhL Hrun;
    [done |].
  pose proof (WF_bounds _ _ HWF) as Hb.
  pose proof (wf_length _ _ HWF) as Hlen.
  simpl in Hrun. mstep Hrun.
  rewrite (add_small (coldCount c) (hotCount c)) in Hrun by lia.
  rewrite add_small in Hrun by lia.
  destruct (limit <? coldCount c + hotCount c + testCount c) eqn:Hlim.
  - skip_debug Hrun. mhold Hrun as ER.
    destruct (test c) as [t |] eqn:Ht;
      [| unfold removeTest in ER; mrun ER; congruence].
    pose proof (wf_test _ _ HWF) as Htl. rewrite Ht in Htl.
    assert (flagOf Resident (pages c) t = false) as HRt.
    { unfold testG in HtG. by rewrite Ht in HtG. }
    assert (lru c <> Some t) as Hlru.
    { intros Hl. unfold lruR in HlruR. rewrite Hl in HlruR. congruence. }
    destruct (removeTest_spec _ _ _ _ _ _ HWF Htl HRt Hlru ER)
      as (l1 & t1 & h1 & k & Hp & -> & Hsm & HWF1 & HtG1).
    match type of HWF1 with WF _ ?s => set (c1 := s) in * end.
    assert (lruR c1) as HlruR1.
    { unfold lruR in *; subst c1; proj. destruct (lru c); [| done].
      by rewrite (flagOf_same_meta _ _ _ _ Hsm). }
    assert (hotL l1 c1) as HhL1.
    { right. destruct HhL as [-> | (z & Hz & HLz)]; [set_solver |].
      exists z. subst c1; proj. split; [done |].
      by rewrite (flagOf_same_meta _ _ _ _ Hsm). }
    destruct (IH _ _ _ _ _ HWF1 HlruR1 HtG1 HhL1 Hrun)
      as (l' & HWF2 & HlruR2 & HtG2 & HhL2 & Hcap2 & Hh2 & Hc2 & Ht2 & Hle
          & Hidx2 & Hkept2).
    subst c1; proj. exists l'. split_and!; try done; try lia.
    + intros k' i Hk. by apply Hidx2, lookup_delete_Some in Hk as [_ ?].
    + eapply kept_trans; [| exact Hkept2].
      eapply kept_delete; proj; [done | lia].
  - mrun Hrun. apply Z.ltb_ge in Hlim. exists l.
    split_and!; try done; try apply kept_refl; lia.
Qed.

Lemma addNew_spec fuel l c key value (u : unit) c' :
  WF l c -> testG c -> hotL l c ->
  hotCount c + coldCount c < capacity c ->
  hotCount c <= capacity c - 1 ->
  Z.of_nat (length l) < Int.max_int ->
  (0 < testCount c -> hotCount c + coldCount c + 1 = capacity c) ->
  addNew debugging fuel key value c = Ok (u, c') ->
  exists l', Inv l' c' /\ capacity c' = capacity c
    /\ hotCount c' + coldCount c' = hotCount c + coldCount c + 1
    /\ (index c !! key = None -> kept c c').
Proof.
  intros HWF HtG HhL Hroom Hhot Hlen Hgh Hrun.
  pose proof (WF_bounds _ _ HWF) as Hb.
  pose proof (wf_coldTarget _ _ HWF). pose proof (wf_hotTarget _ _ HWF).
  pose proof (wf_capacity _ _ HWF) as Hcap.
  unfold addNew in Hrun. mstep Hrun.
  set (lowIRR := (coldCount c =? 0) && (hotCount c <? hotTarget c)) in *.
  set (m0 := mkMetadata key lowIRR true false false true) in *.
  set (rec := mkRing None None value m0) in *.
  mstep Hrun. run_of @alloc as EA. unfold alloc in EA. injection EA as <- <-.
  mhold Hrun as EC.
  destruct (addToClock_spec _ _ rec _ _ _ HWF eq_refl eq_refl EC)
    as (h2 & ho & -> & Hho & Hsh2 & Hsm2).
  mhold Hrun as EI. mhold Hrun as ES.
  match type of EI with _ = Ok (_, ?s) => rename s into c3 end.
  match type of ES with _ = Ok (_, ?s) => rename s into c4 end.
  set (x := length (pages c)) in *.
  pose proof (eq_refl lowIRR) as Hlow. unfold lowIRR at 2 in Hlow.
  clearbody lowIRR.
  assert (metaOf h2 x = Some m0) as Hmx.
  { rewrite (proj2 Hsm2). apply metaOf_app_new. }
  assert (forall i, (i < length (pages c))%nat ->
            metaOf h2 i = metaOf (pages c) i) as Hold.
  { intros i Hi. rewrite (proj2 Hsm2). by apply metaOf_app_old. }
  assert (length h2 = S (length (pages c))) as Hlen2.
  { rewrite (proj1 Hsm2), length_app. simpl. lia. }
  assert (WF (x :: l) c3 /\ lruR c3 /\ testG c3 /\ hotS c3
    /\ capacity c3 = capacity c
    /\ hotCount c3 + coldCount c3 = hotCount c + coldCount c + 1
    /\ testCount c3 = testCount c
    /\ hotCount c3 <= capacity c3 - 1
    /\ (index c !! key = None -> kept c c3)) as Hpre.
  { assert (WF (x :: l) c3) as HWF3.
    { eapply (WF_insert l c c3 x m0); try done.
      all: destruct lowIRR; mrun EI; try done;
        rewrite ?incr_small by lia; subst m0; simpl; try lia;
        try (by left);
        try (pose proof (wf_test _ _ HWF); destruct (test c);
             [by right | done]). }
    assert (hotCount c3 + coldCount c3 = hotCount c + coldCount c + 1
            /\ hotCount c3 <= capacity c3 - 1) as [Hsum3 Hhc3].
    { pose proof Hlow as Hlow'. symmetry in Hlow'.
      destruct lowIRR; mrun EI; rewrite ?incr_small by lia.
      all: try apply andb_true_iff in Hlow' as [_ Hlt%Z.ltb_lt].
      all: split; lia. }
    assert (index c3 = <[key := x]> (index c)) as Hix3.
    { destruct lowIRR; mrun EI; done. }
    assert (pages c3 = h2 /\ lru c3 = Some x /\ test c3 = test c
            /\ hot c3 = ho /\ capacity c3 = capacity c
            /\ testCount c3 = testCount c) as (Hp3 & Hl3 & Ht3 & Hh3 & Hc3 & Htc3).
    { destruct lowIRR; mrun EI; done. }
    split_and!; try done.
    - unfold lruR. rewrite Hl3, Hp3. by rewrite (flagOf_Some _ _ _ _ Hmx).
    - unfold testG in *. rewrite Ht3, Hp3.
      pose proof (wf_test _ _ HWF) as Htl.
      destruct (test c) as [t |]; [| done].
      unfold flagOf in *. rewrite Hold; [done |]. by eapply WF_valid.
    - destruct Hho as [[-> Hne] | [-> ->]].
      + destruct HhL as [-> | (z & Hz & HLz)]; [done |].
        exists z. split; [congruence |]. rewrite Hp3.
        pose proof (WF_LIR_in _ _ _ HWF HLz) as Hzl.
        unfold flagOf in *. rewrite Hold; [done |]. by eapply WF_valid.
      + exists x. split; [congruence |]. rewrite Hp3.
        rewrite (flagOf_Some _ _ _ _ Hmx). subst m0; simpl.
        rewrite Hlow. pose proof (wf_hotCount _ _ HWF) as Hh0.
        pose proof (wf_coldCount _ _ HWF) as Hc0. simpl in Hh0, Hc0.
        rewrite Hh0, Hc0. simpl. apply Z.ltb_lt.
        pose proof (quot2_bounds (capacity c) ltac:(lia)). lia.
    - intros Hnone. apply (kept_insert c c3 key x); [done | done | lia].
  }
  pose proof (quot2_bounds (capacity c) ltac:(lia)).
  destruct Hpre as (HWF3 & HlruR3 & HtG3 & HhS3 & Hcap3 & Hsum3 & Htc3 & Hhc3
                    & Hkept3).
  destruct (sweepCold_spec _ _ _ _ _ _ HWF3 HlruR3 HtG3 (or_intror HhS3) ES)
    as (l4 & HWF4 & HR4 & HlruR4 & HtG4 & HhL4 & _ & _ & Hhc4 & Hkept4).
  specialize (Hhc4 Hhc3).
  unfold pruneTest in Hrun. mstep Hrun.
  destruct (pruneTest_loop_spec _ _ _ _ _ _ HWF4 HlruR4 HtG4 HhL4 Hrun)
    as (l5 & HWF5 & HlruR5 & HtG5 & HhL5 & Hcap5 & Hh5 & Hc5 & Ht5 & Hle5
        & Hidx5 & Hkept5).
  destruct HR4 as [Rcap Rres Rtest Ridx Rflag Rlen].
  pose proof (WF_bounds _ _ HWF5) as Hb5.
  pose proof (wf_capacity _ _ HWF4) as Hcap4.
  destruct (mul2_wrap _ Hcap4) as [Hsmall Hhuge].
  assert (capacity c4 < 2 ^ 62) as Hlt62 by lia.
  specialize (Hsmall Hlt62).
  exists l5. split_and!; try lia.
  - constructor; try done; try lia.
  - intros Hnone. eapply kept_trans; [exact (Hkept3 Hnone) |].
    by eapply kept_trans.
Qed.
End Insertion.

(** ** A miss on a ghost *)

Section Misses.
Context {Key : Type} `{Countable Key} {Value : Type}.
Variable zero : Value.
Variable debugging : bool.
Local Abbreviation cache := (@Cache Key _ _ Value).
Implicit Types (c : cache) (i j x y : nat) (l : list nat) (r : ptr)
  (h : heap Key Value) (m : Metadata Key) (rec : Ring Key Value).
Local Open Scope Z_scope.

Lemma promoteTest_spec fuel l c T value (u : unit) c' :
  WF l c -> testG c -> hotS c -> coldOK c ->
  T ∈ l -> flagOf Resident (pages c) T = false ->
  hotCount c + coldCount c = capacity c ->
  Z.of_nat (length l) <= 2 * capacity c -> capacity c < 2 ^ 62 ->
  promoteTest zero debugging fuel (Some T) value c = Ok (u, c') ->
  exists l', Inv l' c' /\ capacity c' = capacity c
    /\ hotCount c' + coldCount c' = hotCount c + coldCount c
    /\ kept c c'.
Proof.
  intros HWF HtG HhS (x & Hcold & HLx & HRx & HFx) HT HRT Hfull Hmeta Hsmall
    Hrun.
  pose proof (wf_capacity _ _ HWF) as Hcap.
  unfold promoteTest in Hrun. skip_debug Hrun.
  mhold Hrun as EI.
  apply increaseColdTarget_spec in EI as (ct & -> & Hct); [| done].
  pose proof (WF_targets _ _ _ HWF Hct) as HWF1.
  mhold Hrun as EE.
  match type of EE with _ = Ok (_, ?s) => rename s into c2 end.
  destruct (evictCold_spec _ _ _ _ _ x _ _ HWF1 HtG HhS Hcold HLx HRx HFx EE)
    as (l2 & HWF2 & HtG2 & HhS2 & Hcap2 & Hh2 & Hc2 & Ht2 & Hlen2 & Hkeep
        & Hoth2 & Hidx2 & Hkept2).
  proj.
  assert (T <> x) as HTx by (intros ->; congruence).
  pose proof (Hkeep _ HT HTx) as HT2.
  destruct (WF_meta _ _ _ HWF2 HT2) as (mT & HmT & HokT).
  assert (Resident mT = false) as HRmT.
  { rewrite <- HRT. unfold flagOf. rewrite <- (Hoth2 _ HTx), HmT. done. }
  pose proof (WF_bounds _ _ HWF2) as Hb2.
  pose proof (wf_length _ _ HWF2) as Hl2.
  assert (1 <= testCount c2) as Ht1.
  { rewrite (wf_testCount _ _ HWF2). eapply count_pos; [done |].
    rewrite (flagOf_Some _ _ _ _ HmT). unfold isTest. by rewrite HRmT. }
  mstep Hrun. mstep Hrun. mstep Hrun. mstep Hrun. mstep Hrun.
  rewrite decr_small, incr_small in Hrun by lia.
  mhold Hrun as ET. mhold Hrun as EP.
  match type of ET with _ = Ok (_, ?s) => rename s into c4 end.
  match type of EP with _ = Ok (_, ?s) => rename s into c5 end.
  match type of ET with when _ _ ?s = _ => set (c3 := s) in * end.
  clear Hm0. rename m into mT. rename Hm into HmT.
  assert (WF l2 c3) as HWF3.
  { eapply (WF_flags l2 c2 c3 T mT (with_Resident true mT)); subst c3; proj;
      try done; heap_facts;
      try (destruct mT as [? [] [] [] [] ?]; simpl in *; try done; lia);
      try apply HWF2. }
  assert (hotS c3) as HhS3.
  { destruct HhS2 as (z & Hz & HLz). exists z. subst c3; proj.
    split; [done |]. flag_goal. }
  assert (metaOf (pages c3) T = Some (with_Resident true mT)) as HmT3.
  { subst c3; proj. heap_facts. }
  assert (WF l2 c4 /\ testG c4 /\ hotS c4
    /\ metaOf (pages c4) T = Some (with_Resident true mT)
    /\ capacity c4 = capacity c /\ hotCount c4 = hotCount c
    /\ coldCount c4 = coldCount c /\ testCount c4 = testCount c2 - 1
    /\ index c4 = index c2)
    as (HWF4 & HtG4 & HhS4 & HmT4 & Hcap4 & Hh4 & Hc4 & Ht4 & Hix4).
  { mrun ET.
    - run_of @sweepTest as ES.
      destruct (sweepTest_spec _ _ _ _ _ HWF3 ES)
        as (t & h' & -> & Hsm & Hsh & HWF4 & HtG4).
      split_and!; try done; subst c3; proj; try lia; try done.
      + destruct HhS3 as (z & Hz & HLz). exists z. proj. split; [done |].
        by rewrite (flagOf_same_meta _ _ _ _ Hsm).
      + by rewrite (proj2 Hsm).
    - apply bool_decide_eq_false in Heqb.
      split_and!; try done; try (subst c3; proj; lia).
      unfold testG in *. subst c3; proj.
      destruct (test c2) as [t |]; [| done].
      assert (t <> T) by congruence. flag_goal. }
  assert (LIR (with_Resident true mT) = false
          /\ Demoted (with_Resident true mT) = false) as [HL4 HD4].
  { destruct mT as [? [] [] [] [] ?]; simpl in *; done. }
  destruct (promoteCold_spec _ _ _ _ _ _ _ _ HWF4 HtG4 HhS4 HT2 HmT4
              eq_refl HL4 HD4 EP)
    as (l5 & HWF5 & HR5 & HlruR5 & HtG5 & HhS5 & Hle5 & Hkept5).
  destruct (sweepCold_spec _ _ _ _ _ _ HWF5 HlruR5 HtG5 (or_intror HhS5) Hrun)
    as (l6 & HWF6 & HR6 & HlruR6 & HtG6 & HhL6 & _ & _ & Hhc6 & Hkept6).
  destruct HR5 as [Rcap5 Rres5 Rtest5 _ _ _].
  destruct HR6 as [Rcap6 Rres6 Rtest6 _ _ _].
  pose proof (WF_bounds _ _ HWF6) as Hb6.
  pose proof (wf_coldTarget _ _ HWF5). pose proof (wf_hotTarget _ _ HWF5).
  exists l6. split_and!; try lia.
  - constructor; try done; try lia.
  - eapply kept_trans; [exact Hkept2 |].
    eapply kept_trans; [apply (kept_fields c2 c4); [done | lia] |].
    by eapply kept_trans.
Qed.
End Misses.

(** ** The public calls keep the invariant *)

Section Calls.
Context {Key : Type} `{Countable Key} {Value : Type}.
Variable zero : Value.
Variable debugging : bool.
Variable Err : Type.
Local Abbreviation cache := (@Cache Key _ _ Value).
Implicit Types (c : cache) (i j x y : nat) (l : list nat) (r : ptr)
  (h : heap Key Value) (m : Metadata Key) (rec : Ring Key Value).
Local Open Scope Z_scope.

Lemma WF_empty l c : WF l c -> hotCount c + coldCount c + testCount c = 0 -> l = [].
Proof.
  intros HWF Hz. pose proof (WF_bounds _ _ HWF) as Hb.
  destruct l; [done |]. simpl in Hb. lia.
Qed.

Lemma handleMiss_spec fuel l c key value hadMetadata (u : unit) c' :
  Inv l c ->
  (hadMetadata = true ->
   forall i, index c !! key = Some i -> flagOf Resident (pages c) i = false) ->
  handleMiss zero debugging fuel key value hadMetadata c = Ok (u, c') ->
  exists l', Inv l' c' /\ capacity c' = capacity c
    /\ hotCount c' + coldCount c'
       = Z.min (capacity c) (hotCount c + coldCount c + 1)
    /\ (hadMetadata = true \/ index c !! key = None -> kept c c').
Proof.
  intros [HWF HlruR HhL HtG Hhc Hgh Hmd Hhuge] Hghost Hrun.
  pose proof (WF_bounds _ _ HWF) as Hb.
  pose proof (wf_capacity _ _ HWF) as Hcap.
  pose proof (wf_residents _ _ HWF) as Hres.
  unfold handleMiss in Hrun. mhold Hrun as EH. mhold Hrun as EC.
  match type of EC with _ = Ok (_, ?s) => rename s into c2 end.
  match type of EH with _ = Ok (_, ?s) => rename s into c1 end.
  assert (hotCount c <> 0 -> forall i, hot c = Some i -> i ∈ l) as Hhot.
  { intros Hne i Hi. destruct HhL as [-> | (z & Hz & HLz)].
    - rewrite (wf_hotCount _ _ HWF) in Hne. done.
    - rewrite Hi in Hz. injection Hz as ->. by eapply WF_LIR_in. }
  destruct (sweepHot_spec _ _ _ _ _ HWF HlruR HtG Hhot EH)
    as (l1 & HWF1 & HR1 & HlruR1 & HtG1 & Hh1 & HhS1 & Hsame1 & Hkept1).
  assert (hotL l1 c1) as HhL1.
  { destruct (decide (hotCount c = 0)) as [Hz | Hnz]; [| right; auto].
    left. rewrite (Hsame1 Hz) in HWF1. destruct HhL as [-> | (z & Hz' & HLz)].
    - apply (WF_empty _ _ HWF1). simpl in Hb. lia.
    - pose proof (WF_LIR_in _ _ _ HWF HLz) as Hzl.
      pose proof (count_pos isHot _ _ _ Hzl HLz) as Hpos.
      rewrite <- (wf_hotCount _ _ HWF) in Hpos. lia. }
  destruct (sweepCold_spec _ _ _ _ _ _ HWF1 HlruR1 HtG1 HhL1 EC)
    as (l2 & HWF2 & HR2 & HlruR2 & HtG2 & HhL2 & HcOK & _ & Hhc2 & Hkept2).
  destruct HR1 as [Rcap1 Rres1 Rtest1 Ridx1 Rflag1 _].
  destruct HR2 as [Rcap2 Rres2 Rtest2 Ridx2 Rflag2 _].
  specialize (Hhc2 ltac:(lia)).
  pose proof (WF_bounds _ _ HWF1) as Hb1.
  pose proof (WF_bounds _ _ HWF2) as Hb2.
  assert (Z.of_nat (length l2) <= Z.of_nat (length l)) as Hl2 by lia.
  mstep Hrun.
  destruct (if hadMetadata then index c2 !! key else None) as [T |] eqn:HT.
  - (* the key has a ghost *)
    destruct hadMetadata; [| done].
    destruct (wf_index _ _ HWF2 _ _ HT) as [HT2 _].
    assert (flagOf Resident (pages c2) T = false) as HRT.
    { rewrite Rflag2, Rflag1. by apply Hghost, Ridx1, Ridx2. }
    assert (1 <= testCount c2) as Ht2.
    { rewrite (wf_testCount _ _ HWF2). eapply count_pos; [done |].
      destruct (WF_meta _ _ _ HWF2 HT2) as (mT & HmT & _).
      unfold flagOf in *. rewrite HmT in *. unfold isTest. by rewrite HRT. }
    specialize (Hgh ltac:(lia)).
    assert (capacity c < 2 ^ 62) as Hsmall.
    { destruct (decide (capacity c < 2 ^ 62)) as [| Hge]; [done |].
      rewrite Hhuge in Hb by lia. simpl in Hb. lia. }
    destruct HcOK as [HcOK HhS2]; [lia |].
    destruct (promoteTest_spec _ _ _ _ _ _ _ _ _ HWF2 HtG2 HhS2 HcOK HT2 HRT
                ltac:(lia) ltac:(lia) ltac:(lia) Hrun)
      as (l' & HInv & Hcap' & Hsum' & Hkept').
    exists l'. split_and!; [done | lia | lia |].
    intros _. eapply kept_trans; [exact Hkept1 |]. by eapply kept_trans.
  - (* a key without metadata *)
    assert (hadMetadata = true \/ index c !! key = None ->
            index c2 !! key = None) as Hnone.
    { intros [-> | Hn]; [done |].
      destruct (index c2 !! key) as [i |] eqn:Hi; [| done].
      apply Ridx2, Ridx1 in Hi. congruence. }
    mhold Hrun as EA. unfold atCapacity in EA. mrun EA.
    rewrite add_small in Hrun by lia.
    mhold Hrun as EE.
    match type of EE with _ = Ok (_, ?s) => rename s into c3 end.
    assert (Z.of_nat (length l) < Int.max_int) as Hlmax.
    { destruct (decide (capacity c < 2 ^ 62)) as [| Hge].
      - unfold Int.max_int. lia.
      - rewrite Hhuge by lia. unfold Int.max_int. simpl. lia. }
    destruct (coldCount c2 + hotCount c2 =? capacity c2) eqn:Hfull.
    + apply Z.eqb_eq in Hfull. simpl in EE.
      destruct HcOK as [(x & Hx & HLx & HRx & HFx) HhS2]; [lia |].
      destruct (evictCold_spec _ _ _ _ _ _ _ _ HWF2 HtG2 HhS2 Hx HLx HRx HFx EE)
        as (l3 & HWF3 & HtG3 & HhS3 & Hcap3 & Hh3 & Hc3 & Ht3 & Hlen3 & _ & _
            & Hidx3 & Hkept3).
      destruct (addNew_spec _ _ _ _ _ _ _ _ HWF3 HtG3 (or_intror HhS3)
                  ltac:(lia) ltac:(lia) ltac:(lia) ltac:(lia) Hrun)
        as (l' & HInv & Hcap' & Hsum' & Hkept').
      exists l'. split_and!; [done | lia | lia |].
      intros Hn%Hnone. eapply kept_trans; [exact Hkept1 |].
      eapply kept_trans; [exact Hkept2 |].
      eapply kept_trans; [exact Hkept3 |]. apply Hkept'.
      destruct (index c3 !! key) as [i |] eqn:Hi; [| done].
      apply Hidx3 in Hi. congruence.
    + apply Z.eqb_neq in Hfull. simpl in EE. mprim EE.
      destruct (addNew_spec _ _ _ _ _ _ _ _ HWF2 HtG2 HhL2
                  ltac:(lia) ltac:(lia) ltac:(lia) ltac:(lia) Hrun)
        as (l' & HInv & Hcap' & Hsum' & Hkept').
      exists l'. split_and!; [done | lia | lia |].
      intros Hn%Hnone. eapply kept_trans; [exact Hkept1 |].
      eapply kept_trans; [exact Hkept2 |]. by apply Hkept'.
Qed.

(** A hit changes the flags or the value of one resident page. *)
Lemma Inv_touch l c c' x m m' :
  Inv l c -> x ∈ l ->
  metaOf (pages c) x = Some m -> metaOf (pages c') x = Some m' ->
  (forall i, i <> x -> metaOf (pages c') i = metaOf (pages c) i) ->
  same_links (pages c) (pages c') ->
  LIR m' = LIR m -> Resident m' = Resident m -> Name m' = Name m ->
  Demoted m' = Demoted m -> flags_ok m' = true ->
  demotions c' = demotions c ->
  hotCount c' = hotCount c -> coldCount c' = coldCount c ->
  testCount c' = testCount c -> capacity c' = capacity c ->
  coldTarget c' = coldTarget c -> hotTarget c' = hotTarget c ->
  index c' = index c -> test c' = test c -> lru c' = lru c ->
  hot c' = hot c ->
  Inv l c'.
Proof.
  intros [HWF HlruR HhL HtG Hhc Hgh Hmd Hhuge] Hx Hm Hm' Hoth Hsl HL HR HN
    HD Hok Hd Hh Hc Ht Hcap Hct Hht Hidx Htest Hlru Hhot.
  destruct (touch_spec l c c' x m m') as (HWF' & _ & HlruR' & HtG' & _);
    try done.
  - rewrite Hd, HD. destruct (Demoted m); lia.
  - rewrite Hcap, Hct. apply HWF.
  - rewrite Hcap, Hct, Hht. apply HWF.
  - by left.
  - constructor; try done; try lia.
    + destruct HhL as [-> | HhS]; [by left | right].
      by eapply (touch_hotS c c' x m m').
    + by rewrite <- Hcap in Hhuge.
Qed.

Lemma Get_spec l c key (res : Value * bool) c' :
  Inv l c -> Get zero key c = Ok (res, c') ->
  Inv l c' /\ capacity c' = capacity c
  /\ hotCount c' = hotCount c /\ coldCount c' = coldCount c
  /\ kept c c'.
Proof.
  intros HInv Hrun. unfold Get in Hrun. mrun Hrun;
    try (split_and!; [done.. | kept_goal]).
  destruct (wf_index _ _ (inv_wf _ _ HInv) _ _ Heqo) as [Hn _].
  split; [| split_and!; [done.. | kept_goal]].
  pose proof (wf_in _ _ (inv_wf _ _ HInv) _ Hn) as Hok.
  rewrite (flagOf_Some _ _ _ _ Hm) in Hok.
  eapply (Inv_touch l c _ n (meta a) (with_Referenced true (meta a)));
    proj; try done; heap_facts.
  destruct (meta a) as [? [] [] [] [] ?]; simpl in *; done.
Qed.

Lemma Set_spec fuel l c key value (u : unit) c' :
  Inv l c -> Set_ zero debugging fuel key value c = Ok (u, c') ->
  exists l', Inv l' c' /\ capacity c' = capacity c
    /\ hotCount c + coldCount c <= hotCount c' + coldCount c'
    /\ kept c c'.
Proof.
  intros HInv Hrun. unfold Set_ in Hrun. mstep Hrun.
  pose proof (wf_residents _ _ (inv_wf _ _ HInv)) as Hres.
  destruct (index c !! key) as [n |] eqn:Hidx.
  - mstep Hrun.
    match goal with
    | Hq : metaOf (pages c) n = Some (meta ?q) |- _ =>
        rename q into p; rename Hq into Hp
    end.
    destruct (Resident (meta p)) eqn:HR.
    + mrun Hrun. exists l. split; [| split_and!; [done.. | kept_goal]].
      destruct (wf_index _ _ (inv_wf _ _ HInv) _ _ Hidx) as [Hn _].
      pose proof (wf_in _ _ (inv_wf _ _ HInv) _ Hn) as Hok.
      rewrite (flagOf_Some _ _ _ _ Hp) in Hok.
      eapply (Inv_touch l c _ n (meta p) (with_Referenced true (meta p)));
        proj; try done; heap_facts.
      destruct (meta p) as [? [] [] [] [] ?]; simpl in *; done.
    + edestruct handleMiss_spec as (l' & HInv' & Hcap' & Hsum & Hkept');
        [exact HInv | | exact Hrun |].
      * intros _ i Hi. rewrite Hidx in Hi. injection Hi as <-.
        by rewrite (flagOf_Some _ _ _ _ Hp).
      * exists l'. split_and!; [done | done | lia | auto].
  - edestruct handleMiss_spec as (l' & HInv' & Hcap' & Hsum & Hkept');
      [exact HInv | | exact Hrun |]; [done |].
    exists l'. split_and!; [done | done | lia | auto].
Qed.

Lemma Load_spec fuel l c key (fetch : unit -> Value * option Err)
    (res : Value * option Err) c' :
  Inv l c -> Load zero debugging fuel key fetch c = Ok (res, c') ->
  exists l', Inv l' c' /\ capacity c' = capacity c
    /\ hotCount c + coldCount c <= hotCount c' + coldCount c'.
Proof.
  intros HInv Hrun. unfold Load in Hrun. mhold Hrun as EG.
  destruct (Get_spec _ _ _ _ _ HInv EG) as (HInv1 & Hcap1 & Hh1 & Hc1 & _).
  pose proof (wf_residents _ _ (inv_wf _ _ HInv1)) as Hres.
  destruct (snd a).
  - mrun Hrun. exists l. split_and!; [done | done | lia].
  - destruct (fetch tt) as [v [e |]].
    + mrun Hrun. exists l. split_and!; [done | done | lia].
    + mhold Hrun as EM. mrun Hrun.
      edestruct handleMiss_spec as (l' & HInv' & Hcap' & Hsum & _);
        [exact HInv1 | | exact EM |]; [done |].
      exists l'. split_and!; [done | lia | lia].
Qed.

Lemma exec_spec fuel (o : op Err) l c (u : unit) c' :
  Inv l c -> exec zero debugging Err fuel o c = Ok (u, c') ->
  exists l', Inv l' c' /\ capacity c' = capacity c
    /\ hotCount c + coldCount c <= hotCount c' + coldCount c'.
Proof.
  intros HInv Hrun. destruct o as [key | key value | key fetch]; simpl in Hrun.
  - mhold Hrun as EG. mrun Hrun.
    destruct (Get_spec _ _ _ _ _ HInv EG) as (HInv1 & Hcap1 & Hh1 & Hc1 & _).
    exists l. split_and!; [done | done | lia].
  - destruct (Set_spec _ _ _ _ _ _ _ HInv Hrun) as (l' & ? & ? & ? & _).
    by exists l'.
  - mhold Hrun as EL. mrun Hrun. by eapply Load_spec.
Qed.
End Calls.

Local Open Scope Z_scope.

(** ** Reachable caches *)

(** ** The initial targets *)

Lemma to_int_max_one (x : Float64.t) :
  1 <= Float64.to_int (Float64.max x Float64.one).
Proof.
  unfold Float64.max. destruct (Float64.ltb x Float64.one) eqn:E; [done |].
  unfold Float64.ltb in E. apply Z.ltb_ge in E. simpl in E.
  unfold Float64.to_int. destruct (0 <=? Float64.expo x) eqn:He.
  - apply Z.leb_le in He. rewrite Z.min_r in E by done.
    rewrite !Z.sub_0_r in E. by change (1 ≪ 0) with 1 in E.
  - apply Z.leb_gt in He. rewrite Z.min_l in E by lia.
    rewrite Z.sub_diag, Z.shiftl_0_r in E.
    rewrite Z.shiftl_1_l, Z.sub_0_l in E.
    rewrite Z.shiftr_div_pow2 by lia.
    apply Z.div_le_lower_bound; lia.
Qed.

Section Reach.
Context {Key : Type} `{Countable Key} {Value : Type}.
Variable zero : Value.
Variable debugging : bool.
Variable Err : Type.
Local Abbreviation cache := (@Cache Key _ _ Value).
Implicit Types (c : cache) (i j x y : nat) (l : list nat) (r : ptr)
  (h : heap Key Value) (m : Metadata Key) (rec : Ring Key Value).

Lemma New_Inv (capacity : Z) c :
  capacity <= Int.max_int -> New capacity = inl c ->
  Inv [] c /\ clockpro.capacity c = capacity.
Proof.
  intros Hmax Hnew. unfold New in Hnew.
  destruct (capacity <? MinimumCapacity) eqn:Hmin; [done |].
  apply Z.ltb_ge in Hmin. unfold MinimumCapacity in Hmin.
  injection Hnew as <-. split; [| done].
  pose proof (to_int_max_one
    (Float64.mul (Float64.of_int capacity) Float64.cold_ratio)) as Hone.
  pose proof (quot2_bounds capacity Hmin) as Hq.
  set (ct := Z.min _ (capacity ÷ 2)) in *.
  assert (1 <= ct <= capacity ÷ 2) as Hct by (unfold ct; lia).
  assert (Int.sub capacity ct = capacity - ct) as Hsub.
  { apply wrap_small. unfold Int.in_range, Int.min_int, Int.max_int in *.
    lia. }
  rewrite Hsub.
  constructor; proj; try done; try lia.
  - constructor; proj; try done; try lia.
    + split.
      * exists []. split; [done |]. split; [apply NoDup_nil_2 | done].
      * intros i Hi. simpl in Hi. lia.
    + intros i Hi. simpl in Hi. lia.
    + intros i Hi. set_solver.
  - by left.
  - simpl. lia.
Qed.

Lemma reachable_Inv (capacity : Z) c :
  capacity <= Int.max_int ->
  reachable zero debugging Err capacity c ->
  exists l, Inv l c /\ clockpro.capacity c = capacity.
Proof.
  intros Hmax Hreach. induction Hreach as [c Hnew | c c' _ IH Hstep].
  - exists []. by apply New_Inv.
  - destruct IH as (l & HInv & Hcap). destruct Hstep as (fuel & o & Hrun).
    destruct (exec_spec _ _ _ _ _ _ _ _ _ HInv Hrun) as (l' & HInv' & Hcap' & _).
    exists l'. split; [done | congruence].
Qed.

(** Calls that return lead from reachable caches to reachable caches. *)
Lemma run_reachable (capacity : Z) fuel (ops : list (op Err)) : forall c u c',
  reachable zero debugging Err capacity c ->
  run zero debugging Err fuel ops c = Ok (u, c') ->
  reachable zero debugging Err capacity c'.
Proof.
  induction ops as [| o ops IH]; intros c u c' Hreach Hrun; simpl in Hrun.
  - unfold ret in Hrun. by simplify_eq.
  - apply bind_Ok in Hrun as ([] & c1 & E & Hrun).
    eapply IH; [| done]. eapply reachable_step; [done |]. by exists fuel, o.
Qed.

Lemma after_reachable (capacity : Z) fuel (ops : list (op Err)) c :
  after zero debugging Err capacity fuel ops = Ok c ->
  reachable zero debugging Err capacity c.
Proof.
  unfold after. destruct (New capacity) as [c0 | e] eqn:Hnew; [| done].
  destruct (run zero debugging Err fuel ops c0) as [[u c1] | |] eqn:Hrun;
    [| done..].
  intros [= <-]. eapply run_reachable; [| done]. by constructor.
Qed.

(** Public calls never make the resident set smaller. *)
Lemma steps_Inv c c' l :
  Inv l c -> rtc (step zero debugging Err) c c' ->
  exists l', Inv l' c' /\ capacity c' = capacity c
    /\ hotCount c + coldCount c <= hotCount c' + coldCount c'.
Proof.
  intros HInv Hsteps. revert l HInv.
  induction Hsteps as [c | c c1 c' (fuel & o & Hrun) _ IH]; intros l HInv.
  - exists l. split_and!; [done | done | lia].
  - destruct (exec_spec _ _ _ _ _ _ _ _ _ HInv Hrun)
      as (l1 & HInv1 & Hcap1 & Hsum1).
    destruct (IH _ HInv1) as (l' & HInv' & Hcap' & Hsum').
    exists l'. split_and!; [done | congruence | lia].
Qed.

(** ** The ring as the code walks it *)

Lemma ring_walk_seg h start : forall t x n,
  seg h x t start -> start ∉ t -> (length t < n)%nat ->
  ring_walk h n start x = x :: t.
Proof.
  induction t as [| y t IH]; intros x n Hseg Hst Hn;
    (destruct n as [| n]; [simpl in Hn; lia |]); simpl in *.
  - destruct Hseg as [-> _]. by rewrite decide_True.
  - destruct Hseg as [[-> _] Hseg].
    rewrite decide_False by set_solver. f_equal.
    apply IH; [done | set_solver | lia].
Qed.

Lemma NoDup_bounded_length (l : list nat) (n : nat) :
  NoDup l -> (forall i, i ∈ l -> (i < n)%nat) -> (length l <= n)%nat.
Proof.
  intros Hnd Hb.
  assert (l ⊆+ seq 0 n) as Hsub.
  { apply NoDup_submseteq; [done |]. intros i Hi. apply elem_of_seq.
    specialize (Hb i Hi). lia. }
  apply submseteq_length in Hsub. by rewrite length_seq in Hsub.
Qed.

Lemma ring_pages_perm l c : WF l c -> ring_pages c ≡ₚ l.
Proof.
  intros HWF. pose proof (wf_lru _ _ HWF) as Hlru. unfold ring_pages.
  destruct (lru c) as [i |]; [| by subst l].
  destruct (wf_shape _ _ HWF) as [(l0 & Hp & Hring) _].
  rewrite <- Hp in Hlru.
  destruct (ring_at_focus _ _ _ Hring Hlru) as (t & Hpt & [Hnd Hr]).
  rewrite <- Hp, <- Hpt.
  assert ((length (i :: t) <= length (pages c))%nat) as Hlen.
  { apply NoDup_bounded_length; [done |]. intros j Hj.
    eapply ring_at_valid; [done |]. by rewrite <- Hpt. }
  apply NoDup_cons in Hnd as [Hit _].
  destruct Hr as [Hseg | [-> Hnil]].
  - erewrite ring_walk_seg; [done | done | done |]. simpl in Hlen. lia.
  - simpl in Hlen. destruct (length (pages c)) as [| n]; [lia |].
    simpl. by rewrite Hnil.
Qed.

Lemma count_filter f h l :
  count f h l
  = Z.of_nat (length (filter (fun i => flagOf f h i = true) l)).
Proof.
  induction l as [| x l IH]; [done |].
  rewrite count_cons, filter_cons, IH.
  destruct (flagOf f h x); simpl; lia.
Qed.

Lemma ring_count_WF f l c : WF l c -> ring_count f c = count f (pages c) l.
Proof.
  intros HWF. unfold ring_count. rewrite <- count_filter.
  apply count_perm. by apply ring_pages_perm.
Qed.
End Reach.

(** ** Rounding to 53 bits *)

(** ** Rounding to 53 bits *)

Lemma round_spec (m e : Z) :
  0 < m -> 0 < Z.log2 m - 52 ->
  exists q, Float64.round m e = Float64.mk q (e + (Z.log2 m - 52))
    /\ m / 2 ^ (Z.log2 m - 52) <= q
    /\ q * 2 ^ (Z.log2 m - 52) <= m + 2 ^ (Z.log2 m - 52 - 1).
Proof.
  intros Hm Hs. unfold Float64.round. set (s := Z.log2 m - 52) in *.
  destruct (s <=? 0) eqn:Hle; [apply Z.leb_le in Hle; lia |]. clear Hle.
  rewrite Z.shiftr_div_pow2, Z.shiftl_mul_pow2, Z.shiftl_1_l by lia.
  set (P := 2 ^ s). set (q := m / P). set (half := 2 ^ (s - 1)).
  assert (P = 2 * half) as HP.
  { unfold P, half. replace s with (Z.succ (s - 1)) at 1 by lia.
    rewrite Z.pow_succ_r by lia. done. }
  assert (0 < half) as Hhalf by (apply Z.pow_pos_nonneg; lia).
  pose proof (Z.div_mod m P ltac:(lia)) as Hdm.
  pose proof (Z.mod_pos_bound m P ltac:(lia)) as Hmod.
  fold q in Hdm.
  destruct (m - q * P <? half) eqn:H1; [exists q; split_and!; [done | lia | lia] |].
  apply Z.ltb_ge in H1.
  destruct (half <? m - q * P) eqn:H2;
    [exists (q + 1); split_and!; [done | lia | lia] |].
  destruct (Z.even q);
    [exists q; split_and!; [done | lia | lia]
    | exists (q + 1); split_and!; [done | lia | lia]].
Qed.

(** Up to [2^53] the cold target of [New] is one hundredth of the capacity,
    but at least one. *)
Lemma coldInitial_small (c : Z) :
  2 <= c < 2 ^ 53 ->
  Float64.to_int
    (Float64.max (Float64.mul (Float64.of_int c) Float64.cold_ratio)
       Float64.one)
  = Z.max 1 (c / 100).
Proof.
  intros Hc.
  assert (Float64.of_int c = Float64.mk c 0) as ->.
  { unfold Float64.of_int, Float64.round.
    assert (Z.log2 c < 53) by (apply Z.log2_lt_pow2; lia).
    destruct (Z.log2 c - 52 <=? 0) eqn:Hle; [done |].
    apply Z.leb_gt in Hle. lia. }
  unfold Float64.mul, Float64.cold_ratio. simpl Float64.mant.
  simpl Float64.expo.
  set (K := 5764607523034235). set (m := c * K).
  assert (0 < m) as Hm by (unfold m, K; lia).
  assert (53 <= Z.log2 m) as Hlo.
  { apply Z.log2_le_pow2; [done |]. unfold m, K. lia. }
  assert (Z.log2 m < 106) as Hhi.
  { apply Z.log2_lt_pow2; [done |]. unfold m, K.
    change (2 ^ 106) with (2 ^ 53 * 2 ^ 53). nia. }
  destruct (round_spec m (0 + -59) Hm ltac:(lia)) as (q & -> & Hq1 & Hq2).
  set (s := Z.log2 m - 52) in *.
  set (P := 2 ^ s) in *. set (Q := 2 ^ (59 - s)).
  assert (P * Q = 2 ^ 59) as HPQ.
  { unfold P, Q. rewrite <- Z.pow_add_r by lia. f_equal. lia. }
  assert (0 < P) as HP by (apply Z.pow_pos_nonneg; lia).
  assert (0 < Q) as HQ by (apply Z.pow_pos_nonneg; lia).
  assert (2 * 2 ^ (s - 1) = P) as Hhalf.
  { unfold P. replace s with (Z.succ (s - 1)) at 2 by lia.
    rewrite Z.pow_succ_r by lia. done. }
  assert (P <= 2 ^ 53) as HPmax.
  { unfold P. apply Z.pow_le_mono_r; lia. }
  set (n := c / 100).
  pose proof (Z.div_mod c 100 ltac:(lia)) as Hdm. fold n in Hdm.
  pose proof (Z.mod_pos_bound c 100 ltac:(lia)) as Hmod.
  assert (0 <= n) as Hn by (apply Z.div_pos; lia).
  assert (n * Q <= q) as Hlow.
  { etrans; [| exact Hq1]. apply Z.div_le_lower_bound; [done |].
    unfold m, K in *. nia. }
  assert (q < (n + 1) * Q) as Hup.
  { apply (Z.mul_lt_mono_pos_r P); [done |].
    unfold m, K in *. nia. }
  assert (q / Q = n) as Hdiv.
  { symmetry. apply (Z.div_unique q Q n (q - n * Q)); lia. }
  unfold Float64.max, Float64.ltb, Float64.one. simpl Float64.mant.
  simpl Float64.expo.
  rewrite Z.min_l by lia.
  replace (0 + -59 + s - (0 + -59 + s)) with 0 by lia.
  replace (0 - (0 + -59 + s)) with (59 - s) by lia.
  rewrite Z.shiftl_0_r, Z.shiftl_1_l. fold Q.
  destruct (q <? Q) eqn:Hlt.
  - apply Z.ltb_lt in Hlt.
    assert (n = 0) as -> by nia. done.
  - apply Z.ltb_ge in Hlt. unfold Float64.to_int. simpl Float64.mant.
    simpl Float64.expo.
    destruct (0 <=? 0 + -59 + s) eqn:He; [apply Z.leb_le in He; lia |].
    replace (- (0 + -59 + s)) with (59 - s) by lia.
    rewrite Z.shiftr_div_pow2 by lia. fold Q. rewrite Hdiv.
    assert (1 <= n) by nia. lia.
Qed.

(** ** The invariants of the specification *)

Section Invariants.
Context {Key : Type} `{Countable Key} {Value : Type}.
Variable zero : Value.
Variable debugging : bool.
Variable Err : Type.
Local Abbreviation cache := (@Cache Key _ _ Value).

(** C4.  After [New(capacity)] and any sequence of public calls that
    returned, [Len()] is [hotCount + coldCount] and at most the capacity;
    and once [hotCount + coldCount] has reached the capacity (state [c]),
    it is the capacity after every later call (state [c']). *)
Theorem Len_bounded_and_sticky (capacity : Z) (c c' : cache) :
  Int.in_range capacity ->
  reachable zero debugging Err capacity c ->
  rtc (step zero debugging Err) c c' ->
  Len c' = hotCount c' + coldCount c'
  /\ Len c' <= capacity
  /\ (hotCount c + coldCount c = capacity ->
      hotCount c' + coldCount c' = capacity).
Proof.
  intros [_ Hmax] Hreach Hsteps.
  destruct (reachable_Inv _ _ _ _ _ Hmax Hreach) as (l & HInv & Hcap).
  destruct (steps_Inv _ _ _ _ _ _ HInv Hsteps) as (l' & HInv' & Hcap' & Hsum).
  pose proof (WF_bounds _ _ (inv_wf _ _ HInv')) as Hb.
  pose proof (wf_residents _ _ (inv_wf _ _ HInv')) as Hres.
  pose proof (wf_capacity _ _ (inv_wf _ _ HInv')) as Hc.
  unfold Len. rewrite add_small by lia. split_and!; lia.
Qed.

(** C5.  In every reachable state the pages with metadata, resident or
    not, are at most twice the capacity. *)
Theorem metadata_bound (capacity : Z) (c : cache) :
  Int.in_range capacity ->
  reachable zero debugging Err capacity c ->
  hotCount c + coldCount c + testCount c <= 2 * capacity.
Proof.
  intros [_ Hmax] Hreach.
  destruct (reachable_Inv _ _ _ _ _ Hmax Hreach) as (l & HInv & Hcap).
  pose proof (WF_bounds _ _ (inv_wf _ _ HInv)) as Hb.
  pose proof (inv_metadata _ _ HInv). lia.
Qed.

(** C6 (as amended).  In every reachable state
    [1 <= coldTarget <= capacity/2] and [hotTarget = capacity - coldTarget];
    and for a capacity below [2^53] the cold target of the cache that
    [New(capacity)] returns is [max(1, min(capacity/100, capacity/2))]. *)
Theorem targets_in_range (capacity : Z) (c : cache) :
  Int.in_range capacity ->
  reachable zero debugging Err capacity c ->
  (1 <= coldTarget c <= capacity / 2
   /\ hotTarget c = capacity - coldTarget c)
  /\ (capacity < 2 ^ 53 -> New capacity = inl c ->
      coldTarget c = Z.max 1 (Z.min (capacity / 100) (capacity / 2))).
Proof.
  intros [_ Hmax] Hreach.
  destruct (reachable_Inv _ _ _ _ _ Hmax Hreach) as (l & HInv & Hcap).
  pose proof (wf_capacity _ _ (inv_wf _ _ HInv)) as Hc.
  pose proof (wf_coldTarget _ _ (inv_wf _ _ HInv)) as Hct.
  pose proof (wf_hotTarget _ _ (inv_wf _ _ HInv)) as Hht.
  rewrite Z.quot_div_nonneg in Hct by lia. rewrite Hcap in *.
  split; [done |]. intros Hsmall Hnew. unfold New in Hnew.
  destruct (capacity <? MinimumCapacity); [done |].
  injection Hnew as <-. proj.
  rewrite coldInitial_small by lia. rewrite Z.quot_div_nonneg by lia.
  assert (0 <= capacity / 100) by (apply Z.div_pos; lia).
  assert (1 <= capacity / 2) by (apply Z.div_le_lower_bound; lia).
  lia.
Qed.

(** C10.  In every reachable state the [demotions] counter is the number
    of pages linked in the ring whose [Demoted] flag is set. *)
Theorem demotions_counts_demoted (capacity : Z) (c : cache) :
  Int.in_range capacity ->
  reachable zero debugging Err capacity c ->
  demotions c = ring_count Demoted c.
Proof.
  intros [_ Hmax] Hreach.
  destruct (reachable_Inv _ _ _ _ _ Hmax Hreach) as (l & HInv & Hcap).
  rewrite (ring_count_WF _ _ _ (inv_wf _ _ HInv)).
  apply (wf_demotions _ _ (inv_wf _ _ HInv)).
Qed.
End Invariants.

Lemma in_range_small (z : Z) : -1000 <= z <= 1000 -> Int.in_range z.
Proof. unfold Int.in_range, Int.min_int, Int.max_int. lia. Qed.

Lemma Len_bounded_and_sticky_witness :
  Int.in_range 2
  /\ reachable 0 false unit 2 (state_after false 2 8 fillTwo)
  /\ rtc (step 0 false unit) (state_after false 2 8 fillTwo)
       (state_after false 2 8 (fillTwo ++ [OpSet 3 3]))
  /\ Len (state_after false 2 8 (fillTwo ++ [OpSet 3 3])) = 2.
Proof.
  assert (Int.in_range 2) as Hr by (apply in_range_small; lia).
  assert (reachable 0 false unit 2 (state_after false 2 8 fillTwo)) as Hc.
  { apply (after_reachable 0 false unit 2 8 fillTwo). by vm_compute. }
  assert (rtc (step 0 false unit) (state_after false 2 8 fillTwo)
            (state_after false 2 8 (fillTwo ++ [OpSet 3 3]))) as Hs.
  { apply rtc_once. exists 8%nat, (OpSet 3 3). by vm_compute. }
  split_and!; [done.. |].
  destruct (Len_bounded_and_sticky 0 false unit 2 _ _ Hr Hc Hs)
    as (HLen & Hle & Hfull).
  rewrite HLen. apply Hfull. by vm_compute.
Defined.

Lemma metadata_bound_witness :
  Int.in_range 3
  /\ reachable 0 false unit 3 (state_after false 3 8 demoting)
  /\ hotCount (state_after false 3 8 demoting)
     + coldCount (state_after false 3 8 demoting)
     + testCount (state_after false 3 8 demoting) <= 2 * 3.
Proof.
  assert (Int.in_range 3) as Hr by (apply in_range_small; lia).
  assert (reachable 0 false unit 3 (state_after false 3 8 demoting)) as Hc.
  { apply (after_reachable 0 false unit 3 8 demoting). by vm_compute. }
  split_and!; [done.. |].
  exact (metadata_bound 0 false unit 3 _ Hr Hc).
Defined.

Lemma targets_in_range_witness :
  Int.in_range 300
  /\ reachable 0 false unit 300 (state_after false 300 8 [])
  /\ coldTarget (state_after false 300 8 []) = 3
  /\ hotTarget (state_after false 300 8 []) = 297.
Proof.
  assert (Int.in_range 300) as Hr by (apply in_range_small; lia).
  assert (reachable 0 false unit 300 (state_after false 300 8 [])) as Hc.
  { apply (after_reachable 0 false unit 300 8 []). by vm_compute. }
  split_and!; [done.. | |];
    destruct (targets_in_range 0 false unit 300 _ Hr Hc) as [[Hct Hht] Hnew].
  - rewrite Hnew; [done | lia | by vm_compute].
  - rewrite Hht, Hnew; [done | lia | by vm_compute].
Defined.

Lemma New_coldTarget_as_claimed_fails :
  exists c : icache,
    New (2 ^ 62) = inl c
    /\ coldTarget c <> Z.max 1 (Z.min (2 ^ 62 / 100) (2 ^ 62 / 2)).
Proof. eexists. split; [by vm_compute |]. by vm_compute. Qed.

Lemma demotions_counts_demoted_witness :
  Int.in_range 3
  /\ reachable 0 false unit 3 (state_after false 3 8 demoting)
  /\ ring_count Demoted (state_after false 3 8 demoting) = 1.
Proof.
  assert (Int.in_range 3) as Hr by (apply in_range_small; lia).
  assert (reachable 0 false unit 3 (state_after false 3 8 demoting)) as Hc.
  { apply (after_reachable 0 false unit 3 8 demoting). by vm_compute. }
  split_and!; [done.. |].
  rewrite <- (demotions_counts_demoted 0 false unit 3 _ Hr Hc). by vm_compute.
Defined.

Local Close Scope Z_scope.

(** ** Runs with more fuel, and a call that does not return *)

Lemma refines_refl {A} (r : result A) : refines r r.
Proof. by right. Qed.

Lemma refines_timeout {A} (r : result A) : refines OutOfFuel r.
Proof. by left. Qed.

Lemma refines_Ok {A} (r r' : result A) (a : A) :
  refines r r' -> r = Ok a -> r' = Ok a.
Proof. intros [-> | ->]; [done | done]. Qed.

Lemma bind_refines {S A B} (m m' : M S A) (k k' : A -> M S B) (s : S) :
  refines (m s) (m' s) ->
  (forall a s1, refines (k a s1) (k' a s1)) ->
  refines (bind m k s) (bind m' k' s).
Proof.
  intros [E | E] Hk; unfold bind; rewrite E; [by left |].
  destruct (m' s) as [[a s1] | |]; [apply Hk | by right | by right].
Qed.

(** A run and the same run with more fuel, piece by piece. *)
Ltac mono :=
  repeat first
    [ match goal with
      | |- refines ?x ?y => constr_eq x y; exact (refines_refl x)
      | |- refines OutOfFuel _ => simple apply refines_timeout
      | H : context [refines] |- refines _ _ =>
          solve [simple apply H; lia]
      end
    | simple apply bind_refines; [| intros ? ?]
    | match goal with
      | |- refines ((if ?b then _ else _) _) _ => destruct b
      | |- refines (match ?o with Some _ => _ | None => _ end _) _ =>
          destruct o
      | |- refines (when ?b _ _) _ => unfold when; destruct b
      | |- refines (panic _) _ => by right
      | |- refines (timeout _) _ => by left
      end ].

Section Fuel.
Context {Key : Type} `{Countable Key} {Value : Type}.
Variable zero : Value.
Variable debugging : bool.
Local Abbreviation cache := (@Cache Key _ _ Value).

Lemma sweepTest_loop_mono (n : nat) : forall n' (hand : ptr) (c : cache),
  (n <= n')%nat ->
  refines (sweepTest_loop n hand c) (sweepTest_loop n' hand c).
Proof.
  induction n as [| n IH]; intros n' hand c Hle; [by left |].
  destruct n' as [| n']; [lia |]. assert (n <= n')%nat by lia.
  simpl. mono.
Qed.

Lemma sweepTest_mono (n n' : nat) (c : cache) :
  (n <= n')%nat -> refines (sweepTest n c) (sweepTest n' c).
Proof.
  intros Hle. pose proof (fun h s => sweepTest_loop_mono n n' h s Hle).
  unfold sweepTest. mono.
Qed.

Lemma removeTest_mono (n n' : nat) (x : ptr) (c : cache) :
  (n <= n')%nat -> refines (removeTest n x c) (removeTest n' x c).
Proof.
  intros Hle. pose proof (fun s => sweepTest_mono n n' s Hle).
  unfold removeTest. mono.
Qed.

Lemma handleHotHIR_mono (n n' : nat) (x y : ptr) (c : cache) :
  (n <= n')%nat -> refines (handleHotHIR n x y c) (handleHotHIR n' x y c).
Proof.
  intros Hle. pose proof (fun x s => removeTest_mono n n' x s Hle).
  unfold handleHotHIR. mono.
Qed.

Lemma sweepHot_loop_mono (n : nat) : forall n' (x : ptr) (c : cache),
  (n <= n')%nat -> refines (sweepHot_loop n x c) (sweepHot_loop n' x c).
Proof.
  induction n as [| n IH]; intros n' x c Hle; [by left |].
  destruct n' as [| n']; [lia |]. assert (n <= n')%nat as Hle' by lia.
  pose proof (fun x y s => handleHotHIR_mono n n' x y s Hle').
  simpl. mono.
Qed.

Lemma sweepHot_mono (n n' : nat) (c : cache) :
  (n <= n')%nat -> refines (sweepHot n c) (sweepHot n' c).
Proof.
  intros Hle. pose proof (fun x s => sweepHot_loop_mono n n' x s Hle).
  unfold sweepHot. mono.
Qed.

Lemma demoteHot_mono (n n' : nat) (c : cache) :
  (n <= n')%nat ->
  refines (demoteHot debugging n c) (demoteHot debugging n' c).
Proof.
  intros Hle. pose proof (fun s => sweepHot_mono n n' s Hle).
  unfold demoteHot. mono.
Qed.

Lemma promoteCold_loop_mono (n : nat) : forall n' (c : cache),
  (n <= n')%nat ->
  refines (promoteCold_loop debugging n c) (promoteCold_loop debugging n' c).
Proof.
  induction n as [| n IH]; intros n' c Hle; [by left |].
  destruct n' as [| n']; [lia |]. assert (n <= n')%nat as Hle' by lia.
  pose proof (fun s => demoteHot_mono n n' s Hle').
  simpl. mono.
Qed.

Lemma promoteCold_mono (n n' : nat) (x : ptr) (c : cache) :
  (n <= n')%nat ->
  refines (promoteCold debugging n x c) (promoteCold debugging n' x c).
Proof.
  intros Hle. pose proof (fun s => promoteCold_loop_mono n n' s Hle).
  unfold promoteCold. mono.
Qed.

Lemma handleReferencedCold_mono (n n' : nat) (x : ptr) (c : cache) :
  (n <= n')%nat ->
  refines (handleReferencedCold debugging n x c)
    (handleReferencedCold debugging n' x c).
Proof.
  intros Hle. pose proof (fun x s => promoteCold_mono n n' x s Hle).
  unfold handleReferencedCold. mono.
Qed.

Lemma sweepCold_loop_mono (n : nat) : forall n' (x : ptr) (c : cache),
  (n <= n')%nat ->
  refines (sweepCold_loop debugging n x c) (sweepCold_loop debugging n' x c).
Proof.
  induction n as [| n IH]; intros n' x c Hle; [by left |].
  destruct n' as [| n']; [lia |]. assert (n <= n')%nat as Hle' by lia.
  pose proof (fun x s => handleReferencedCold_mono n n' x s Hle').
  simpl. mono.
Qed.

Lemma sweepCold_mono (n n' : nat) (c : cache) :
  (n <= n')%nat ->
  refines (sweepCold debugging n c) (sweepCold debugging n' c).
Proof.
  intros Hle. pose proof (fun x s => sweepCold_loop_mono n n' x s Hle).
  unfold sweepCold. mono.
Qed.

Lemma evictCold_mono (n n' : nat) (c : cache) :
  (n <= n')%nat ->
  refines (evictCold zero debugging n c) (evictCold zero debugging n' c).
Proof.
  intros Hle. pose proof (fun x s => removeTest_mono n n' x s Hle).
  unfold evictCold. mono.
Qed.

Lemma pruneTest_loop_mono (n : nat) : forall n' (limit : Z) (c : cache),
  (n <= n')%nat ->
  refines (pruneTest_loop debugging n limit c)
    (pruneTest_loop debugging n' limit c).
Proof.
  induction n as [| n IH]; intros n' limit c Hle; [by left |].
  destruct n' as [| n']; [lia |]. assert (n <= n')%nat as Hle' by lia.
  pose proof (fun x s => removeTest_mono n n' x s Hle').
  simpl. mono.
Qed.

Lemma pruneTest_mono (n n' : nat) (c : cache) :
  (n <= n')%nat ->
  refines (pruneTest debugging n c) (pruneTest debugging n' c).
Proof.
  intros Hle. pose proof (fun l s => pruneTest_loop_mono n n' l s Hle).
  unfold pruneTest. mono.
Qed.

Lemma addNew_mono (n n' : nat) (key : Key) (value : Value) (c : cache) :
  (n <= n')%nat ->
  refines (addNew debugging n key value c) (addNew debugging n' key value c).
Proof.
  intros Hle. pose proof (fun s => sweepCold_mono n n' s Hle).
  pose proof (fun s => pruneTest_mono n n' s Hle).
  unfold addNew. mono.
Qed.

Lemma promoteTest_mono (n n' : nat) (x : ptr) (value : Value) (c : cache) :
  (n <= n')%nat ->
  refines (promoteTest zero debugging n x value c)
    (promoteTest zero debugging n' x value c).
Proof.
  intros Hle. pose proof (fun s => sweepCold_mono n n' s Hle).
  pose proof (fun s => evictCold_mono n n' s Hle).
  pose proof (fun s => sweepTest_mono n n' s Hle).
  pose proof (fun x s => promoteCold_mono n n' x s Hle).
  unfold promoteTest. mono.
Qed.

Lemma handleMiss_mono (n n' : nat) (key : Key) (value : Value) (had : bool)
    (c : cache) :
  (n <= n')%nat ->
  refines (handleMiss zero debugging n key value had c)
    (handleMiss zero debugging n' key value had c).
Proof.
  intros Hle. pose proof (fun s => sweepCold_mono n n' s Hle).
  pose proof (fun s => sweepHot_mono n n' s Hle).
  pose proof (fun s => evictCold_mono n n' s Hle).
  pose proof (fun k v s => addNew_mono n n' k v s Hle).
  pose proof (fun x v s => promoteTest_mono n n' x v s Hle).
  unfold handleMiss. mono.
Qed.

Lemma Set_mono (n n' : nat) (key : Key) (value : Value) (c : cache) :
  (n <= n')%nat ->
  refines (Set_ zero debugging n key value c)
    (Set_ zero debugging n' key value c).
Proof.
  intros Hle. pose proof (fun k v b s => handleMiss_mono n n' k v b s Hle).
  unfold Set_. mono.
Qed.

Lemma Load_mono {Err : Type} (n n' : nat) (key : Key)
    (fetch : unit -> Value * option Err) (c : cache) :
  (n <= n')%nat ->
  refines (Load zero debugging n key fetch c)
    (Load zero debugging n' key fetch c).
Proof.
  intros Hle. pose proof (fun k v b s => handleMiss_mono n n' k v b s Hle).
  unfold Load. mono. destruct (fetch tt) as [v [e |]]; mono.
Qed.

Lemma exec_mono {Err : Type} (n n' : nat) (o : op Err) (c : cache) :
  (n <= n')%nat ->
  refines (exec zero debugging Err n o c) (exec zero debugging Err n' o c).
Proof.
  intros Hle. pose proof (fun k v s => Set_mono n n' k v s Hle).
  pose proof (fun k f s => @Load_mono Err n n' k f s Hle).
  destruct o; simpl; mono.
Qed.
End Fuel.

(** ** Runs forward *)

Section Forward.
Context {Key : Type} `{Countable Key} {Value : Type}.
Variable zero : Value.
Variable debugging : bool.
Local Abbreviation cache := (@Cache Key _ _ Value).

Lemma set_pages_same (c : cache) : set_pages (pages c) c = c.
Proof. by destruct c. Qed.

Lemma read_eq (c : cache) (x : nat) (p : Ring Key Value) :
  pages c !! x = Some p -> read (Some x) c = Ok (p, c).
Proof.
  intros Hp. unfold read, onPages, zoom, load. rewrite Hp.
  by rewrite set_pages_same.
Qed.

Lemma setMeta_eq (c : cache) (x : nat) (p : Ring Key Value) f :
  pages c !! x = Some p ->
  setMeta (Some x) f c
  = Ok (tt, set_pages (alter (set_meta f) x (pages c)) c).
Proof. intros Hp. unfold setMeta, onPages, zoom, store. by rewrite Hp. Qed.

Lemma setValue_eq (c : cache) (x : nat) (p : Ring Key Value) v :
  pages c !! x = Some p ->
  setValue (Some x) v c
  = Ok (tt, set_pages (alter (set_Val v) x (pages c)) c).
Proof. intros Hp. unfold setValue, onPages, zoom, store. by rewrite Hp. Qed.

Lemma Next_cache_eq (c : cache) (x y : nat) (p : Ring Key Value) :
  pages c !! x = Some p -> next p = Some y ->
  onPages (Next (Some x)) c = Ok (Some y, c).
Proof.
  intros Hp Hn. unfold onPages, zoom, Next, bind, load. rewrite Hp, Hn.
  unfold ret. by rewrite set_pages_same.
Qed.

(** The cold hand on a ghost that is linked to itself never moves. *)
Lemma sweepCold_loop_spins (fuel : nat) (c : cache) (x : nat)
    (p : Ring Key Value) :
  pages c !! x = Some p -> next p = Some x ->
  LIR (meta p) = false -> Resident (meta p) = false ->
  Referenced (meta p) = false ->
  sweepCold_loop debugging fuel (Some x) c = OutOfFuel.
Proof.
  intros Hp Hn HL HR HF. induction fuel as [| fuel IH]; [done |].
  cbn [sweepCold_loop]. unfold bind at 1. rewrite (read_eq _ _ _ Hp).
  rewrite HL, HR, HF. cbn [orb negb]. unfold bind at 1.
  rewrite (Next_cache_eq _ _ _ _ Hp Hn). unfold bind at 1, ret. exact IH.
Qed.

Lemma sweepCold_spins (fuel : nat) (c : cache) (x : nat)
    (p : Ring Key Value) :
  coldCount c <> 0%Z -> cold c = Some x ->
  pages c !! x = Some p -> next p = Some x ->
  LIR (meta p) = false -> Resident (meta p) = false ->
  Referenced (meta p) = false ->
  sweepCold debugging fuel c = OutOfFuel.
Proof.
  intros Hc Hx Hp Hn HL HR HF. unfold sweepCold, bind at 1, get.
  apply Z.eqb_neq in Hc. rewrite Hc, Hx. unfold bind.
  by rewrite (sweepCold_loop_spins _ _ _ _ Hp Hn HL HR HF).
Qed.

Lemma Set_miss_eq (fuel : nat) (c : cache) (key : Key) (value : Value) :
  index c !! key = None ->
  Set_ zero debugging fuel key value c
  = handleMiss zero debugging fuel key value false c.
Proof. intros Hk. unfold Set_, bind at 1, get. by rewrite Hk. Qed.

Lemma handleMiss_spins (fuel fuel0 : nat) (c c1 : cache) (key : Key)
    (value : Value) (had : bool) :
  sweepHot fuel0 c = Ok (tt, c1) -> (fuel0 <= fuel)%nat ->
  sweepCold debugging fuel c1 = OutOfFuel ->
  handleMiss zero debugging fuel key value had c = OutOfFuel.
Proof.
  intros Hhot Hle Hcold. unfold handleMiss, bind at 1.
  rewrite (refines_Ok _ _ _ (sweepHot_mono _ _ _ Hle) Hhot).
  unfold bind at 1. by rewrite Hcold.
Qed.
End Forward.

Local Open Scope Z_scope.

(** A call that does not return.  After the calls [strandedColdHand] on a
    cache of capacity four, the hot hand of [Set(4, 4)] finds the cold hand
    on the page of key 0, moves it to the next record, the ghost of key 3,
    and then takes that ghost out of the ring (handleHotHIR, removeTest).
    The cold hand of the same call then stays on the unlinked ghost. *)
Theorem Set_may_not_return (debugging : bool) :
  exists c : icache,
    reachable 0 debugging unit 4 c
    /\ forall fuel, exec 0 debugging unit fuel (OpSet 4 4) c = OutOfFuel.
Proof.
  remember (state_after debugging 4 30 strandedColdHand) as c eqn:Hc.
  assert (reachable 0 debugging unit 4 c) as Hreach.
  { apply (after_reachable 0 debugging unit 4 30 strandedColdHand).
    subst c. by destruct debugging; vm_compute. }
  assert (exec 0 debugging unit 10 (OpSet 4 4) c = OutOfFuel) as H10.
  { subst c. by destruct debugging; vm_compute. }
  assert (index c !! 4 = None) as Hidx.
  { subst c. by destruct debugging; vm_compute. }
  remember (hotSwept c) as c1 eqn:Hc1.
  assert (sweepHot 10 c = Ok (tt, c1)) as Hhot.
  { subst c1 c. by destruct debugging; vm_compute. }
  assert (coldCount c1 <> 0 /\ cold c1 = Some 6%nat
          /\ exists p, pages c1 !! 6%nat = Some p /\ next p = Some 6%nat
               /\ LIR (meta p) = false /\ Resident (meta p) = false
               /\ Referenced (meta p) = false)
    as (Hcc & Hcold & p & Hp & Hn & HL & HR & HF).
  { subst c1 c. destruct debugging; (split; [by vm_compute |]);
      (split; [by vm_compute |]); eexists; split_and!; by vm_compute. }
  clear Hc Hc1. exists c. split; [done |]. intros fuel.
  destruct (le_ge_dec fuel 10) as [Hle | Hge].
  - destruct (exec_mono 0 debugging (Err:=unit) fuel 10 (OpSet 4 4) c Hle)
      as [E | E];
      [done | by rewrite E].
  - change (Set_ 0 debugging fuel 4 4 c = OutOfFuel).
    rewrite Set_miss_eq by done.
    eapply handleMiss_spins; [done | done |].
    by eapply sweepCold_spins.
Qed.

(** ** What the public calls return *)



Section Observations.
Context {Key : Type} `{Countable Key} {Value : Type}.
Variable zero : Value.
Variable debugging : bool.
Variable Err : Type.
Local Abbreviation cache := (@Cache Key _ _ Value).
Implicit Types (c : cache) (i j x y : nat) (l : list nat).

(** ** The ring and the counters *)

(** The counters [hotCount], [coldCount] and [testCount] are the numbers
    of hot, resident cold and nonresident pages linked in the ring. *)
Theorem counters_count_ring (capacity : Z) c :
  Int.in_range capacity ->
  reachable zero debugging Err capacity c ->
  hotCount c = ring_count isHot c
  /\ coldCount c = ring_count isCold c
  /\ testCount c = ring_count isTest c.
Proof.
  intros [_ Hmax] Hreach.
  destruct (reachable_Inv _ _ _ _ _ Hmax Hreach) as (l & [HWF] & _).
  rewrite !(ring_count_WF _ _ _ HWF). split_and!; apply HWF.
Qed.

(** Every entry of the index is the record of a page that is linked in the
    ring and carries the key of the entry. *)
Theorem index_is_sound (capacity : Z) c (key : Key) i :
  Int.in_range capacity ->
  reachable zero debugging Err capacity c ->
  index c !! key = Some i ->
  i ∈ ring_pages c /\ Name <$> metaOf (pages c) i = Some key.
Proof.
  intros [_ Hmax] Hreach Hk.
  destruct (reachable_Inv _ _ _ _ _ Hmax Hreach) as (l & [HWF] & _).
  destruct (wf_index _ _ HWF _ _ Hk) as [Hi Hn]. split; [| done].
  by rewrite (ring_pages_perm _ _ HWF).
Qed.

(** The flags of a page in the ring: a hot page is resident and not
    demoted, a nonresident page is neither referenced nor demoted. *)
Theorem ring_flags_consistent (capacity : Z) c i :
  Int.in_range capacity ->
  reachable zero debugging Err capacity c ->
  i ∈ ring_pages c ->
  exists m, metaOf (pages c) i = Some m
    /\ (LIR m = true -> Resident m = true /\ Demoted m = false)
    /\ (Resident m = false -> Referenced m = false /\ Demoted m = false).
Proof.
  intros [_ Hmax] Hreach Hi.
  destruct (reachable_Inv _ _ _ _ _ Hmax Hreach) as (l & [HWF] & _).
  rewrite (ring_pages_perm _ _ HWF) in Hi.
  destruct (WF_meta _ _ _ HWF Hi) as (m & Hm & Hok). exists m.
  split; [done |]. unfold flags_ok in Hok.
  destruct m as [? [] [] [] [] ?]; simpl in *; done.
Qed.

(** Where the hands are: the LRU pointer is at a resident page of the
    ring, the test hand (when set) at a nonresident page of the ring, and
    while the ring is not empty the hot hand is at a hot page of the
    ring. *)
Theorem hands_in_place (capacity : Z) c :
  Int.in_range capacity ->
  reachable zero debugging Err capacity c ->
  (forall i, lru c = Some i ->
     i ∈ ring_pages c /\ flagOf Resident (pages c) i = true)
  /\ (forall i, test c = Some i ->
        i ∈ ring_pages c /\ flagOf Resident (pages c) i = false)
  /\ (ring_pages c <> [] ->
      exists i, hot c = Some i /\ i ∈ ring_pages c
        /\ flagOf LIR (pages c) i = true).
Proof.
  intros [_ Hmax] Hreach.
  destruct (reachable_Inv _ _ _ _ _ Hmax Hreach)
    as (l & [HWF HlruR HhL HtG _ _ _ _] & _).
  pose proof (ring_pages_perm _ _ HWF) as Hp.
  pose proof (wf_lru _ _ HWF) as Hlru. pose proof (wf_test _ _ HWF) as Htest.
  unfold lruR in HlruR. unfold testG in HtG. split_and!.
  - intros i Hi. rewrite Hi in *. by rewrite Hp.
  - intros i Hi. rewrite Hi in *. by rewrite Hp.
  - intros Hne. destruct HhL as [-> | (i & Hi & HL)].
    + by apply Permutation_nil_r in Hp.
    + exists i. split_and!; [done | | done]. rewrite Hp.
      by eapply WF_LIR_in.
Qed.

(** Not every slot is hot, a cache that holds a page holds a hot page, and
    there are nonresident pages only while the cache is full. *)
Theorem hot_pages_and_ghosts (capacity : Z) c :
  Int.in_range capacity ->
  reachable zero debugging Err capacity c ->
  hotCount c <= capacity - 1
  /\ (0 < Len c -> 1 <= hotCount c)
  /\ (0 < testCount c -> Len c = capacity).
Proof.
  intros [_ Hmax] Hreach.
  destruct (reachable_Inv _ _ _ _ _ Hmax Hreach)
    as (l & [HWF HlruR HhL HtG Hhc Hgh _ _] & Hcap).
  pose proof (WF_bounds _ _ HWF) as Hb.
  pose proof (wf_residents _ _ HWF) as Hres.
  pose proof (wf_capacity _ _ HWF) as Hc.
  unfold Len. rewrite add_small by lia. split_and!; [lia | | lia].
  intros Hpos. destruct HhL as [-> | (i & Hi & HL)]; [simpl in Hb; lia |].
  rewrite (wf_hotCount _ _ HWF). eapply count_pos; [| done].
  by eapply WF_LIR_in.
Qed.

(** ** Lookups *)

Lemma metaOf_lookup c i m :
  metaOf (pages c) i = Some m -> exists p, pages c !! i = Some p /\ meta p = m.
Proof.
  unfold metaOf. destruct (pages c !! i) as [p |]; [| done].
  intros [= <-]. by exists p.
Qed.

Lemma indexed_page l c (key : Key) i :
  WF l c -> index c !! key = Some i ->
  exists p, pages c !! i = Some p /\ Name (meta p) = key /\ i ∈ l.
Proof.
  intros HWF Hk. destruct (wf_index _ _ HWF _ _ Hk) as [Hi Hn].
  destruct (WF_meta _ _ _ HWF Hi) as (m & Hm & _).
  destruct (metaOf_lookup _ _ _ Hm) as (p & Hp & <-).
  exists p. split_and!; [done | | done]. rewrite Hm in Hn. by simplify_eq/=.
Qed.

(** Setting [Referenced] changes no lookup. *)
Lemma cached_referenced c i (k : Key) :
  cached (set_pages (alter (set_meta (with_Referenced true)) i (pages c)) c) k
  = cached c k.
Proof.
  unfold cached; simpl. destruct (index c !! k) as [j |]; [| done].
  rewrite list_lookup_alter. case_decide; [subst j |]; [| done].
  by destruct (pages c !! i) as [[? ? ? []] |].
Qed.

(** A hit of [Set] changes the lookup of its key only. *)
Lemma cached_hit l c i (key k : Key) (p : Ring Key Value) v :
  WF l c -> index c !! key = Some i -> pages c !! i = Some p ->
  Resident (meta p) = true ->
  cached (set_pages
            (alter (set_Val v) i
               (alter (set_meta (with_Referenced true)) i (pages c))) c) k
  = if decide (k = key) then Some v else cached c k.
Proof.
  intros HWF Hkey Hp HR. unfold cached; simpl. case_decide as Hk.
  - subst k. rewrite Hkey, !list_lookup_alter_eq, Hp. simpl.
    by rewrite HR.
  - destruct (index c !! k) as [j |] eqn:Hj; [| done].
    rewrite !list_lookup_alter_ne; [done | |]; intros ->;
      destruct (wf_index _ _ HWF _ _ Hj) as [_ Hn1];
      destruct (wf_index _ _ HWF _ _ Hkey) as [_ Hn2];
      rewrite Hn1 in Hn2; by simplify_eq.
Qed.

Lemma Get_run l c (key : Key) :
  WF l c ->
  match cached c key with
  | Some v =>
      exists i, index c !! key = Some i
        /\ Get zero key c
           = Ok ((v, true),
                 set_pages
                   (alter (set_meta (with_Referenced true)) i (pages c)) c)
  | None => Get zero key c = Ok ((zero, false), c)
  end.
Proof.
  intros HWF. unfold cached.
  assert (forall r, (match index c !! key with
                     | Some i =>
                         (p <- read (Some i);;
                          (if Resident (meta p)
                           then setMeta (Some i) (with_Referenced true);;
                                ret (Val p, true)
                           else ret (zero, false)))%run
                     | None => ret (zero, false)
                     end) c = r -> Get zero key c = r) as HG by done.
  destruct (index c !! key) as [i |] eqn:Hk; [| by apply HG].
  destruct (indexed_page _ _ _ _ HWF Hk) as (p & Hp & _ & _). rewrite Hp.
  assert (read (Some i) c = Ok (p, c)) as Hr by (by apply read_eq).
  destruct (Resident (meta p)) eqn:HR.
  - exists i. split; [done |]. apply HG. unfold bind at 1. rewrite Hr, HR.
    unfold bind. by rewrite (setMeta_eq _ _ _ _ Hp).
  - apply HG. unfold bind at 1. by rewrite Hr, HR.
Qed.

(** [Get] always returns.  It finds the value of a resident key and leaves
    every lookup and [Len()] as they are; for any other key it returns the
    zero value and [false] and leaves the cache as it is. *)
Theorem Get_hit_or_miss (capacity : Z) c (key : Key) :
  Int.in_range capacity ->
  reachable zero debugging Err capacity c ->
  match cached c key with
  | Some v =>
      exists c', Get zero key c = Ok ((v, true), c')
        /\ Len c' = Len c /\ forall k, cached c' k = cached c k
  | None => Get zero key c = Ok ((zero, false), c)
  end.
Proof.
  intros [_ Hmax] Hreach.
  destruct (reachable_Inv _ _ _ _ _ Hmax Hreach) as (l & [HWF] & _).
  pose proof (Get_run _ _ key HWF) as Hrun.
  destruct (cached c key) as [v |]; [| done].
  destruct Hrun as (i & Hk & Hrun). eexists. split; [exact Hrun |].
  split; [done |]. intros k. apply cached_referenced.
Qed.

Lemma Set_hit_run l c (key : Key) (old value : Value) fuel :
  WF l c -> cached c key = Some old ->
  exists i p, index c !! key = Some i /\ pages c !! i = Some p
    /\ Resident (meta p) = true
    /\ Set_ zero debugging fuel key value c
       = Ok (tt, set_pages
                   (alter (set_Val value) i
                      (alter (set_meta (with_Referenced true)) i (pages c)))
                   c).
Proof.
  intros HWF Hc. unfold cached in Hc.
  assert (forall r, (match index c !! key with
                     | Some i =>
                         (p <- read (Some i);;
                          (if Resident (meta p)
                           then setMeta (Some i) (with_Referenced true);;
                                setValue (Some i) value
                           else handleMiss zero debugging fuel key value
                                  true))%run
                     | None => handleMiss zero debugging fuel key value false
                     end) c = r -> Set_ zero debugging fuel key value c = r)
    as HS by done.
  destruct (index c !! key) as [i |] eqn:Hk; [| done].
  destruct (pages c !! i) as [p |] eqn:Hp; [| done].
  destruct (Resident (meta p)) eqn:HR; [| done].
  exists i, p. split_and!; try done. apply HS.
  unfold bind at 1. rewrite (read_eq _ _ _ Hp), HR.
  unfold bind. rewrite (setMeta_eq _ _ _ _ Hp).
  erewrite setValue_eq; [done |]. simpl.
  by rewrite list_lookup_alter_eq, Hp.
Qed.

(** [Set] of a resident key always returns: it stores the value, which the
    next lookup of the key finds, and changes neither the lookup of another
    key nor [Len()]. *)
Theorem Set_of_resident_key (capacity : Z) c (key : Key) (old value : Value)
    (fuel : nat) :
  Int.in_range capacity ->
  reachable zero debugging Err capacity c ->
  cached c key = Some old ->
  exists c', Set_ zero debugging fuel key value c = Ok (tt, c')
    /\ cached c' key = Some value
    /\ (forall k, k <> key -> cached c' k = cached c k)
    /\ Len c' = Len c.
Proof.
  intros [_ Hmax] Hreach Hold.
  destruct (reachable_Inv _ _ _ _ _ Hmax Hreach) as (l & [HWF] & _).
  destruct (Set_hit_run _ _ _ _ value fuel HWF Hold)
    as (i & p & Hk & Hp & HR & Hrun).
  eexists. split; [exact Hrun |].
  pose proof (fun k => cached_hit l c i key k p value HWF Hk Hp HR) as Hc.
  split_and!.
  - rewrite Hc. by rewrite decide_True.
  - intros k Hne. rewrite Hc. by rewrite decide_False.
  - done.
Qed.

(** ** Misses *)

Lemma Len_sum l c : WF l c -> Len c = hotCount c + coldCount c.
Proof.
  intros HWF. pose proof (WF_bounds _ _ HWF).
  pose proof (wf_residents _ _ HWF). pose proof (wf_capacity _ _ HWF).
  unfold Len. rewrite add_small; lia.
Qed.

Lemma Set_miss_run l c (key : Key) (value : Value) fuel (u : unit) c' :
  WF l c -> cached c key = None ->
  Set_ zero debugging fuel key value c = Ok (u, c') ->
  exists had,
    handleMiss zero debugging fuel key value had c = Ok (u, c')
    /\ (had = true -> forall i, index c !! key = Some i ->
          flagOf Resident (pages c) i = false)
    /\ (had = true \/ index c !! key = None).
Proof.
  intros HWF Hc Hrun. unfold cached in Hc. unfold Set_ in Hrun. mstep Hrun.
  destruct (index c !! key) as [i |] eqn:Hk.
  - destruct (indexed_page _ _ _ _ HWF Hk) as (p & Hp & _ & _).
    rewrite Hp in Hc. destruct (Resident (meta p)) eqn:HR; [done |].
    unfold bind at 1 in Hrun. rewrite (read_eq _ _ _ Hp), HR in Hrun.
    exists true. split_and!; [done | | by left]. intros _ j [= <-].
    unfold flagOf, metaOf. by rewrite Hp.
  - exists false. split_and!; [done | done | by right].
Qed.

(** [Set] of a resident key leaves [Len()] as it is; any other [Set] that
    returns adds one to [Len()], up to the capacity. *)
Theorem Set_Len (capacity : Z) c (key : Key) (value : Value) (fuel : nat)
    (u : unit) c' :
  Int.in_range capacity ->
  reachable zero debugging Err capacity c ->
  Set_ zero debugging fuel key value c = Ok (u, c') ->
  Len c' = match cached c key with
           | Some _ => Len c
           | None => Z.min capacity (Len c + 1)
           end.
Proof.
  intros [_ Hmax] Hreach Hrun.
  destruct (reachable_Inv _ _ _ _ _ Hmax Hreach) as (l & HInv & Hcap).
  pose proof (inv_wf _ _ HInv) as HWF.
  destruct (cached c key) as [old |] eqn:Hc.
  - destruct (Set_hit_run _ _ _ _ value fuel HWF Hc)
      as (i & p & _ & _ & _ & Heq).
    rewrite Heq in Hrun. by simplify_eq.
  - destruct (Set_miss_run _ _ _ _ _ _ _ HWF Hc Hrun) as (had & Hm & Hg & _).
    destruct (handleMiss_spec _ _ _ _ _ _ _ _ _ _ HInv Hg Hm)
      as (l' & HInv' & Hcap' & Hsum).
    rewrite (Len_sum _ _ HWF), (Len_sum _ _ (inv_wf _ _ HInv')). lia.
Qed.

(** [Load] of a resident key returns its value without a fetch, like
    [Get]; for any other key the error of a failed fetch is returned and
    the cache stays as it is. *)
Theorem Load_without_miss (capacity : Z) c (key : Key)
    (fetch : unit -> Value * option Err) (fuel : nat) :
  Int.in_range capacity ->
  reachable zero debugging Err capacity c ->
  match cached c key with
  | Some v =>
      exists c', Load zero debugging fuel key fetch c = Ok ((v, None), c')
        /\ Len c' = Len c /\ forall k, cached c' k = cached c k
  | None =>
      forall v e, fetch tt = (v, Some e) ->
        Load zero debugging fuel key fetch c = Ok ((v, Some e), c)
  end.
Proof.
  intros [_ Hmax] Hreach.
  destruct (reachable_Inv _ _ _ _ _ Hmax Hreach) as (l & [HWF] & _).
  pose proof (Get_run _ _ key HWF) as Hrun.
  destruct (cached c key) as [v |].
  - destruct Hrun as (i & Hk & Hrun). eexists. split_and!.
    + unfold Load, bind at 1. by rewrite Hrun.
    + done.
    + intros k. apply cached_referenced.
  - intros v e Hf. unfold Load, bind at 1. rewrite Hrun. simpl.
    by rewrite Hf.
Qed.

(** [Load] of a key that is not resident, with a fetch that succeeds,
    returns the fetched value and adds one to [Len()], up to the
    capacity. *)
Theorem Load_miss_Len (capacity : Z) c (key : Key)
    (fetch : unit -> Value * option Err) (fuel : nat) v
    (res : Value * option Err) c' :
  Int.in_range capacity ->
  reachable zero debugging Err capacity c ->
  cached c key = None -> fetch tt = (v, None) ->
  Load zero debugging fuel key fetch c = Ok (res, c') ->
  res = (v, None) /\ Len c' = Z.min capacity (Len c + 1).
Proof.
  intros [_ Hmax] Hreach Hc Hf Hrun.
  destruct (reachable_Inv _ _ _ _ _ Hmax Hreach) as (l & HInv & Hcap).
  pose proof (inv_wf _ _ HInv) as HWF.
  pose proof (Get_run _ _ key HWF) as HG. rewrite Hc in HG.
  unfold Load, bind at 1 in Hrun. rewrite HG in Hrun. simpl in Hrun.
  rewrite Hf in Hrun. mhold Hrun as EM. mrun Hrun.
  assert (false = true -> forall i, index c !! key = Some i ->
            flagOf Resident (pages c) i = false) as Hg by done.
  destruct (handleMiss_spec _ _ _ _ _ _ _ _ _ _ HInv Hg EM)
    as (l' & HInv' & Hcap' & Hsum).
  split; [done |].
  rewrite (Len_sum _ _ HWF), (Len_sum _ _ (inv_wf _ _ HInv')). lia.
Qed.

(** ** The first page *)

Lemma bind_eq {S A B} (m : M S A) (k : A -> M S B) (s s1 : S) (a : A) :
  m s = Ok (a, s1) -> bind m k s = k a s1.
Proof. intros E. unfold bind. by rewrite E. Qed.

Lemma sweepHot_idle fuel c : hotCount c = 0 -> sweepHot fuel c = Ok (tt, c).
Proof. intros E. unfold sweepHot. erewrite bind_eq; [| done]. by rewrite E. Qed.

Lemma sweepCold_idle fuel c :
  coldCount c = 0 -> sweepCold debugging fuel c = Ok (tt, c).
Proof. intros E. unfold sweepCold. erewrite bind_eq; [| done]. by rewrite E. Qed.

(** [pruneTest] without a test hand. *)
Lemma pruneTest_panics fuel c :
  test c = None ->
  Int.mul (capacity c) 2
  < Int.add (Int.add (coldCount c) (hotCount c)) (testCount c) ->
  pruneTest debugging (S fuel) c = Panic.
Proof.
  intros Ht Hlt. apply Z.ltb_lt in Hlt. unfold pruneTest.
  erewrite bind_eq; [| done]. cbn [pruneTest_loop].
  erewrite bind_eq; [| done]. rewrite Hlt, Ht.
  destruct debugging.
  - unfold bind at 1. unfold bind at 1. by rewrite read_nil.
  - unfold bind at 1. unfold bind at 1. unfold ret.
    unfold removeTest. erewrite bind_eq; [| done]. rewrite Ht.
    rewrite bool_decide_eq_true_2 by done. by unfold bind.
Qed.

(** The first [addNew] of a cache with a capacity from [2^62]. *)
Lemma addNew_panics fuel c (key : Key) (value : Value) :
  lru c = None -> test c = None ->
  hotCount c = 0 -> coldCount c = 0 -> testCount c = 0 ->
  1 <= hotTarget c -> Int.mul (capacity c) 2 < 0 ->
  addNew debugging (S fuel) key value c = Panic.
Proof.
  intros Hlru Ht Hh Hc Htc Hht Hlim. unfold addNew.
  erewrite bind_eq; [| done].
  assert (((coldCount c =? 0) && (hotCount c <? hotTarget c)) = true)
    as ->.
  { rewrite Hc, Hh. simpl. apply Z.ltb_lt. lia. }
  set (rec := mkRing None None value
                (mkMetadata key true true false false true)).
  erewrite bind_eq; [| by unfold onPages, zoom, alloc].
  set (x := length (pages c)). set (c1 := set_pages (pages c ++ [rec]) c).
  assert (pages c1 !! x = Some rec) as Hx by apply lookup_app_new.
  assert (addToClock (Some x) c1
          = Ok (tt, set_index (<[key := x]>)
                      (set_hot (Some x) (set_lru (Some x) c1)))) as Hadd.
  { unfold addToClock. erewrite bind_eq; [| done].
    assert (lru c1 = None) as -> by done.
    rewrite bool_decide_eq_true_2 by done.
    erewrite bind_eq; [| by unfold bind, modify].
    erewrite bind_eq; [| by apply read_eq]. done. }
  erewrite bind_eq; [| exact Hadd].
  erewrite bind_eq; [| by unfold modify].
  erewrite bind_eq; [| by apply sweepCold_idle].
  apply pruneTest_panics; [done |]. simpl. rewrite Hc, Hh, Htc.
  change (Int.add (Int.add 0 (incr 0)) 0) with 1. lia.
Qed.

Lemma New_fields (capacity : Z) c :
  New capacity = inl c ->
  index c = ∅ /\ lru c = None /\ test c = None
  /\ hotCount c = 0 /\ coldCount c = 0 /\ testCount c = 0.
Proof.
  unfold New. destruct (capacity <? MinimumCapacity); [done |].
  by intros [= <-].
Qed.

(** ** Capacities from [2^62]

    [pruneTest] compares with [capacity*2], which wraps to a negative
    number: the cache stays as [New] made it, and every [Set] panics. *)
Theorem huge_capacity_stays_empty (capacity : Z) c :
  2 ^ 62 <= capacity -> Int.in_range capacity ->
  reachable zero debugging Err capacity c ->
  New capacity = inl c
  /\ forall fuel key value,
       Set_ zero debugging (S fuel) key value c = Panic.
Proof.
  intros Hhuge Hr Hreach.
  enough (New capacity = inl c) as Hnew.
  { split; [done |]. intros fuel key value.
    destruct Hr as [_ Hmax].
    destruct (New_Inv _ _ Hmax Hnew) as [[HWF _ _ _ _ _ _ _] Hcap].
    pose proof (wf_capacity _ _ HWF) as Hc.
    pose proof (wf_coldTarget _ _ HWF) as Hct.
    pose proof (wf_hotTarget _ _ HWF) as Hht.
    pose proof (quot2_bounds _ (proj1 Hc)) as Hq.
    destruct (mul2_wrap _ Hc) as [_ Hw]. specialize (Hw ltac:(lia)).
    destruct (New_fields _ _ Hnew) as (Hidx & Hlru & Htest & Hh & Hcc & Htc).
    rewrite Set_miss_eq by (by rewrite Hidx).
    unfold handleMiss.
    erewrite bind_eq; [| by apply sweepHot_idle].
    erewrite bind_eq; [| by apply sweepCold_idle].
    erewrite bind_eq; [| done]. cbv beta iota.
    erewrite bind_eq; [| by unfold atCapacity, bind, get, ret].
    rewrite Hh, Hcc. change (Int.add 0 0) with 0.
    replace (0 =? clockpro.capacity c) with false
      by (symmetry; apply Z.eqb_neq; lia).
    unfold when. erewrite bind_eq; [| done].
    apply addNew_panics; try done; lia. }
  assert (forall c0 : cache, reachable zero debugging Err capacity c0 ->
            Len c0 = 0 /\ forall key, cached c0 key = None) as Hempty.
  { intros c0 Hr0. destruct Hr as [_ Hmax].
    destruct (reachable_Inv _ _ _ _ _ Hmax Hr0) as (l & HInv & Hcap).
    pose proof (inv_wf _ _ HInv) as HWF.
    pose proof (inv_huge _ _ HInv ltac:(lia)) as ->.
    pose proof (WF_bounds _ _ HWF) as Hb. simpl in Hb.
    split; [rewrite (Len_sum _ _ HWF); lia |].
    intros key. unfold cached.
    destruct (index c0 !! key) as [i |] eqn:Hk; [| done].
    destruct (wf_index _ _ HWF _ _ Hk) as [Hi _]. set_solver. }
  assert (forall c0 fuel key value (r : unit * cache),
            reachable zero debugging Err capacity c0 ->
            Set_ zero debugging fuel key value c0 <> Ok r) as HSet.
  { intros c0 fuel key value [[] c1] Hr0 Hrun.
    destruct (Hempty _ Hr0) as [HL Hc].
    assert (reachable zero debugging Err capacity c1) as Hr1.
    { eapply reachable_step; [exact Hr0 |]. by exists fuel, (OpSet key value). }
    pose proof (Set_Len _ _ _ _ _ _ _ Hr Hr0 Hrun) as HL1.
    rewrite Hc, HL in HL1. destruct (Hempty _ Hr1) as [HL1' _]. lia. }
  induction Hreach as [c Hnew | c c' Hreach IH (fuel & o & Hrun)]; [done |].
  destruct (Hempty _ Hreach) as [HL Hc].
  assert (Len c' = 0) as HL'.
  { apply Hempty. eapply reachable_step; [exact Hreach |]. by exists fuel, o. }
  destruct o as [key | key value | key fetch]; simpl in Hrun.
  - pose proof (Get_hit_or_miss _ _ key Hr Hreach) as HG.
    rewrite Hc in HG. unfold bind in Hrun. rewrite HG in Hrun.
    unfold ret in Hrun. by simplify_eq.
  - by apply HSet in Hrun.
  - mhold Hrun as EL.
    match type of EL with _ = Ok (?r, ?s) =>
      assert (s = c') as -> by (unfold ret in Hrun; by simplify_eq) end.
    destruct (fetch tt) as [v' [e' |]] eqn:Hf.
    + pose proof (Load_without_miss _ _ key fetch fuel Hr Hreach) as HLo.
      rewrite Hc in HLo. rewrite (HLo _ _ Hf) in EL. by simplify_eq.
    + destruct (Load_miss_Len _ _ _ _ _ _ _ _ Hr Hreach (Hc key) Hf EL)
        as [_ HL1]. lia.
Qed.
End Observations.

(** ** The index of a cache that was never handed to [Load] *)

Section Keyed.
Context {Key : Type} `{Countable Key} {Value : Type}.
Variable zero : Value.
Variable debugging : bool.
Local Abbreviation cache := (@Cache Key _ _ Value).
Implicit Types (c : cache) (i j x y : nat) (l : list nat) (r : ptr)
  (h : heap Key Value) (m : Metadata Key) (rec : Ring Key Value).

(** The index points at pages of the ring, no two keys at the same page. *)
Lemma index_values l c :
  WF l c -> (map_to_list (index c)).*2 ⊆+ l.
Proof.
  intros HWF. apply NoDup_submseteq.
  - apply NoDup_fmap_2_strong; [| apply NoDup_map_to_list].
    intros [k i] [k' i'] Hk Hk' Heq. simpl in Heq. subst i'.
    apply elem_of_map_to_list in Hk, Hk'.
    destruct (wf_index _ _ HWF _ _ Hk) as [_ Hn].
    destruct (wf_index _ _ HWF _ _ Hk') as [_ Hn'].
    congruence.
  - intros i Hi. apply list_elem_of_fmap in Hi as [[k i'] [-> Hk]]. simpl.
    apply elem_of_map_to_list in Hk.
    by destruct (wf_index _ _ HWF _ _ Hk) as [? _].
Qed.

Lemma unindexed_nonneg l c : WF l c -> 0 <= unindexed c.
Proof.
  intros HWF. pose proof (WF_bounds _ _ HWF) as Hb.
  pose proof (submseteq_length _ _ (index_values _ _ HWF)) as Hlen.
  rewrite length_fmap, length_map_to_list in Hlen.
  unfold unindexed. lia.
Qed.

(** With as many keys as pages, every page of the ring has its key. *)
Lemma indexed_all l c i :
  WF l c -> unindexed c = 0 -> i ∈ l ->
  exists p, pages c !! i = Some p /\ index c !! Name (meta p) = Some i.
Proof.
  intros HWF Hz Hi. pose proof (WF_bounds _ _ HWF) as Hb.
  pose proof (index_values _ _ HWF) as Hsub.
  assert ((map_to_list (index c)).*2 ≡ₚ l) as Hp.
  { apply submseteq_length_Permutation; [done |].
    rewrite length_fmap, length_map_to_list. unfold unindexed in Hz. lia. }
  rewrite <- Hp in Hi.
  apply list_elem_of_fmap in Hi as [[k i'] [-> Hk]]. simpl.
  apply elem_of_map_to_list in Hk.
  destruct (wf_index _ _ HWF _ _ Hk) as [_ Hn].
  unfold metaOf in Hn. destruct (pages c !! i') as [p |] eqn:Hpi; [| done].
  exists p. simpl in Hn. by simplify_eq.
Qed.

Lemma without_Load_reachable (Err : Type) (capacity : Z) c :
  reachable_without_Load zero debugging capacity c ->
  reachable zero debugging Err capacity c.
Proof.
  induction 1 as [c Hnew | c key res c' _ IH Hrun | c fuel key value c' _ IH Hrun].
  - by constructor.
  - eapply reachable_step; [exact IH |]. exists O, (OpGet key).
    simpl. unfold bind. by rewrite Hrun.
  - eapply reachable_step; [exact IH |]. by exists fuel, (OpSet key value).
Qed.

Lemma without_Load_Inv (capacity : Z) c :
  capacity <= Int.max_int ->
  reachable_without_Load zero debugging capacity c ->
  exists l, Inv l c /\ clockpro.capacity c = capacity /\ unindexed c = 0.
Proof.
  intros Hmax Hreach.
  induction Hreach as [c Hnew | c key res c' _ IH Hrun
                      | c fuel key value c' _ IH Hrun].
  - exists []. destruct (New_Inv _ _ Hmax Hnew) as [HInv Hcap].
    split_and!; [done | done |].
    destruct (New_fields _ _ Hnew) as (Hidx & _ & _ & Hh & Hc & Ht).
    unfold unindexed. rewrite Hidx, Hh, Hc, Ht. done.
  - destruct IH as (l & HInv & Hcap & Hz).
    destruct (Get_spec zero _ _ _ _ _ HInv Hrun) as (HInv' & Hcap' & _ & _ & Hk).
    exists l. split_and!; [done | congruence |].
    pose proof (unindexed_nonneg _ _ (inv_wf _ _ HInv')). unfold kept in Hk.
    lia.
  - destruct IH as (l & HInv & Hcap & Hz).
    destruct (Set_spec zero debugging _ _ _ _ _ _ _ HInv Hrun)
      as (l' & HInv' & Hcap' & _ & Hk).
    exists l'. split_and!; [done | congruence |].
    pose proof (unindexed_nonneg _ _ (inv_wf _ _ HInv')). unfold kept in Hk.
    lia.
Qed.

(** Every page of the ring, resident or not, is the one the index holds
    for its key: the index has one key for each page. *)
Theorem index_covers_ring (capacity : Z) c :
  Int.in_range capacity ->
  reachable_without_Load zero debugging capacity c ->
  Z.of_nat (size (index c)) = Z.of_nat (length (ring_pages c))
  /\ forall i, i ∈ ring_pages c ->
       exists p, pages c !! i = Some p
         /\ index c !! Name (meta p) = Some i.
Proof.
  intros [_ Hmax] Hreach.
  destruct (without_Load_Inv _ _ Hmax Hreach) as (l & HInv & _ & Hz).
  pose proof (inv_wf _ _ HInv) as HWF.
  pose proof (ring_pages_perm _ _ HWF) as Hp.
  pose proof (WF_bounds _ _ HWF) as Hb.
  split.
  - rewrite Hp. unfold unindexed in Hz. lia.
  - intros i Hi. rewrite Hp in Hi. by eapply indexed_all.
Qed.
End Keyed.

Local Close Scope Z_scope.

(** ** Frames: what the hand sweeps leave of a page *)

Section FrameRules.
Context {Key : Type} `{Countable Key} {Value : Type}.
Local Abbreviation cache := (@Cache Key _ _ Value).
Local Abbreviation heap := (ring.heap Key Value).
Local Abbreviation page := (Ring Key Value).
Context (P : page -> page -> Prop) (HP : Frame P).
Local Set Default Proof Using "HP".
Local Open Scope run_scope.

Lemma recordsR_refl (h : heap) : recordsR P h h.
Proof. split; [done |]. intros i x Hx. exists x. split; [done | apply frame_refl]. Qed.

Lemma recordsR_trans (h1 h2 h3 : heap) :
  recordsR P h1 h2 -> recordsR P h2 h3 -> recordsR P h1 h3.
Proof.
  intros [L1 F1] [L2 F2]. split; [congruence |]. intros i x Hx.
  destruct (F1 i x Hx) as (y & Hy & Pxy).
  destruct (F2 i y Hy) as (z & Hz & Pyz).
  exists z. split; [done |]. by eapply frame_trans.
Qed.

Lemma framed_refl (c : cache) : framed P c c.
Proof. split; [apply recordsR_refl | done]. Qed.

Lemma framed_trans (c1 c2 c3 : cache) :
  framed P c1 c2 -> framed P c2 c3 -> framed P c1 c3.
Proof.
  intros [R1 I1] [R2 I2]. split; [by eapply recordsR_trans | auto].
Qed.

(** *** The page records *)

Lemma hkeeps_ret {A} (a : A) : hkeeps P (ret a).
Proof. intros h a' h' [= _ <-]. apply recordsR_refl. Qed.

Lemma hkeeps_bind {A B} (m : M heap A) (k : A -> M heap B) :
  hkeeps P m -> (forall a, hkeeps P (k a)) -> hkeeps P (bind m k).
Proof.
  intros Hm Hk h b h' (a & h1 & E1 & E2)%bind_Ok.
  eapply recordsR_trans; [by eapply Hm | by eapply Hk].
Qed.

Lemma hkeeps_load (r : ptr) : hkeeps P (load r).
Proof.
  intros h x h' E. destruct r as [i |]; [| done]. unfold load in E.
  destruct (h !! i); [| done]. injection E as _ <-. apply recordsR_refl.
Qed.

Lemma hkeeps_store (r : ptr) (f : page -> page) :
  (forall x, P x (f x)) -> hkeeps P (store r f).
Proof.
  intros Hf h u h' E. destruct r as [i |]; [| done]. unfold store in E.
  destruct (h !! i) as [y |] eqn:Hy; [| done]. injection E as E. subst h'.
  split; [by rewrite length_alter |]. intros j x Hx.
  destruct (decide (j = i)) as [-> | Hne].
  - exists (f x). rewrite list_lookup_alter, Hx, decide_True by done.
    split; [done | apply Hf].
  - exists x. rewrite list_lookup_alter, decide_False by done.
    split; [done | apply frame_refl].
Qed.

Lemma hkeeps_init (r : ptr) : hkeeps P (init r).
Proof.
  unfold init. apply hkeeps_bind; [apply hkeeps_store, frame_next |].
  intros _. apply hkeeps_bind; [apply hkeeps_store, frame_prev |].
  intros _. apply hkeeps_ret.
Qed.

Lemma hkeeps_Next (r : ptr) : hkeeps P (Next r).
Proof.
  unfold Next. apply hkeeps_bind; [apply hkeeps_load |]. intros x.
  destruct (next x); [apply hkeeps_ret | apply hkeeps_init].
Qed.

Lemma hkeeps_Prev (r : ptr) : hkeeps P (Prev r).
Proof.
  unfold Prev. apply hkeeps_bind; [apply hkeeps_load |]. intros x.
  destruct (next x); [apply hkeeps_ret | apply hkeeps_init].
Qed.

Lemma hkeeps_walk (field : page -> ptr) (n : nat) :
  forall r, hkeeps P (walk field n r).
Proof.
  induction n as [| n IH]; intros r; simpl; [apply hkeeps_ret |].
  apply hkeeps_bind; [apply hkeeps_load |]. intros x. apply IH.
Qed.

Lemma hkeeps_Move (r : ptr) (n : Z) : hkeeps P (Move r n).
Proof.
  unfold Move. apply hkeeps_bind; [apply hkeeps_load |]. intros x.
  destruct (next x); [| apply hkeeps_init].
  destruct (n <? 0)%Z; [apply hkeeps_walk |].
  destruct (0 <? n)%Z; [apply hkeeps_walk | apply hkeeps_ret].
Qed.

Lemma hkeeps_Link (r s : ptr) : hkeeps P (Link r s).
Proof.
  unfold Link. apply hkeeps_bind; [apply hkeeps_Next |]. intros n.
  destruct s as [j |]; [| apply hkeeps_ret].
  apply hkeeps_bind; [apply hkeeps_Prev |]. intros p.
  apply hkeeps_bind; [apply hkeeps_store, frame_next |]. intros _.
  apply hkeeps_bind; [apply hkeeps_store, frame_prev |]. intros _.
  apply hkeeps_bind; [apply hkeeps_store, frame_prev |]. intros _.
  apply hkeeps_bind; [apply hkeeps_store, frame_next |]. intros _.
  apply hkeeps_ret.
Qed.

Lemma hkeeps_Unlink (r : ptr) (n : Z) : hkeeps P (Unlink r n).
Proof.
  unfold Unlink. destruct (n <=? 0)%Z; [apply hkeeps_ret |].
  apply hkeeps_bind; [apply hkeeps_Move |]. intros s. apply hkeeps_Link.
Qed.

(** *** The cache *)

Lemma keeps_ret {A} (a : A) : keeps P (ret a).
Proof. intros c a' c' [= _ <-]. apply framed_refl. Qed.

Lemma keeps_get : keeps P get.
Proof. intros c a' c' [= _ <-]. apply framed_refl. Qed.

Lemma keeps_panic {A} : keeps P (@panic cache A).
Proof. by intros c a c'. Qed.

Lemma keeps_timeout {A} : keeps P (@timeout cache A).
Proof. by intros c a c'. Qed.

Lemma keeps_bind {A B} (m : M cache A) (k : A -> M cache B) :
  keeps P m -> (forall a, keeps P (k a)) -> keeps P (bind m k).
Proof.
  intros Hm Hk c b c' (a & c1 & E1 & E2)%bind_Ok.
  eapply framed_trans; [by eapply Hm | by eapply Hk].
Qed.

(** Two steps that are within [P] only together. *)
Lemma keeps_bind2 {B} (m1 m2 : M cache unit) (k : M cache B) :
  keeps P (m1 ;; m2) -> keeps P k -> keeps P (m1 ;; m2 ;; k).
Proof.
  intros Hm Hk c b c' ([] & c1 & E1 & ([] & c2 & E2 & E3)%bind_Ok)%bind_Ok.
  eapply framed_trans; [| by eapply Hk].
  apply (Hm c tt c2). unfold bind. by rewrite E1.
Qed.

Lemma keeps_modify (f : cache -> cache) :
  (forall c, pages (f c) = pages c) ->
  (forall c k i, index (f c) !! k = Some i -> index c !! k = Some i) ->
  keeps P (modify f).
Proof.
  intros Hp Hi c u c' E. unfold modify in E. simplify_eq.
  split; [| apply Hi]. rewrite Hp. apply recordsR_refl.
Qed.

Lemma keeps_onPages {A} (m : M heap A) : hkeeps P m -> keeps P (onPages m).
Proof.
  intros Hm c a c' (h' & E & ->)%zoom_Ok. split; [| done].
  by eapply Hm.
Qed.

Lemma keeps_read (r : ptr) : keeps P (read r).
Proof. apply keeps_onPages, hkeeps_load. Qed.

Lemma keeps_setMeta (r : ptr) (f : Metadata Key -> Metadata Key) :
  (forall m, Name (f m) = Name m) ->
  (forall m, Resident (f m) = Resident m) ->
  keeps P (setMeta r f).
Proof.
  intros HN HR. apply keeps_onPages, hkeeps_store. intros x.
  by apply frame_meta.
Qed.

Lemma keeps_when (b : bool) (m : M cache unit) :
  keeps P m -> keeps P (when b m).
Proof. intros Hm. destruct b; [done | apply keeps_ret]. Qed.

Lemma keeps_assert (debugging cond : bool) : keeps P (assert debugging cond).
Proof.
  unfold assert. destruct (debugging && negb cond);
    [apply keeps_panic | apply keeps_ret].
Qed.
End FrameRules.

Create HintDb frames discriminated.

#[export] Hint Extern 0 (Frame _) =>
  first [assumption | typeclasses eauto] : frames.
#[export] Hint Resolve keeps_ret keeps_get keeps_panic keeps_timeout
  keeps_bind keeps_read keeps_when keeps_assert keeps_onPages : frames.
#[export] Hint Resolve hkeeps_Next hkeeps_Prev hkeeps_Link hkeeps_Unlink
  hkeeps_Move : frames.
#[export] Hint Extern 2 (keeps _ (setMeta _ _)) =>
  simple apply keeps_setMeta; [| done | done] : frames.
#[export] Hint Extern 2 (keeps _ (modify _)) =>
  simple apply keeps_modify;
    [| done
     | first [done | by intros ? ? ?; cbn; intros [_ ?]%lookup_delete_Some]]
  : frames.
#[export] Hint Extern 3 (keeps _ (if ?b then _ else _)) =>
  destruct b : frames.
#[export] Hint Extern 3 (keeps _ (match ?o with Some _ => _ | None => _ end)) =>
  destruct o : frames.

(** The hand sweeps, piece by piece. *)
Ltac frames := auto 40 with frames.

Section Sweeps.
Context {Key : Type} `{Countable Key} {Value : Type}.
Variable zero : Value.
Variable debugging : bool.
Local Abbreviation cache := (@Cache Key _ _ Value).
Local Abbreviation heap := (ring.heap Key Value).
Local Abbreviation page := (Ring Key Value).
Context (P : page -> page -> Prop) (HP : Frame P).
Local Set Default Proof Using "HP".
Local Open Scope run_scope.

Lemma sweepTest_loop_keeps fuel : forall hand, keeps P (sweepTest_loop fuel hand).
Proof.
  induction fuel as [| fuel IH]; intros hand; simpl; frames.
Qed.

Lemma sweepTest_keeps fuel : keeps P (sweepTest fuel).
Proof.
  pose proof (sweepTest_loop_keeps fuel). unfold sweepTest. frames.
Qed.

Lemma removeTest_keeps fuel r : keeps P (removeTest fuel r).
Proof.
  pose proof (sweepTest_keeps fuel). unfold removeTest. frames.
Qed.

Lemma adjustColdTarget_keeps delta : keeps P (adjustColdTarget delta).
Proof. unfold adjustColdTarget. frames. Qed.

Lemma decreaseColdTarget_keeps : keeps P decreaseColdTarget.
Proof.
  pose proof adjustColdTarget_keeps. unfold decreaseColdTarget. frames.
Qed.

Lemma increaseColdTarget_keeps : keeps P increaseColdTarget.
Proof.
  pose proof adjustColdTarget_keeps. unfold increaseColdTarget. frames.
Qed.

Lemma handleHotLIR_keeps r : keeps P (handleHotLIR r).
Proof. unfold handleHotLIR. frames. Qed.

Lemma handleHotHIR_keeps fuel r n : keeps P (handleHotHIR fuel r n).
Proof.
  pose proof (removeTest_keeps fuel). pose proof decreaseColdTarget_keeps.
  unfold handleHotHIR. frames.
Qed.

Lemma sweepHot_loop_keeps fuel : forall r, keeps P (sweepHot_loop fuel r).
Proof.
  induction fuel as [| fuel IH]; intros r; simpl; [frames |].
  pose proof handleHotLIR_keeps. pose proof (handleHotHIR_keeps fuel).
  frames.
Qed.

Lemma sweepHot_keeps fuel : keeps P (sweepHot fuel).
Proof.
  pose proof (sweepHot_loop_keeps fuel). unfold sweepHot. frames.
Qed.

Lemma moveToLRU_keeps r : keeps P (moveToLRU r).
Proof. unfold moveToLRU. frames. Qed.

Lemma demoteHot_keeps fuel : keeps P (demoteHot debugging fuel).
Proof.
  pose proof (sweepHot_keeps fuel). pose proof moveToLRU_keeps.
  unfold demoteHot. frames.
Qed.

Lemma promoteCold_loop_keeps fuel : keeps P (promoteCold_loop debugging fuel).
Proof.
  induction fuel as [| fuel IH]; simpl; [frames |].
  pose proof (demoteHot_keeps fuel). frames.
Qed.

Lemma promoteCold_keeps fuel r : keeps P (promoteCold debugging fuel r).
Proof.
  pose proof (promoteCold_loop_keeps fuel). pose proof moveToLRU_keeps.
  unfold promoteCold. frames.
Qed.

Lemma handleReferencedCold_keeps fuel r :
  keeps P (handleReferencedCold debugging fuel r).
Proof.
  pose proof (promoteCold_keeps fuel). pose proof moveToLRU_keeps.
  pose proof decreaseColdTarget_keeps.
  unfold handleReferencedCold. frames.
Qed.

Lemma sweepCold_loop_keeps fuel :
  forall hand, keeps P (sweepCold_loop debugging fuel hand).
Proof.
  induction fuel as [| fuel IH]; intros hand; simpl; [frames |].
  pose proof (handleReferencedCold_keeps fuel). frames.
Qed.

Lemma sweepCold_keeps fuel : keeps P (sweepCold debugging fuel).
Proof.
  pose proof (sweepCold_loop_keeps fuel). unfold sweepCold. frames.
Qed.

Lemma pruneTest_loop_keeps fuel :
  forall limit, keeps P (pruneTest_loop debugging fuel limit).
Proof.
  induction fuel as [| fuel IH]; intros limit; simpl; [frames |].
  pose proof (removeTest_keeps fuel). frames.
Qed.

Lemma pruneTest_keeps fuel : keeps P (pruneTest debugging fuel).
Proof.
  pose proof (pruneTest_loop_keeps fuel). unfold pruneTest. frames.
Qed.
End Sweeps.

(** ** What a miss does to the other pages *)

#[export] Instance same_page_frame {Key Value : Type} :
  Frame (@same_page Key Value).
Proof.
  split; unfold same_page; try done.
  intros x y z (? & ? & ?) (? & ? & ?). split_and!; congruence.
Qed.

#[export] Instance page_or_ghost_frame {Key Value : Type} :
  Frame (@page_or_ghost Key Value).
Proof.
  split; unfold page_or_ghost; try done.
  - intros x y z [N1 R1] [N2 R2]. split; [congruence |].
    intros Hz. destruct (R2 Hz) as [Hy Vz]. destruct (R1 Hy) as [Hx Vy].
    split; [done | congruence].
  - intros f x HN HR. split; [done |]. simpl. by rewrite HR.
Qed.

(** The frame of a run, from the frame of the code that ran. *)
Ltac framed_by E :=
  lazymatch type of E with
  | ?m ?c = Ok (_, ?c') =>
      lazymatch goal with
      | |- framed ?P _ _ =>
          let Hk := fresh in
          assert (keeps P m) as Hk; [| exact (Hk _ _ _ E)]
      end
  end.

Section Misses.
Context {Key : Type} `{Countable Key} {Value : Type}.
Variable zero : Value.
Variable debugging : bool.
Local Abbreviation cache := (@Cache Key _ _ Value).
Local Abbreviation heap := (ring.heap Key Value).
Local Abbreviation page := (Ring Key Value).
Implicit Types (c : cache) (i j x y t : nat) (l : list nat) (r : ptr)
  (h : heap) (p q : page).
Local Open Scope run_scope.
Local Abbreviation kept_page := (@same_page Key Value).
Local Abbreviation evictable := (@page_or_ghost Key Value).

Lemma same_page_weaken p q : kept_page p q -> evictable p q.
Proof. intros (HN & HR & HV). split; [done |]. intros Hq. by rewrite <- HR. Qed.

Lemma framed_weaken c c' : framed kept_page c c' -> framed evictable c c'.
Proof.
  intros [[Hlen Hrec] Hidx]. split; [| done]. split; [done |].
  intros i p Hp. destruct (Hrec i p Hp) as (q & Hq & Hpq).
  exists q. split; [done |]. by apply same_page_weaken.
Qed.

(** The two assignments of an eviction. *)
Lemma evict_keeps r :
  keeps evictable
    (setMeta r (with_Resident false) ;; setValue r zero).
Proof.
  intros c u c' E. destruct r as [x |]; [| by mrun E]. mrun E.
  unfold framed, recordsR; proj.
  split; [| done]. split; [by rewrite !length_alter |].
  intros i p Hp. destruct (decide (x = i)) as [<- | Hne].
  - rewrite !list_lookup_alter, !decide_True, Hp by done. simpl.
    eexists. split; [done |]. split; done.
  - rewrite !list_lookup_alter, !decide_False by done.
    exists p. split; [done | apply frame_refl].
Qed.

Lemma evictCold_keeps fuel :
  keeps evictable (@evictCold Key _ _ Value zero debugging fuel).
Proof.
  pose proof (removeTest_keeps evictable _ fuel).
  unfold evictCold.
  apply keeps_bind; [apply _ | frames |]. intros c.
  apply keeps_bind; [apply _ | frames |]. intros _. cbv zeta.
  apply keeps_bind; [apply _ | frames |]. intros n.
  apply keeps_bind; [apply _ | frames |]. intros _.
  apply keeps_bind2; [apply _ | apply evict_keeps |]. frames.
Qed.

(** A miss on a ghost: the page of the key is resident again, with the new
    value. *)
Lemma promoteTest_frame fuel t value c (u : unit) c' :
  promoteTest zero debugging fuel (Some t) value c = Ok (u, c') ->
  length (pages c') = length (pages c)
  /\ (forall k i, index c' !! k = Some i -> index c !! k = Some i)
  /\ (exists p q, pages c !! t = Some p /\ pages c' !! t = Some q
        /\ Name (meta q) = Name (meta p) /\ Resident (meta q) = true
        /\ Val q = value)
  /\ (forall i p, i <> t -> pages c !! i = Some p ->
        exists q, pages c' !! i = Some q /\ evictable p q).
Proof.
  intros Hrun. unfold promoteTest in Hrun.
  mhold Hrun as E1. mhold Hrun as E2. mhold Hrun as E3.
  mhold Hrun as E4. mhold Hrun as E5.
  assert (framed evictable c c2) as [[L1 R1] I1].
  { eapply framed_trans; [apply _ | |].
    - framed_by E1. frames.
    - eapply framed_trans; [apply _ | |].
      + framed_by E2. apply increaseColdTarget_keeps, _.
      + framed_by E3. apply evictCold_keeps. }
  assert (framed kept_page c4 c') as [[L5 R5] I5].
  { pose proof (sweepTest_keeps kept_page _ fuel).
    pose proof (promoteCold_keeps debugging kept_page _ fuel).
    pose proof (sweepCold_keeps debugging kept_page _ fuel).
    framed_by Hrun. frames. }
  mrun E4. mrun E5.
  rewrite !length_alter in L5.
  split_and!; [congruence | auto | |].
  - unfold metaOf in Hm. destruct (pages c2 !! t) as [p1 |] eqn:Hp1; [| done].
    destruct (lookup_lt_is_Some_2 (pages c) t) as [p Hp].
    { rewrite <- L1. by eapply lookup_lt_Some. }
    destruct (R1 _ _ Hp) as (p1' & Hp1' & HN & _). simplify_eq.
    destruct (R5 t (set_meta (with_Resident true) (set_Val value p1)))
      as (q & Hq & HNq & HRq & HVq).
    { by rewrite !list_lookup_alter, !decide_True, Hp1 by done. }
    exists p, q. split_and!; [done | done | | done | done].
    simpl in HNq. congruence.
  - intros i p Hne Hp. destruct (R1 _ _ Hp) as (p1 & Hp1 & Hpp1).
    destruct (R5 i p1) as (q & Hq & Hpq).
    { by rewrite !list_lookup_alter, !decide_False by congruence. }
    exists q. split; [done |]. eapply (frame_trans (P:=evictable)); [done |].
    by apply same_page_weaken.
Qed.

(** A page is linked into the ring and the index. *)
Lemma addToClock_frame t c (u : unit) c' :
  addToClock (Some t) c = Ok (u, c') ->
  recordsR kept_page (pages c) (pages c')
  /\ exists p, pages c !! t = Some p
       /\ index c' = <[Name (meta p) := t]> (index c).
Proof.
  intros Hrun. unfold addToClock in Hrun.
  mhold Hrun as E1. mprim E1. mhold Hrun as E2. mhold Hrun as E3.
  assert (framed kept_page c c0) as [[L1 R1] I1].
  { framed_by E2. frames. }
  assert (index c0 = index c) as Hix.
  { mrun E2; done. }
  mrun E3. mrun Hrun. split; [done |].
  unfold metaOf in Hm. destruct (pages c0 !! t) as [p1 |] eqn:Hp1; [| done].
  destruct (lookup_lt_is_Some_2 (pages c) t) as [p Hp].
  { rewrite <- L1. by eapply lookup_lt_Some. }
  destruct (R1 _ _ Hp) as (p1' & Hp1' & HN & _). simplify_eq.
  exists p. split; [done |]. simpl in *. injection Hm as Hm.
  by rewrite Hix, <- HN, Hm.
Qed.

(** A miss on a key without a page: a new page holds the value. *)
Lemma addNew_frame fuel key value c (u : unit) c' :
  addNew debugging fuel key value c = Ok (u, c') ->
  length (pages c') = S (length (pages c))
  /\ (forall k i, index c' !! k = Some i ->
        k = key /\ i = length (pages c) \/ index c !! k = Some i)
  /\ (exists q, pages c' !! length (pages c) = Some q
        /\ Name (meta q) = key /\ Resident (meta q) = true /\ Val q = value)
  /\ (forall i p, pages c !! i = Some p ->
        exists q, pages c' !! i = Some q /\ kept_page p q).
Proof.
  intros Hrun. unfold addNew in Hrun. mstep Hrun.
  set (rec := mkRing None None value _) in Hrun.
  mstep Hrun. run_of @alloc as EA. unfold alloc in EA. injection EA as <- <-.
  mhold Hrun as EC.
  destruct (addToClock_frame _ _ _ _ EC) as ([L1 R1] & p & Hp & Hix).
  proj. rewrite lookup_app_new in Hp. injection Hp as <-. simpl in Hix.
  assert (framed kept_page c0 c') as [[L2 R2] I2].
  { pose proof (sweepCold_keeps debugging kept_page _ fuel).
    pose proof (pruneTest_keeps debugging kept_page _ fuel).
    framed_by Hrun. frames. }
  rewrite length_app in L1. simpl in L1.
  split_and!.
  - lia.
  - intros k i Hk. apply I2 in Hk. rewrite Hix in Hk.
    apply lookup_insert_Some in Hk as [[<- <-] | [_ Hk]]; [by left | by right].
  - destruct (R1 (length (pages c)) rec) as (q1 & Hq1 & HN1 & HR1 & HV1);
      [apply lookup_app_new |].
    destruct (R2 _ _ Hq1) as (q & Hq & HN & HR & HV).
    exists q. split_and!; [done | | |]; simpl in *; congruence.
  - intros i p Hp.
    destruct (R1 i p) as (q1 & Hq1 & Hpq1).
    { rewrite lookup_app_l; [done |]. by eapply lookup_lt_Some. }
    destruct (R2 _ _ Hq1) as (q & Hq & Hq1q).
    exists q. split; [done |]. by eapply frame_trans.
Qed.

(** A miss gives the key a resident page [t] with the value; every other
    page keeps its name, and its value unless it is evicted. *)
Lemma handleMiss_frame fuel key value hadMetadata c (u : unit) c' :
  handleMiss zero debugging fuel key value hadMetadata c = Ok (u, c') ->
  exists t q,
    pages c' !! t = Some q /\ Resident (meta q) = true /\ Val q = value
    /\ (t = length (pages c) /\ Name (meta q) = key
        \/ exists p, pages c !! t = Some p
             /\ Name (meta q) = Name (meta p) /\ index c !! key = Some t)
    /\ (forall i p, pages c !! i = Some p -> i <> t ->
          exists q', pages c' !! i = Some q' /\ evictable p q')
    /\ (forall i, (i < length (pages c'))%nat -> i <> t ->
          (i < length (pages c))%nat)
    /\ (forall k i, index c' !! k = Some i ->
          k = key /\ i = t \/ index c !! k = Some i).
Proof.
  intros Hrun. unfold handleMiss in Hrun.
  mhold Hrun as EH. mhold Hrun as EC.
  assert (framed kept_page c c1) as [[L1 R1] I1].
  { eapply framed_trans; [apply _ | |].
    - framed_by EH. apply sweepHot_keeps, _.
    - framed_by EC. apply sweepCold_keeps, _. }
  mstep Hrun.
  destruct (if hadMetadata then index c1 !! key else None) as [t |] eqn:Ht.
  - (* the key has a ghost *)
    destruct hadMetadata; [| done].
    destruct (promoteTest_frame _ _ _ _ _ _ Hrun)
      as (L2 & I2 & (p1 & q & Hp1 & Hq & HN & HR & HV) & R2).
    destruct (lookup_lt_is_Some_2 (pages c) t) as [p Hp].
    { rewrite <- L1. by eapply lookup_lt_Some. }
    destruct (R1 _ _ Hp) as (p1' & Hp1' & HN1 & _). simplify_eq.
    exists t, q. split_and!; [done | done | done | | | | auto].
    + right. exists p. split_and!; [done | congruence | auto].
    + intros i p' Hp' Hne. destruct (R1 _ _ Hp') as (p2 & Hp2 & Hpp2).
      destruct (R2 _ _ Hne Hp2) as (q' & Hq' & Hp2q).
      exists q'. split; [done |]. eapply frame_trans; [| done].
      by apply same_page_weaken.
    + intros i Hi _. lia.
  - (* no metadata *)
    mhold Hrun as EA. unfold atCapacity in EA. mrun EA.
    mhold Hrun as EE.
    assert (framed evictable c1 c2) as [[L2 R2] I2].
    { pose proof (evictCold_keeps fuel). framed_by EE. frames. }
    destruct (addNew_frame _ _ _ _ _ _ Hrun)
      as (L3 & I3 & (q & Hq & HN & HR & HV) & R3).
    assert (length (pages c2) = length (pages c)) as L02 by congruence.
    exists (length (pages c)), q. rewrite <- L02.
    split_and!; [done | done | done | by left | | |].
    + intros i p Hp Hne. destruct (R1 _ _ Hp) as (p1 & Hp1 & Hpp1).
      destruct (R2 _ _ Hp1) as (p2 & Hp2 & Hpp2).
      destruct (R3 _ _ Hp2) as (q' & Hq' & Hpq').
      exists q'. split; [done |].
      eapply frame_trans; [by apply same_page_weaken |].
      eapply (frame_trans (P:=evictable)); [done |]. by apply same_page_weaken.
    + intros i Hi Hne. lia.
    + intros k i Hk. destruct (I3 _ _ Hk) as [[-> ->] | Hk']; [by left |].
      right. auto.
Qed.
End Misses.

Local Open Scope Z_scope.

(** ** What a miss does to the lookups *)

Section Lookups.
Context {Key : Type} `{Countable Key} {Value : Type}.
Variable zero : Value.
Variable debugging : bool.
Variable Err : Type.
Local Abbreviation cache := (@Cache Key _ _ Value).
Implicit Types (c : cache) (i j x y t : nat) (l : list nat) (r : ptr)
  (p q : Ring Key Value).

Lemma cached_Some c (key : Key) v :
  cached c key = Some v <->
  exists i p, index c !! key = Some i /\ pages c !! i = Some p
    /\ Resident (meta p) = true /\ Val p = v.
Proof.
  unfold cached. split.
  - destruct (index c !! key) as [i |]; [| done].
    destruct (pages c !! i) as [p |] eqn:Hp; [| done].
    destruct (Resident (meta p)) eqn:HR; [| done].
    intros [= <-]. by exists i, p.
  - intros (i & p & -> & -> & -> & ->). done.
Qed.

(** A miss leaves the value of any other key that is still resident. *)
Lemma handleMiss_others fuel l c (key k : Key) value hadMetadata (u : unit)
    c' v :
  WF l c ->
  handleMiss zero debugging fuel key value hadMetadata c = Ok (u, c') ->
  k <> key -> cached c' k = Some v -> cached c k = Some v.
Proof.
  intros HWF Hrun Hne (i & q & Hk & Hq & HR & HV)%cached_Some.
  destruct (handleMiss_frame _ _ _ _ _ _ _ _ _ Hrun)
    as (t & qt & Hqt & _ & _ & Ht & Hoth & _ & Hidx).
  destruct (Hidx _ _ Hk) as [[-> _] | Hk0]; [done |].
  destruct (indexed_page _ _ _ _ HWF Hk0) as (p & Hp & HN & Hi).
  assert (i <> t) as Hit.
  { intros ->. destruct Ht as [[-> _] | (p0 & Hp0 & _ & Hkey)].
    - apply lookup_lt_Some in Hp. lia.
    - destruct (indexed_page _ _ _ _ HWF Hkey) as (p1 & Hp1 & HN1 & _).
      congruence. }
  destruct (Hoth _ _ Hp Hit) as (q' & Hq' & _ & Hres). simplify_eq.
  destruct (Hres HR) as [HRp HVp].
  apply cached_Some. exists i, p. split_and!; [done | done | done | congruence].
Qed.

(** On a cache whose index has every page of the ring, a miss that
    returns leaves the key resident with the value. *)
Lemma handleMiss_places fuel l c (key : Key) value hadMetadata (u : unit) c' :
  Inv l c -> unindexed c = 0 ->
  (hadMetadata = true ->
   forall i, index c !! key = Some i -> flagOf Resident (pages c) i = false) ->
  hadMetadata = true \/ index c !! key = None ->
  handleMiss zero debugging fuel key value hadMetadata c = Ok (u, c') ->
  cached c' key = Some value.
Proof.
  intros HInv Hz Hghost Hnew Hrun.
  destruct (handleMiss_spec zero debugging _ _ _ _ _ _ _ _ HInv Hghost Hrun)
    as (l' & HInv' & _ & _ & Hkept).
  pose proof (inv_wf _ _ HInv) as HWF. pose proof (inv_wf _ _ HInv') as HWF'.
  specialize (Hkept Hnew). unfold kept in Hkept.
  pose proof (unindexed_nonneg _ _ HWF') as Hnn.
  assert (unindexed c' = 0) as Hz' by lia.
  destruct (handleMiss_frame _ _ _ _ _ _ _ _ _ Hrun)
    as (t & q & Hq & HR & HV & Ht & _).
  assert (t ∈ l') as Htl.
  { apply (WF_Resident_in _ _ _ HWF'). unfold flagOf, metaOf.
    by rewrite Hq. }
  destruct (indexed_all _ _ _ HWF' Hz' Htl) as (q' & Hq' & Hk).
  simplify_eq.
  assert (Name (meta q) = key) as HN.
  { destruct Ht as [[_ HN] | (p & Hp & HN & Hkey)]; [done |].
    destruct (indexed_page _ _ _ _ HWF Hkey) as (p1 & Hp1 & HN1 & _).
    congruence. }
  apply cached_Some. exists t, q. by rewrite <- HN.
Qed.

(** [Set] and [Load] never change the value cached for a key other than
    their own: after a call that returned, a lookup of another key finds
    what it found before, unless the key was evicted. *)
Theorem calls_keep_other_keys (capacity : Z) c (o : op Err) (fuel : nat) c'
    (k : Key) v :
  Int.in_range capacity ->
  reachable zero debugging Err capacity c ->
  exec zero debugging Err fuel o c = Ok (tt, c') ->
  k <> match o with OpGet key | OpSet key _ | OpLoad key _ => key end ->
  cached c' k = Some v -> cached c k = Some v.
Proof.
  intros [_ Hmax] Hreach Hrun Hne Hc'.
  destruct (reachable_Inv _ _ _ _ _ Hmax Hreach) as (l & [HWF] & _).
  destruct o as [key | key value | key fetch]; simpl in Hrun.
  - (* Get *)
    pose proof (Get_run zero _ _ key HWF) as HG.
    mhold Hrun as EG. mrun Hrun.
    destruct (cached c key) as [w |].
    + destruct HG as (i & _ & HG). rewrite HG in EG. injection EG as _ <-.
      by rewrite cached_referenced in Hc'.
    + rewrite HG in EG. by injection EG as _ <-.
  - (* Set *)
    destruct (cached c key) as [old |] eqn:Hold.
    + destruct (Set_hit_run zero debugging _ _ _ _ value fuel HWF Hold)
        as (i & p & Hk & Hp & HR & Heq).
      rewrite Heq in Hrun. injection Hrun as <-.
      rewrite (cached_hit l c i key k p value HWF Hk Hp HR) in Hc'.
      by rewrite decide_False in Hc'.
    + destruct (Set_miss_run zero debugging _ _ _ _ _ _ _ HWF Hold Hrun)
        as (had & Hm & _).
      by eapply handleMiss_others.
  - (* Load *)
    pose proof (Get_run zero _ _ key HWF) as HG.
    mhold Hrun as EL. mrun Hrun. unfold Load, bind at 1 in EL.
    destruct (cached c key) as [w |].
    + destruct HG as (i & _ & HG). rewrite HG in EL. simpl in EL. mrun EL.
      by rewrite cached_referenced in Hc'.
    + rewrite HG in EL. simpl in EL.
      destruct (fetch tt) as [w [e |]]; [by mrun EL |].
      mhold EL as EM. mrun EL. by eapply handleMiss_others.
Qed.

(** In a program that never calls [Load], a [Set] that returns is read
    back: the next [Get] of the key returns the value and [true]. *)
Theorem Set_then_Get (capacity : Z) c (key : Key) (value : Value)
    (fuel : nat) c' :
  Int.in_range capacity ->
  reachable_without_Load zero debugging capacity c ->
  Set_ zero debugging fuel key value c = Ok (tt, c') ->
  cached c' key = Some value
  /\ exists c'', Get zero key c' = Ok ((value, true), c'').
Proof.
  intros [_ Hmax] Hreach Hrun.
  destruct (without_Load_Inv _ _ _ _ Hmax Hreach) as (l & HInv & _ & Hz).
  pose proof (inv_wf _ _ HInv) as HWF.
  assert (cached c' key = Some value) as Hc'.
  { destruct (cached c key) as [old |] eqn:Hold.
    - destruct (Set_hit_run zero debugging _ _ _ _ value fuel HWF Hold)
        as (i & p & Hk & Hp & HR & Heq).
      rewrite Heq in Hrun. injection Hrun as <-.
      rewrite (cached_hit l c i key key p value HWF Hk Hp HR).
      by rewrite decide_True.
    - destruct (Set_miss_run zero debugging _ _ _ _ _ _ _ HWF Hold Hrun)
        as (had & Hm & Hg & Hnew).
      by eapply handleMiss_places. }
  split; [done |].
  assert (exists l', WF l' c') as [l' HWF'].
  { destruct (Set_spec zero debugging _ _ _ _ _ _ _ HInv Hrun)
      as (l' & [HWF'] & _). by exists l'. }
  pose proof (Get_run zero _ _ key HWF') as HG. rewrite Hc' in HG.
  destruct HG as (i & _ & HG). eauto.
Qed.

End Lookups.

(** ** The keys of a cache that was never handed to [Load] *)

Section Listing.
Context {Key : Type} `{Countable Key} {Value : Type}.
Variable zero : Value.
Variable debugging : bool.
Local Abbreviation cache := (@Cache Key _ _ Value).
Implicit Types (c : cache) (i j x y t : nat) (l : list nat) (r : ptr)
  (h : heap Key Value) (p q : Ring Key Value) (order : list (Key * nat)).

(** The loop of [Keys], when [residents] counts the resident pages it is
    still to find. *)
Lemma Keys_loop_run (yield : Key -> bool) h : forall order residents,
  (forall e, e ∈ order -> (e.2 < length h)%nat) ->
  residents
  = Z.of_nat (length (filter (fun e => flagOf Resident h e.2 = true) order)) ->
  residents <= Int.max_int ->
  Keys_loop order residents yield h
  = Ok (yielded yield
          (filter (fun e => flagOf Resident h e.2 = true) order).*1).
Proof.
  induction order as [| [k i] order IH]; intros residents Hval Hres Hmax;
    [done |].
  assert (forall e, e ∈ order -> (e.2 < length h)%nat) as Hval'.
  { intros e He. apply Hval. by right. }
  destruct (lookup_lt_is_Some_2 h i) as [p Hp].
  { apply (Hval (k, i)). by left. }
  simpl. rewrite Hp. rewrite filter_cons in *. simpl in *.
  assert (flagOf Resident h i = Resident (meta p)) as Hf.
  { unfold flagOf, metaOf. by rewrite Hp. }
  rewrite Hf in *. destruct (Resident (meta p)).
  - rewrite decide_True in * by done. simpl in *.
    destruct (yield k); simpl; [| done].
    assert (decr residents = residents - 1) as Hd.
    { apply decr_small. lia. }
    rewrite Hd.
    destruct (residents - 1 =? 0) eqn:Hz.
    + apply Z.eqb_eq in Hz.
      destruct (filter _ order) as [| e rest]; [done |]. simpl in Hres. lia.
    + rewrite (IH (residents - 1)); [done | done | lia | lia].
  - rewrite decide_False in * by done. by apply IH.
Qed.

(** The pages the index points at are the ring. *)
Lemma index_values_perm l c :
  WF l c -> unindexed c = 0 -> (map_to_list (index c)).*2 ≡ₚ l.
Proof.
  intros HWF Hz. pose proof (WF_bounds _ _ HWF) as Hb.
  apply submseteq_length_Permutation; [by apply index_values |].
  rewrite length_fmap, length_map_to_list. unfold unindexed in Hz. lia.
Qed.

Lemma count_Resident h l :
  (forall i, i ∈ l -> flagOf flags_ok h i = true) ->
  count Resident h l = count isHot h l + count isCold h l.
Proof.
  induction l as [| x l IH]; intros Hok; [done |].
  rewrite !count_cons. rewrite IH by (intros i Hi; apply Hok; set_solver).
  destruct (flagOf_true _ _ _ (Hok x ltac:(set_solver))) as (m & Hm & Hf).
  rewrite !(flagOf_Some _ _ _ _ Hm).
  unfold flags_ok, isHot, isCold in *.
  destruct m as [k [] [] [] [] s]; simpl in *; try done; lia.
Qed.

Lemma filter_snd_length h order :
  length (filter (fun e : Key * nat => flagOf Resident h e.2 = true) order)
  = length (filter (fun i => flagOf Resident h i = true) order.*2).
Proof.
  induction order as [| [k i] order IH]; [done |].
  rewrite fmap_cons, !filter_cons. simpl.
  destruct (decide (flagOf Resident h i = true)); simpl; by rewrite IH.
Qed.

(** In a program that never calls [Load], [Keys] hands to [yield] the
    keys that [Get] finds, each once, [Len()] of them if [yield] never
    returns false, and stops at the first key for which it does. *)
Theorem Keys_lists_the_residents (capacity : Z) c order
    (yield : Key -> bool) :
  Int.in_range capacity ->
  reachable_without_Load zero debugging capacity c ->
  order ≡ₚ map_to_list (index c) ->
  Keys c order yield = Ok (yielded yield (resident_keys c order))
  /\ NoDup (resident_keys c order)
  /\ Z.of_nat (length (resident_keys c order)) = Len c
  /\ forall k, k ∈ resident_keys c order <-> is_Some (cached c k).
Proof.
  intros [_ Hmax] Hreach Hord.
  destruct (without_Load_Inv _ _ _ _ Hmax Hreach) as (l & HInv & _ & Hz).
  pose proof (inv_wf _ _ HInv) as HWF.
  pose proof (WF_bounds _ _ HWF) as Hb.
  pose proof (wf_residents _ _ HWF) as Hres.
  pose proof (wf_capacity _ _ HWF) as Hcap.
  assert (forall k i, (k, i) ∈ order <-> index c !! k = Some i) as Hin.
  { intros k i. rewrite Hord. apply elem_of_map_to_list. }
  assert (Z.of_nat (length (filter (fun e : Key * nat =>
             flagOf Resident (pages c) e.2 = true) order)) = Len c) as Hlen.
  { rewrite filter_snd_length.
    assert (order.*2 ≡ₚ l) as Hp.
    { rewrite Hord. by apply index_values_perm. }
    rewrite Hp, <- count_filter, count_Resident by apply HWF.
    rewrite <- (wf_hotCount _ _ HWF), <- (wf_coldCount _ _ HWF).
    by rewrite (Len_sum _ _ HWF). }
  unfold resident_keys. split_and!.
  - unfold Keys. apply Keys_loop_run.
    + intros [k i] He. apply Hin in He. simpl.
      destruct (wf_index _ _ HWF _ _ He) as [Hi _]. by eapply WF_valid.
    + done.
    + rewrite (Len_sum _ _ HWF). lia.
  - eapply sublist_NoDup; [| apply fmap_sublist, sublist_filter].
    rewrite Hord. apply NoDup_fst_map_to_list.
  - by rewrite length_fmap.
  - intros k. rewrite list_elem_of_fmap. split.
    + intros ([k' i] & -> & [Hr He]%list_elem_of_filter). simpl in *.
      apply Hin in He. unfold cached. rewrite He.
      unfold flagOf, metaOf in Hr.
      destruct (pages c !! i) as [p |]; [| done]. simpl in Hr.
      by rewrite Hr.
    + intros [v (i & p & Hk & Hp & HR & _)%cached_Some].
      exists (k, i). split; [done |]. apply list_elem_of_filter.
      split; [| by apply Hin]. simpl. unfold flagOf, metaOf.
      by rewrite Hp.
Qed.
End Listing.

(** ** The properties on the scenarios of the tests *)

Section Programs.
Context {Key : Type} `{Countable Key} {Value : Type}.
Variable zero : Value.
Variable debugging : bool.
Variable Err : Type.
Local Abbreviation cache := (@Cache Key _ _ Value).

Lemma run_without_Load (capacity : Z) fuel (ops : list (op Err)) :
  forall (c : cache) u c',
  reachable_without_Load zero debugging capacity c ->
  forallb no_Load ops = true ->
  run zero debugging Err fuel ops c = Ok (u, c') ->
  reachable_without_Load zero debugging capacity c'.
Proof.
  induction ops as [| o ops IH]; intros c u c' Hreach Hno Hrun;
    simpl in Hrun.
  - unfold ret in Hrun. by simplify_eq.
  - simpl in Hno. apply andb_true_iff in Hno as [Ho Hno].
    apply bind_Ok in Hrun as ([] & c1 & E & Hrun).
    eapply IH; [| done | done].
    destruct o as [key | key value | key fetch]; [| | done]; simpl in E.
    + apply bind_Ok in E as (res & c2 & EG & E). unfold ret in E.
      simplify_eq. by eapply without_Load_Get.
    + by eapply without_Load_Set.
Qed.

Lemma after_without_Load (capacity : Z) fuel (ops : list (op Err))
    (c : cache) :
  forallb no_Load ops = true ->
  after zero debugging Err capacity fuel ops = Ok c ->
  reachable_without_Load zero debugging capacity c.
Proof.
  unfold after. intros Hno.
  destruct (New capacity) as [c0 | e] eqn:Hnew; [| done].
  destruct (run zero debugging Err fuel ops c0) as [[u c1] | |] eqn:Hrun;
    [| done..].
  intros [= <-]. eapply run_without_Load; [| done | done]. by constructor.
Qed.
End Programs.

Lemma counters_count_ring_witness :
  Int.in_range 3 /\ reachable 0 false unit 3 demoted
  /\ ring_count isHot demoted = 2
  /\ ring_count isCold demoted = 1
  /\ ring_count isTest demoted = 1.
Proof.
  assert (Int.in_range 3) as Hr by (apply in_range_small; lia).
  assert (reachable 0 false unit 3 demoted) as Hc.
  { apply (after_reachable 0 false unit 3 8 demoting). by vm_compute. }
  destruct (counters_count_ring 0 false unit 3 demoted Hr Hc)
    as (Hh & Hcc & Ht).
  split_and!; [done | done | | |].
  - rewrite <- Hh. by vm_compute.
  - rewrite <- Hcc. by vm_compute.
  - rewrite <- Ht. by vm_compute.
Defined.

Lemma index_is_sound_witness :
  Int.in_range 3 /\ reachable 0 false unit 3 demoted
  /\ index demoted !! 5 = Some 2%nat
  /\ 2%nat ∈ ring_pages demoted
  /\ Name <$> metaOf (pages demoted) 2 = Some 5.
Proof.
  assert (Int.in_range 3) as Hr by (apply in_range_small; lia).
  assert (reachable 0 false unit 3 demoted) as Hc.
  { apply (after_reachable 0 false unit 3 8 demoting). by vm_compute. }
  assert (index demoted !! 5 = Some 2%nat) as Hk by (by vm_compute).
  split_and!; [done | done | done | |];
    apply (index_is_sound 0 false unit 3 demoted 5 2%nat Hr Hc Hk).
Defined.

Lemma ring_flags_consistent_witness :
  Int.in_range 3 /\ reachable 0 false unit 3 demoted
  /\ 3%nat ∈ ring_pages demoted
  /\ exists m, metaOf (pages demoted) 3 = Some m
       /\ (LIR m = true -> Resident m = true /\ Demoted m = false)
       /\ (Resident m = false -> Referenced m = false /\ Demoted m = false).
Proof.
  assert (Int.in_range 3) as Hr by (apply in_range_small; lia).
  assert (reachable 0 false unit 3 demoted) as Hc.
  { apply (after_reachable 0 false unit 3 8 demoting). by vm_compute. }
  assert (3%nat ∈ ring_pages demoted) as Hi.
  { replace (ring_pages demoted) with [0; 1; 3; 2]%nat by (by vm_compute).
    set_solver. }
  split_and!; [done | done | done |].
  exact (ring_flags_consistent 0 false unit 3 demoted 3%nat Hr Hc Hi).
Defined.

Lemma hands_in_place_witness :
  Int.in_range 3 /\ reachable 0 false unit 3 demoted
  /\ 0%nat ∈ ring_pages demoted
  /\ flagOf Resident (pages demoted) 0 = true
  /\ 3%nat ∈ ring_pages demoted
  /\ flagOf Resident (pages demoted) 3 = false.
Proof.
  assert (Int.in_range 3) as Hr by (apply in_range_small; lia).
  assert (reachable 0 false unit 3 demoted) as Hc.
  { apply (after_reachable 0 false unit 3 8 demoting). by vm_compute. }
  destruct (hands_in_place 0 false unit 3 demoted Hr Hc) as (Hl & Ht & _).
  assert (lru demoted = Some 0%nat) as Hlru by (by vm_compute).
  assert (test demoted = Some 3%nat) as Htest by (by vm_compute).
  split_and!; [done | done | ..].
  - apply (Hl _ Hlru).
  - apply (Hl _ Hlru).
  - apply (Ht _ Htest).
  - apply (Ht _ Htest).
Defined.

Lemma hot_pages_and_ghosts_witness :
  Int.in_range 3 /\ reachable 0 false unit 3 demoted
  /\ hotCount demoted <= 3 - 1 /\ Len demoted = 3.
Proof.
  assert (Int.in_range 3) as Hr by (apply in_range_small; lia).
  assert (reachable 0 false unit 3 demoted) as Hc.
  { apply (after_reachable 0 false unit 3 8 demoting). by vm_compute. }
  destruct (hot_pages_and_ghosts 0 false unit 3 demoted Hr Hc)
    as (Hh & _ & Hfull).
  split_and!; [done | done | done |]. apply Hfull. by vm_compute.
Defined.

Lemma Get_hit_or_miss_witness :
  Int.in_range 3 /\ reachable 0 false unit 3 demoted
  /\ (exists c', Get 0 4 demoted = Ok ((4, true), c')
        /\ Len c' = Len demoted /\ forall k, cached c' k = cached demoted k)
  /\ Get 0 2 demoted = Ok ((0, false), demoted).
Proof.
  assert (Int.in_range 3) as Hr by (apply in_range_small; lia).
  assert (reachable 0 false unit 3 demoted) as Hc.
  { apply (after_reachable 0 false unit 3 8 demoting). by vm_compute. }
  pose proof (Get_hit_or_miss 0 false unit 3 demoted 4 Hr Hc) as Hhit.
  pose proof (Get_hit_or_miss 0 false unit 3 demoted 2 Hr Hc) as Hmiss.
  replace (cached demoted 4) with (Some 4) in Hhit by (by vm_compute).
  replace (cached demoted 2) with (@None Z) in Hmiss by (by vm_compute).
  by split_and!.
Defined.

Lemma Set_of_resident_key_witness :
  Int.in_range 3 /\ reachable 0 false unit 3 demoted
  /\ cached demoted 4 = Some 4
  /\ exists c', Set_ 0 false 0 4 9 demoted = Ok (tt, c')
       /\ cached c' 4 = Some 9
       /\ (forall k, k <> 4 -> cached c' k = cached demoted k)
       /\ Len c' = Len demoted.
Proof.
  assert (Int.in_range 3) as Hr by (apply in_range_small; lia).
  assert (reachable 0 false unit 3 demoted) as Hc.
  { apply (after_reachable 0 false unit 3 8 demoting). by vm_compute. }
  assert (cached demoted 4 = Some 4) as Hold by (by vm_compute).
  split_and!; [done | done | done |].
  exact (Set_of_resident_key 0 false unit 3 demoted 4 4 9 0 Hr Hc Hold).
Defined.

Lemma Set_Len_witness :
  Int.in_range 3 /\ reachable 0 false unit 3 evicted
  /\ Set_ 0 false 8 5 50 evicted = Ok (tt, evicted_Set)
  /\ Len evicted_Set = Z.min 3 (Len evicted + 1).
Proof.
  assert (Int.in_range 3) as Hr by (apply in_range_small; lia).
  assert (reachable 0 false unit 3 evicted) as Hc.
  { apply (after_reachable 0 false unit 3 8 evictionOrder). by vm_compute. }
  assert (Set_ 0 false 8 5 50 evicted = Ok (tt, evicted_Set)) as Hrun
    by (by vm_compute).
  split_and!; [done | done | done |].
  pose proof (Set_Len 0 false unit 3 evicted 5 50 8 tt evicted_Set Hr Hc Hrun)
    as HL.
  by replace (cached evicted 5) with (@None Z) in HL by (by vm_compute).
Defined.

Lemma Load_without_miss_witness :
  Int.in_range 3 /\ reachable 0 false unit 3 demoted
  /\ (exists c', Load 0 false 0 4 (fetched 70) demoted = Ok ((4, None), c')
        /\ Len c' = Len demoted /\ forall k, cached c' k = cached demoted k).
Proof.
  assert (Int.in_range 3) as Hr by (apply in_range_small; lia).
  assert (reachable 0 false unit 3 demoted) as Hc.
  { apply (after_reachable 0 false unit 3 8 demoting). by vm_compute. }
  pose proof (Load_without_miss 0 false unit 3 demoted 4 (fetched 70) 0 Hr Hc)
    as Hhit.
  replace (cached demoted 4) with (Some 4) in Hhit by (by vm_compute).
  by split_and!.
Defined.

Lemma Load_miss_Len_witness :
  Int.in_range 3 /\ reachable 0 false unit 3 evicted
  /\ cached evicted 7 = None
  /\ Load 0 false 8 7 (fetched 70) evicted = Ok ((70, None), evicted_Load)
  /\ Len evicted_Load = Z.min 3 (Len evicted + 1).
Proof.
  assert (Int.in_range 3) as Hr by (apply in_range_small; lia).
  assert (reachable 0 false unit 3 evicted) as Hc.
  { apply (after_reachable 0 false unit 3 8 evictionOrder). by vm_compute. }
  assert (cached evicted 7 = None) as Hk by (by vm_compute).
  assert (Load 0 false 8 7 (fetched 70) evicted
          = Ok ((70, None), evicted_Load)) as Hrun by (by vm_compute).
  split_and!; [done | done | done | done |].
  apply (Load_miss_Len 0 false unit 3 evicted 7 (fetched 70) 8 70
           (70, None) evicted_Load Hr Hc Hk eq_refl Hrun).
Defined.

Lemma huge_capacity_stays_empty_witness :
  2 ^ 62 <= 2 ^ 62 /\ Int.in_range (2 ^ 62)
  /\ reachable 0 false unit (2 ^ 62) huge
  /\ Set_ 0 false 1 7 7 huge = Panic.
Proof.
  assert (Int.in_range (2 ^ 62)) as Hr.
  { unfold Int.in_range, Int.min_int, Int.max_int. lia. }
  assert (reachable 0 false unit (2 ^ 62) huge) as Hc.
  { apply (after_reachable 0 false unit (2 ^ 62) 8 []). by vm_compute. }
  split_and!; [lia | done | done |].
  apply (huge_capacity_stays_empty 0 false unit (2 ^ 62) huge
           ltac:(lia) Hr Hc).
Defined.

Lemma index_covers_ring_witness :
  Int.in_range 3 /\ reachable_without_Load 0 false 3 demoted
  /\ Z.of_nat (size (index demoted)) = Z.of_nat (length (ring_pages demoted)).
Proof.
  assert (Int.in_range 3) as Hr by (apply in_range_small; lia).
  assert (reachable_without_Load 0 false 3 demoted) as Hc.
  { apply (after_without_Load 0 false unit 3 8 demoting); by vm_compute. }
  split_and!; [done | done |].
  apply (index_covers_ring 0 false 3 demoted Hr Hc).
Defined.

Lemma calls_keep_other_keys_witness :
  Int.in_range 3 /\ reachable 0 false unit 3 evicted
  /\ exec 0 false unit 8 (OpSet 5 50) evicted = Ok (tt, evicted_Set)
  /\ 1 <> 5 /\ cached evicted_Set 1 = Some 1
  /\ cached evicted 1 = Some 1.
Proof.
  assert (Int.in_range 3) as Hr by (apply in_range_small; lia).
  assert (reachable 0 false unit 3 evicted) as Hc.
  { apply (after_reachable 0 false unit 3 8 evictionOrder). by vm_compute. }
  assert (exec 0 false unit 8 (OpSet 5 50) evicted = Ok (tt, evicted_Set))
    as Hrun by (by vm_compute).
  assert (cached evicted_Set 1 = Some 1) as Hk by (by vm_compute).
  split_and!; [done | done | done | lia | done |].
  apply (calls_keep_other_keys 0 false unit 3 evicted (OpSet 5 50) 8
           evicted_Set 1 1 Hr Hc Hrun ltac:(simpl; lia) Hk).
Defined.

Lemma Set_then_Get_witness :
  Int.in_range 3 /\ reachable_without_Load 0 false 3 evicted
  /\ Set_ 0 false 8 5 50 evicted = Ok (tt, evicted_Set)
  /\ cached evicted_Set 5 = Some 50
  /\ exists c'', Get 0 5 evicted_Set = Ok ((50, true), c'').
Proof.
  assert (Int.in_range 3) as Hr by (apply in_range_small; lia).
  assert (reachable_without_Load 0 false 3 evicted) as Hc.
  { apply (after_without_Load 0 false unit 3 8 evictionOrder);
      by vm_compute. }
  assert (Set_ 0 false 8 5 50 evicted = Ok (tt, evicted_Set)) as Hrun
    by (by vm_compute).
  split_and!; [done | done | done | |];
    apply (Set_then_Get 0 false 3 evicted 5 50 8 evicted_Set Hr Hc Hrun).
Defined.


Lemma Keys_lists_the_residents_witness :
  Int.in_range 3 /\ reachable_without_Load 0 false 3 evicted
  /\ map_to_list (index evicted) ≡ₚ map_to_list (index evicted)
  /\ Keys evicted (map_to_list (index evicted)) yield_all
     = Ok (yielded yield_all
             (resident_keys evicted (map_to_list (index evicted))))
  /\ Z.of_nat (length (resident_keys evicted (map_to_list (index evicted))))
     = Len evicted.
Proof.
  assert (Int.in_range 3) as Hr by (apply in_range_small; lia).
  assert (reachable_without_Load 0 false 3 evicted) as Hc.
  { apply (after_without_Load 0 false unit 3 8 evictionOrder);
      by vm_compute. }
  split_and!; [done | done | done | |];
    apply (Keys_lists_the_residents 0 false 3 evicted
             (map_to_list (index evicted)) yield_all Hr Hc
             (reflexivity _)).
Defined.

End clockpro.
